(** * Verification of the ingestion/upsert core and the team-form
      analytics of sports_prediction_ai.

    Sources modelled:
    - src/sports_prediction_ai/src/data_preprocessing.py,
      [get_team_form_features]                         (module [Form])
    - src/sports_prediction_ai/src/collect_openfootball.py,
      [_get_or_create_entity_id]                       (module [Upsert])
    - src/sports_prediction_ai/src/collect_football_data_org_history.py,
      [process_and_store_matches] and its fallback
      [_get_or_create_entity_id]                       (module [Upsert])
    - src/sports_prediction_ai/src/database_importer.py, the
      [INSERT ... ON CONFLICT ... DO NOTHING] importers (module [Kaggle]),
      [get_or_create_league], [get_or_create_team],
      [import_kaggle_international_results] and the status block of
      [import_thesportsdb_events]                      (module [Importer])
    - src/sports_prediction_ai/src/utils.py, [to_snake_case] and
      [normalise_dataframe_columns]                    (module [Snake])
    - src/sports_prediction_ai/src/data_preprocessing.py,
      [engineer_form_features]                         (module [FormEng])
    - src/sports_prediction_ai/src/collect_openfootball.py, the score
      block and [source_match_id] of [parse_and_store_football_json]
                                                       (module [OpenFootball]) *)

From Stdlib Require Import ZArith QArith Sorting.Sorted Lia.
From stdpp Require Import base gmap strings list pretty.
From Stdlib Require Import Ascii.

(* ===================================================================== *)
(** * Team form analytics ([get_team_form_features]) *)
(* ===================================================================== *)

Module Form.

Local Open Scope Z_scope.

(** One row of [historical_matches_df].  The score columns are held as the
    value of [pd.to_numeric(..., errors='coerce')]: [None] stands for a
    missing or non-numeric score (NaN).  [h_utcDate] is the column after
    [pd.to_datetime(..., errors='coerce')]: [None] is NaT, [Some t] a
    timestamp. *)
Record hist_row := {
  h_home_team_id : Z;
  h_away_team_id : Z;
  h_home_team_score : option Z;
  h_away_team_score : option Z;
  h_utcDate : option Z
}.

(** The data frame: its rows, and whether the ['utcDate'] column exists. *)
Record frame := {
  df_rows : list hist_row;
  df_has_utcDate : bool
}.

(** Outcome of [pd.to_datetime(match_date_str)]: a timestamp, NaT (e.g. for
    an empty string), or a [ValueError]. *)
Inductive date_parse := DateOk (t : Z) | DateNaT | DateInvalid.

(** The returned dict: [<prefix>_W], [_D], [_L], [_games_played]. *)
Record form := {
  form_W : Z;
  form_D : Z;
  form_L : Z;
  form_games_played : Z
}.

Definition key_prefix (specific_venue : option string) : string :=
  match specific_venue with
  | None => "form_overall"
  | Some v =>
      if String.eqb v "home" || String.eqb v "away" then "form_spec_venue"
      else "form_unknown_venue_type"
  end.

Definition default_form : form :=
  {| form_W := 0; form_D := 0; form_L := 0; form_games_played := 0 |}.

(** [historical_df_copy['utcDate'] < current_match_date]: a comparison with
    NaT on either side is false. *)
Definition ts_lt (a b : option Z) : bool :=
  match a, b with
  | Some x, Some y => x <? y
  | _, _ => false
  end.

Definition base_filter (team_id : Z) (cur : option Z) (r : hist_row) : bool :=
  ((h_home_team_id r =? team_id) || (h_away_team_id r =? team_id)) &&
  ts_lt (h_utcDate r) cur &&
  (match h_utcDate r with Some _ => true | None => false end).

Definition venue_filter (team_id : Z) (specific_venue : option string)
    (r : hist_row) : bool :=
  match specific_venue with
  | Some v =>
      if String.eqb v "home" then h_home_team_id r =? team_id
      else if String.eqb v "away" then h_away_team_id r =? team_id
      else true
  | None => true
  end.

Definition team_filter (team_id : Z) (cur : option Z)
    (specific_venue : option string) (r : hist_row) : bool :=
  base_filter team_id cur r && venue_filter team_id specific_venue r.

(** Descending order on [utcDate], NaT last ([na_position='last']). *)
Definition ts_ge (a b : option Z) : bool :=
  match a, b with
  | Some x, Some y => y <=? x
  | Some _, None => true
  | None, Some _ => false
  | None, None => true
  end.

(** [sort_values(by='utcDate', ascending=False)], as a stable insertion
    sort.  (pandas' default quicksort does not fix the order of rows with
    equal timestamps; this is one of its admissible orders.) *)
Fixpoint insert_desc (r : hist_row) (l : list hist_row) : list hist_row :=
  match l with
  | [] => [r]
  | x :: l' =>
      if ts_ge (h_utcDate r) (h_utcDate x) then r :: x :: l'
      else x :: insert_desc r l'
  end.

Fixpoint sort_desc (l : list hist_row) : list hist_row :=
  match l with
  | [] => []
  | r :: l' => insert_desc r (sort_desc l')
  end.

(** [DataFrame.head(n)]: the first [n] rows; for a negative [n], all rows
    except the last [|n|]. *)
Definition head (n : Z) (l : list hist_row) : list hist_row :=
  if 0 <=? n then firstn (Z.to_nat n) l
  else firstn (length l - Z.to_nat (- n)) l.

(** One iteration of [for _, row in recent_games.iterrows()]; the
    accumulator is [(wins, draws, losses, actual_games_played)]. *)
Definition classify_row (team_id : Z) (acc : Z * Z * Z * Z) (r : hist_row)
    : Z * Z * Z * Z :=
  let '(w, d, l, gp) := acc in
  match h_home_team_score r, h_away_team_score r with
  | Some hs, Some as_ =>
      if h_home_team_id r =? team_id then
        if as_ <? hs then (w + 1, d, l, gp)
        else if hs =? as_ then (w, d + 1, l, gp)
        else (w, d, l + 1, gp)
      else if h_away_team_id r =? team_id then
        if hs <? as_ then (w + 1, d, l, gp)
        else if as_ =? hs then (w, d + 1, l, gp)
        else (w, d, l + 1, gp)
      else (w, d, l, gp)
  | _, _ => (w, d, l, gp - 1)
  end.

(** The loop over [recent_games], starting from
    [actual_games_played = len(recent_games)]. *)
Definition count_outcomes (team_id : Z) (recent : list hist_row) : form :=
  let '(w, d, l, gp) :=
    fold_left (classify_row team_id) recent (0, 0, 0, Z.of_nat (length recent)) in
  {| form_W := w; form_D := d; form_L := l; form_games_played := gp |}.

Definition get_team_form_features (team_id : option Z)
    (match_date : option date_parse) (df : frame) (num_games : Z)
    (specific_venue : option string) : form :=
  match df_rows df, team_id, match_date with
  | [], _, _ | _, None, _ | _, _, None => default_form
  | rows, Some t, Some md =>
      match md with
      | DateInvalid => default_form
      | _ =>
          let cur := match md with DateOk c => Some c | _ => None end in
          if negb (df_has_utcDate df) then default_form else
          let team_matches := List.filter (team_filter t cur specific_venue) rows in
          match team_matches with
          | [] => default_form
          | _ =>
              let recent := head num_games (sort_desc team_matches) in
              if Z.of_nat (length recent) =? 0 then default_form
              else count_outcomes t recent
          end
      end
  end.

(** Helpers for reasoning about the loop: the per-row increment of the
    accumulator, its sum over a list, and the "both scores numeric" test. *)
Definition add4 (a b : Z * Z * Z * Z) : Z * Z * Z * Z :=
  let '(a1, a2, a3, a4) := a in
  let '(b1, b2, b3, b4) := b in
  (a1 + b1, a2 + b2, a3 + b3, a4 + b4).

Definition row_delta (team_id : Z) (r : hist_row) : Z * Z * Z * Z :=
  classify_row team_id (0, 0, 0, 0) r.

Definition sum_delta (team_id : Z) (rows : list hist_row) : Z * Z * Z * Z :=
  fold_right (fun r acc => add4 (row_delta team_id r) acc) (0, 0, 0, 0) rows.

Definition is_scored (r : hist_row) : bool :=
  match h_home_team_score r, h_away_team_score r with
  | Some _, Some _ => true
  | _, _ => false
  end.

Definition involves (team_id : Z) (r : hist_row) : bool :=
  (h_home_team_id r =? team_id) || (h_away_team_id r =? team_id).

(** Sortedness of a window: each row's timestamp is at least the next one's. *)
Definition desc_rel (a b : hist_row) : Prop := ts_ge (h_utcDate a) (h_utcDate b) = true.

(** Concrete inputs: the history of the spec's scenario (T10 home 2-1 T11 on
    day 1, T11 home 1-2 T10 on day 2, T10 home 0-0 T12 on day 3). *)
Definition scenario_history : frame :=
  {| df_rows :=
       [ {| h_home_team_id := 10; h_away_team_id := 11; h_home_team_score := Some 2;
            h_away_team_score := Some 1; h_utcDate := Some 1 |};
         {| h_home_team_id := 11; h_away_team_id := 10; h_home_team_score := Some 1;
            h_away_team_score := Some 2; h_utcDate := Some 2 |};
         {| h_home_team_id := 10; h_away_team_id := 12; h_home_team_score := Some 0;
            h_away_team_score := Some 0; h_utcDate := Some 3 |} ];
     df_has_utcDate := true |}.

(** The same history with the day-3 score missing. *)
Definition scenario_history_corrupt : frame :=
  {| df_rows :=
       [ {| h_home_team_id := 10; h_away_team_id := 11; h_home_team_score := Some 2;
            h_away_team_score := Some 1; h_utcDate := Some 1 |};
         {| h_home_team_id := 11; h_away_team_id := 10; h_home_team_score := Some 1;
            h_away_team_score := Some 2; h_utcDate := Some 2 |};
         {| h_home_team_id := 10; h_away_team_id := 12; h_home_team_score := None;
            h_away_team_score := Some 0; h_utcDate := Some 3 |} ];
     df_has_utcDate := true |}.

End Form.

(* ===================================================================== *)
(** * The match upsert engine *)
(* ===================================================================== *)

Module Upsert.

(** Python truthiness of an optional string: [None] and [""] are falsy. *)
Definition truthy (s : option string) : bool :=
  match s with Some x => negb (String.eqb x "") | None => false end.

(** [entity_type]: ["league"] or ["team"]. *)
Inductive entity_type := League | Team.

(** A row of [leagues] or [teams]: the id, [name], [sport], the
    [source_league_id]/[source_team_id] column and (leagues only)
    [country].  Row ids are SQLite rowids, hence positive. *)
Record entity_row := {
  ent_id : positive;
  ent_name : string;
  ent_sport : string;
  ent_source_id : option string;
  ent_country : option string
}.

Inductive winner_t := HOME_TEAM | AWAY_TEAM | DRAW.

(** The columns written from [match_fields_to_update]. *)
Record match_fields := {
  f_league_id : positive;
  f_home_team_id : positive;
  f_away_team_id : positive;
  f_match_datetime_utc : option string;
  f_status : option string;
  f_home_score : option Z;
  f_away_score : option Z;
  f_winner : option winner_t;
  f_stage : option string;
  f_matchday : option Z;
  f_is_mock : Z
}.

(** A row of [matches]. *)
Record match_row := {
  match_id : positive;
  m_fields : match_fields;
  source_match_id : string;
  source_name : string
}.

(** A row of [odds]; prices are the Python floats, held as rationals. *)
Record odds_row := {
  odd_id : positive;
  o_match_id : positive;
  o_bookmaker : string;
  o_market_type : string;
  home_odds : Q;
  draw_odds : Q;
  away_odds : Q;
  o_timestamp_utc : option string
}.

(** The database.  Each table is indexed by the columns the code looks its
    rows up by: [(name, sport)] for leagues and teams,
    [(source_match_id, source_name)] for matches and
    [(match_id, bookmaker, market_type)] for odds.  The [next_*] fields are
    the AUTOINCREMENT counters of [database_setup.py]. *)
Record store := {
  leagues : gmap (string * string) entity_row;
  teams : gmap (string * string) entity_row;
  matches : gmap (string * string) match_row;
  odds : gmap (positive * string * string) odds_row;
  next_league_id : positive;
  next_team_id : positive;
  next_match_id : positive;
  next_odd_id : positive
}.

Definition set_leagues (st : store) m : store :=
  {| leagues := m; teams := teams st; matches := matches st; odds := odds st;
     next_league_id := next_league_id st; next_team_id := next_team_id st;
     next_match_id := next_match_id st; next_odd_id := next_odd_id st |}.
Definition set_teams (st : store) m : store :=
  {| leagues := leagues st; teams := m; matches := matches st; odds := odds st;
     next_league_id := next_league_id st; next_team_id := next_team_id st;
     next_match_id := next_match_id st; next_odd_id := next_odd_id st |}.
Definition set_matches (st : store) m : store :=
  {| leagues := leagues st; teams := teams st; matches := m; odds := odds st;
     next_league_id := next_league_id st; next_team_id := next_team_id st;
     next_match_id := next_match_id st; next_odd_id := next_odd_id st |}.
Definition set_odds (st : store) m : store :=
  {| leagues := leagues st; teams := teams st; matches := matches st; odds := m;
     next_league_id := next_league_id st; next_team_id := next_team_id st;
     next_match_id := next_match_id st; next_odd_id := next_odd_id st |}.

(** [cursor.lastrowid] after an INSERT: the counter, which is then bumped. *)
Definition bump_league_id (st : store) : store :=
  {| leagues := leagues st; teams := teams st; matches := matches st; odds := odds st;
     next_league_id := Pos.succ (next_league_id st); next_team_id := next_team_id st;
     next_match_id := next_match_id st; next_odd_id := next_odd_id st |}.
Definition bump_team_id (st : store) : store :=
  {| leagues := leagues st; teams := teams st; matches := matches st; odds := odds st;
     next_league_id := next_league_id st; next_team_id := Pos.succ (next_team_id st);
     next_match_id := next_match_id st; next_odd_id := next_odd_id st |}.
Definition bump_match_id (st : store) : store :=
  {| leagues := leagues st; teams := teams st; matches := matches st; odds := odds st;
     next_league_id := next_league_id st; next_team_id := next_team_id st;
     next_match_id := Pos.succ (next_match_id st); next_odd_id := next_odd_id st |}.
Definition bump_odd_id (st : store) : store :=
  {| leagues := leagues st; teams := teams st; matches := matches st; odds := odds st;
     next_league_id := next_league_id st; next_team_id := next_team_id st;
     next_match_id := next_match_id st; next_odd_id := Pos.succ (next_odd_id st) |}.

(** The SQLite connection: the working state [db] (uncommitted writes
    included), the last committed state [durable], and the outcome of every
    [conn.commit()] attempted so far. *)
Record conn := {
  db : store;
  durable : store;
  commit_log : list bool
}.

Definition set_db (c : conn) (st : store) : conn :=
  {| db := st; durable := durable c; commit_log := commit_log c |}.

(** [conn.rollback()]: the working state returns to the committed one. *)
Definition rollback (c : conn) : conn :=
  {| db := durable c; durable := durable c; commit_log := commit_log c |}.

Definition entity_table (et : entity_type) (st : store) :=
  match et with League => leagues st | Team => teams st end.
Definition set_entity_table (et : entity_type) (st : store) m : store :=
  match et with League => set_leagues st m | Team => set_teams st m end.
Definition next_entity_id (et : entity_type) (st : store) : positive :=
  match et with League => next_league_id st | Team => next_team_id st end.
Definition bump_entity_id (et : entity_type) (st : store) : store :=
  match et with League => bump_league_id st | Team => bump_team_id st end.

Definition set_source_id (row : entity_row) (sid : option string) : entity_row :=
  {| ent_id := ent_id row; ent_name := ent_name row; ent_sport := ent_sport row;
     ent_source_id := sid; ent_country := ent_country row |}.

(** The SQL part of the [try] block of [_get_or_create_entity_id] of
    [collect_openfootball.py]: the [SELECT], then the [UPDATE] of the source id (when [source_id] is
    truthy and the stored one is [None] or different) or the [INSERT] (with
    [country] for leagues only).  Returns the new state and the id. *)
Definition resolve_entity (et : entity_type) (st : store) (name sport : string)
    (source_id country : option string) : store * positive :=
  let k := (name, sport) in
  match entity_table et st !! k with
  | Some row =>
      let st' :=
        if truthy source_id && negb (bool_decide (ent_source_id row = source_id))
        then set_entity_table et st (<[k := set_source_id row source_id]> (entity_table et st))
        else st in
      (st', ent_id row)
  | None =>
      let id := next_entity_id et st in
      let row := {| ent_id := id; ent_name := name; ent_sport := sport;
                    ent_source_id := source_id;
                    ent_country := match et with League => country | Team => None end |} in
      (bump_entity_id et (set_entity_table et st (<[k := row]> (entity_table et st))), id)
  end.

(** The SQL part of the [try] block of the fallback
    [_get_or_create_entity_id] of [collect_football_data_org_history.py],
    which the module defines and uses when [data_collection] provides none:
    the [SELECT]; a found row's id is returned as it is (its source id is
    never updated); otherwise the [INSERT OR IGNORE] of [(name, sport,
    source_id)] (with [country] for leagues).  The key being absent, the
    insert is not ignored, and [cursor.lastrowid] is the new id. *)
Definition resolve_entity_fb (et : entity_type) (st : store) (name sport : string)
    (source_id country : option string) : store * positive :=
  let k := (name, sport) in
  match entity_table et st !! k with
  | Some row => (st, ent_id row)
  | None =>
      let id := next_entity_id et st in
      let row := {| ent_id := id; ent_name := name; ent_sport := sport;
                    ent_source_id := source_id;
                    ent_country := match et with League => country | Team => None end |} in
      (bump_entity_id et (set_entity_table et st (<[k := row]> (entity_table et st))), id)
  end.

(** One record of [matches_api_data], as far as the code reads it.
    [ft_home]/[ft_away] are [score['fullTime'].get('home'/'away')] after
    [int(...)], [None] when [score] or [fullTime] is absent or empty. *)
Record team_api := { ta_name : option string; ta_id : option Z }.

(** A price as given to [float(...)]: a number, or a value it rejects. *)
Inductive price := PNum (q : Q) | PBad.

Record odds_api := {
  od_msg : option string;
  od_homeWin : option price;
  od_draw : option price;
  od_awayWin : option price
}.

Record match_api := {
  m_api_id : option Z;
  homeTeam : team_api;
  awayTeam : team_api;
  utcDate : option string;
  status : option string;
  ft_home : option Z;
  ft_away : option Z;
  stage : option string;
  matchday : option Z;
  m_odds : option odds_api
}.

(** [str(team.get('id')) if team.get('id') else None]. *)
Definition team_source_id (t : team_api) : option string :=
  match ta_id t with
  | Some z => if Z.eqb z 0 then None else Some (pretty z)
  | None => None
  end.

(** [str(match_data.get('id'))]. *)
Definition source_match_id_of (md : match_api) : string :=
  match m_api_id md with Some z => pretty z | None => "None" end.

Definition source_name_fdo : string := "football-data.org-history".

Definition match_key (md : match_api) : string * string :=
  (source_match_id_of md, source_name_fdo).

(** The winner computed from the two scores. *)
Definition compute_winner (hs as_ : option Z) : option winner_t :=
  match hs, as_ with
  | Some h, Some a =>
      if Z.gtb h a then Some HOME_TEAM
      else if Z.gtb a h then Some AWAY_TEAM
      else Some DRAW
  | _, _ => None
  end.

(** [match_fields_to_update] for a record. *)
Definition match_fields_of (league_id home_id away_id : positive) (md : match_api)
    : match_fields :=
  {| f_league_id := league_id; f_home_team_id := home_id; f_away_team_id := away_id;
     f_match_datetime_utc := utcDate md; f_status := status md;
     f_home_score := ft_home md; f_away_score := ft_away md;
     f_winner := compute_winner (ft_home md) (ft_away md);
     f_stage := stage md; f_matchday := matchday md; f_is_mock := 0%Z |}.

(** The columns compared to decide [needs_update]. *)
Definition mutable_key (f : match_fields)
    : option string * option Z * option Z * option string :=
  (f_status f, f_home_score f, f_away_score f, f_match_datetime_utc f).

Definition needs_update (row : match_row) (f : match_fields) : bool :=
  negb (bool_decide (mutable_key (m_fields row) = mutable_key f)).

(** The [UPDATE matches SET <every field of match_fields_to_update>]. *)
Definition update_match_row (row : match_row) (f : match_fields) : match_row :=
  {| match_id := match_id row; m_fields := f;
     source_match_id := source_match_id row; source_name := source_name row |}.

Definition new_match_row (id : positive) (k : string * string) (f : match_fields)
    : match_row :=
  {| match_id := id; m_fields := f; source_match_id := k.1; source_name := k.2 |}.

(** The match part of the loop body: [SELECT] by key, then [UPDATE] when
    [needs_update], nothing when not, [INSERT] when absent.  Returns the new
    state, [current_match_db_id], and the increments of
    [inserted_matches_count] and [updated_matches_count]. *)
Definition upsert_match (st : store) (k : string * string) (f : match_fields)
    : store * positive * nat * nat :=
  match matches st !! k with
  | Some row =>
      if needs_update row f
      then (set_matches st (<[k := update_match_row row f]> (matches st)), match_id row, 0, 1)
      else (st, match_id row, 0, 0)
  | None =>
      let id := next_match_id st in
      (bump_match_id (set_matches st (<[k := new_match_row id k f]> (matches st))), id, 1, 0)
  end.

Definition activation_msg : string :=
  "Activate Odds-Package in User-Panel to retrieve odds.".

Definition odds_key (mid : positive) : positive * string * string :=
  (mid, "football-data.org_API", "1X2").

(** [float(v)]: [None] where it raises [ValueError]/[TypeError]. *)
Definition parse_price (p : price) : option Q :=
  match p with PNum q => Some q | PBad => None end.

(** [old_h != home_odds_float or old_d != ... or old_a != ...]. *)
Definition odds_differ (o : odds_row) (h d a : Q) : bool :=
  negb (Qeq_bool (home_odds o) h) || negb (Qeq_bool (draw_odds o) d)
  || negb (Qeq_bool (away_odds o) a).

Definition update_odds_row (o : odds_row) (h d a : Q) (ts : option string) : odds_row :=
  {| odd_id := odd_id o; o_match_id := o_match_id o; o_bookmaker := o_bookmaker o;
     o_market_type := o_market_type o; home_odds := h; draw_odds := d; away_odds := a;
     o_timestamp_utc := ts |}.

Definition new_odds_row (id mid : positive) (h d a : Q) (ts : option string) : odds_row :=
  {| odd_id := id; o_match_id := mid; o_bookmaker := "football-data.org_API";
     o_market_type := "1X2"; home_odds := h; draw_odds := d; away_odds := a;
     o_timestamp_utc := ts |}.

(** The odds part of the loop body, for [current_match_db_id = mid].
    Returns the new state and the increments of [inserted_odds_count] and
    [updated_odds_count]. *)
Definition upsert_odds (st : store) (mid : positive) (ts : option string)
    (od : option odds_api) : store * nat * nat :=
  match od with
  | None => (st, 0, 0)
  | Some o =>
      if bool_decide (od_msg o = Some activation_msg) then (st, 0, 0) else
      match od_homeWin o, od_draw o, od_awayWin o with
      | Some hv, Some dv, Some av =>
          match parse_price hv, parse_price dv, parse_price av with
          | Some h, Some d, Some a =>
              let k := odds_key mid in
              match odds st !! k with
              | Some orow =>
                  if odds_differ orow h d a
                  then (set_odds st (<[k := update_odds_row orow h d a ts]> (odds st)), 0, 1)
                  else (st, 0, 0)
              | None =>
                  (bump_odd_id (set_odds st (<[k := new_odds_row (next_odd_id st) mid h d a ts]>
                                               (odds st))), 1, 0)
              end
          | _, _, _ => (st, 0, 0)
          end
      | _, _, _ => (st, 0, 0)
      end
  end.

(** The four counters of [process_and_store_matches]. *)
Record counts := {
  n_ins_m : nat; n_upd_m : nat; n_ins_o : nat; n_upd_o : nat
}.

Definition zero_counts : counts := {| n_ins_m := 0; n_upd_m := 0; n_ins_o := 0; n_upd_o := 0 |}.

Definition add_counts (c : counts) (im um io uo : nat) : counts :=
  {| n_ins_m := n_ins_m c + im; n_upd_m := n_upd_m c + um;
     n_ins_o := n_ins_o c + io; n_upd_o := n_upd_o c + uo |}.

Definition counts_tuple (c : counts) : nat * nat * nat * nat :=
  (n_ins_m c, n_upd_m c, n_ins_o c, n_upd_o c).

Section Engine.

(** Whether [conn.commit()] succeeds on a given working state (it raises
    [sqlite3.Error] otherwise, e.g. on a locked or full database). *)
Variable commit_ok : store -> bool.

(** [conn.commit()]: on success the working state becomes durable. *)
Definition commit (c : conn) : conn * bool :=
  if commit_ok (db c)
  then ({| db := db c; durable := db c; commit_log := commit_log c ++ [true] |}, true)
  else ({| db := db c; durable := durable c; commit_log := commit_log c ++ [false] |}, false).

(** [_get_or_create_entity_id(conn, entity_type, name, sport, source_id,
    country)] of [collect_openfootball.py]: [None] for a missing or empty name or an empty sport; after
    the SQL part, [conn.commit()]; on its failure, [conn.rollback()] and
    [None]. *)
Definition get_or_create_entity_id (c : conn) (et : entity_type) (name : option string)
    (sport : string) (source_id country : option string) : conn * option positive :=
  match name with
  | None => (c, None)
  | Some n =>
      if String.eqb n "" || String.eqb sport "" then (c, None) else
      let '(st', id) := resolve_entity et (db c) n sport source_id country in
      let '(c', ok) := commit (set_db c st') in
      if ok then (c', Some id) else (rollback c', None)
  end.

(** The fallback [_get_or_create_entity_id(conn, entity_type, name, sport,
    source_id, country)] of [collect_football_data_org_history.py]: [None]
    for a missing or empty name or an empty sport ([if not name or not
    sport]); after the SQL part, [conn.commit()] (found or inserted); on its
    failure ([sqlite3.Error]), [conn.rollback()] and [None]. *)
Definition get_or_create_entity_id_fb (c : conn) (et : entity_type) (name : option string)
    (sport : string) (source_id country : option string) : conn * option positive :=
  match name with
  | None => (c, None)
  | Some n =>
      if String.eqb n "" || String.eqb sport "" then (c, None) else
      let '(st', id) := resolve_entity_fb et (db c) n sport source_id country in
      let '(c', ok) := commit (set_db c st') in
      if ok then (c', Some id) else (rollback c', None)
  end.

(** The body of [for match_data in matches_api_data]; [_get_or_create_entity_id]
    is the module's fallback. *)
Definition process_match (league_id : positive) (sport : string)
    (acc : conn * counts) (md : match_api) : conn * counts :=
  let '(c, cnt) := acc in
  let hname := ta_name (homeTeam md) in
  let aname := ta_name (awayTeam md) in
  if negb (truthy hname) || negb (truthy aname) then (c, cnt) else
  let '(c1, hid) := get_or_create_entity_id_fb c Team hname sport (team_source_id (homeTeam md)) None in
  let '(c2, aid) := get_or_create_entity_id_fb c1 Team aname sport (team_source_id (awayTeam md)) None in
  match hid, aid with
  | Some h, Some a =>
      let '(st1, mid, im, um) :=
        upsert_match (db c2) (match_key md) (match_fields_of league_id h a md) in
      let '(st2, io, uo) := upsert_odds st1 mid (utcDate md) (m_odds md) in
      (set_db c2 st2, add_counts cnt im um io uo)
  | _, _ => (c2, cnt)
  end.

(** [process_and_store_matches(conn, matches_api_data, default_league_name,
    default_league_api_code, default_country, sport)]: the new connection
    and [(inserted_matches, updated_matches, inserted_odds, updated_odds)]. *)
Definition process_and_store_matches (c : conn) (data : list match_api)
    (league_name league_code country : option string) (sport : string)
    : conn * (nat * nat * nat * nat) :=
  match data with
  | [] => (c, (0, 0, 0, 0))
  | _ :: _ =>
      let '(c1, lid) := get_or_create_entity_id_fb c League league_name sport league_code country in
      match lid with
      | None => (c1, (0, 0, 0, 0))
      | Some l =>
          let '(c2, cnt) := fold_left (process_match l sport) data (c1, zero_counts) in
          let '(c3, ok) := commit c2 in
          if ok then (c3, counts_tuple cnt) else (c3, (0, 0, 0, 0))
      end
  end.

End Engine.

(** ** Store-level forms used in the proofs *)

(** Whether a record reaches the team resolution with a chance of
    success: both team names truthy and [sport] non-empty. *)
Definition active (sport : string) (md : match_api) : bool :=
  truthy (ta_name (homeTeam md)) && truthy (ta_name (awayTeam md))
  && negb (String.eqb sport "").

Definition hname (md : match_api) : string := default "" (ta_name (homeTeam md)).
Definition aname (md : match_api) : string := default "" (ta_name (awayTeam md)).

(** The effect of [process_match] on the working state when every commit
    succeeds, with the four counter increments. *)
Definition match_step (league_id : positive) (sport : string) (st : store)
    (md : match_api) : store * (nat * nat * nat * nat) :=
  if active sport md then
    let '(sth, h) := resolve_entity_fb Team st (hname md) sport (team_source_id (homeTeam md)) None in
    let '(sta, a) := resolve_entity_fb Team sth (aname md) sport (team_source_id (awayTeam md)) None in
    let '(st1, mid, im, um) := upsert_match sta (match_key md) (match_fields_of league_id h a md) in
    let '(st2, io, uo) := upsert_odds st1 mid (utcDate md) (m_odds md) in
    (st2, (im, um, io, uo))
  else (st, (0, 0, 0, 0)).

Definition add_delta (cnt : counts) (d : nat * nat * nat * nat) : counts :=
  let '(im, um, io, uo) := d in add_counts cnt im um io uo.

(** The loop of [process_and_store_matches] on the working state when every
    commit succeeds. *)
Definition run_store (league_id : positive) (sport : string) (acc : store * counts)
    (data : list match_api) : store * counts :=
  fold_left (fun '(st, cnt) md =>
               let '(st', d) := match_step league_id sport st md in (st', add_delta cnt d))
            data acc.

Definition run_db (league_id : positive) (sport : string) (st : store)
    (data : list match_api) : store :=
  fold_left (fun st md => fst (match_step league_id sport st md)) data st.

(** The prices [upsert_odds] goes on to store, if any. *)
Definition odds_prices (od : option odds_api) : option (Q * Q * Q) :=
  match od with
  | None => None
  | Some o =>
      if bool_decide (od_msg o = Some activation_msg) then None else
      match od_homeWin o, od_draw o, od_awayWin o with
      | Some hv, Some dv, Some av =>
          match parse_price hv, parse_price dv, parse_price av with
          | Some h, Some d, Some a => Some (h, d, a)
          | _, _, _ => None
          end
      | _, _, _ => None
      end
  end.

(** Row ids, once assigned, stay: every key of [S] is in [T] with the same
    id. *)
Definition tpersist (S T : store) : Prop :=
  forall k r, teams S !! k = Some r -> exists r', teams T !! k = Some r' /\ ent_id r' = ent_id r.
Definition mpersist (S T : store) : Prop :=
  forall k r, matches S !! k = Some r -> exists r', matches T !! k = Some r' /\ match_id r' = match_id r.
Definition opersist (S T : store) : Prop :=
  forall k r, odds S !! k = Some r -> exists r', odds T !! k = Some r' /\ odd_id r' = odd_id r.
Definition persists (S T : store) : Prop := tpersist S T /\ mpersist S T /\ opersist S T.

(** The ids of a (final) state [E]. *)
Definition tid (E : store) (k : string * string) : positive :=
  match teams E !! k with Some r => ent_id r | None => 1%positive end.
Definition mid_of (E : store) (k : string * string) : positive :=
  match matches E !! k with Some r => match_id r | None => 1%positive end.
Definition oid (E : store) (k : positive * string * string) : positive :=
  match odds E !! k with Some r => odd_id r | None => 1%positive end.

(** The effect of one event on one key, inserted rows taking their id
    from [E]. *)
Definition tstep (E : store) (k : string * string) (x : option entity_row)
    (sid : option string) : option entity_row :=
  match x with
  | Some r => Some r
  | None => Some {| ent_id := tid E k; ent_name := k.1; ent_sport := k.2;
                    ent_source_id := sid; ent_country := None |}
  end.

Definition mstep (E : store) (k : string * string) (x : option match_row)
    (f : match_fields) : option match_row :=
  match x with
  | Some r => Some (if needs_update r f then update_match_row r f else r)
  | None => Some (new_match_row (mid_of E k) k f)
  end.

Definition ostep (E : store) (k : positive * string * string) (x : option odds_row)
    (c : Q * Q * Q * option string) : option odds_row :=
  let '(h, d, a, ts) := c in
  match x with
  | Some o => Some (if odds_differ o h d a then update_odds_row o h d a ts else o)
  | None => Some (new_odds_row (oid E k) k.1.1 h d a ts)
  end.

(** The events a record produces on one key of each table. *)
Definition tsids (sport : string) (k : string * string) (md : match_api)
    : list (option string) :=
  if active sport md then
    (if bool_decide (k = (hname md, sport)) then [team_source_id (homeTeam md)] else [])
    ++ (if bool_decide (k = (aname md, sport)) then [team_source_id (awayTeam md)] else [])
  else [].

Definition mcands (league_id : positive) (sport : string) (E : store)
    (k : string * string) (md : match_api) : list match_fields :=
  if active sport md && bool_decide (k = match_key md)
  then [match_fields_of league_id (tid E (hname md, sport)) (tid E (aname md, sport)) md]
  else [].

Definition ocands (sport : string) (E : store) (k : positive * string * string)
    (md : match_api) : list (Q * Q * Q * option string) :=
  if active sport md then
    match odds_prices (m_odds md) with
    | Some (h, d, a) =>
        if bool_decide (k = odds_key (mid_of E (match_key md)))
        then [(h, d, a, utcDate md)] else []
    | None => []
    end
  else [].

(** After a record, all its keys are present. *)
Definition present (sport : string) (S : store) (md : match_api) : Prop :=
  active sport md = true ->
  is_Some (teams S !! (hname md, sport)) /\ is_Some (teams S !! (aname md, sport)) /\
  exists r, matches S !! match_key md = Some r /\
    (odds_prices (m_odds md) <> None -> is_Some (odds S !! odds_key (match_id r))).


(** The match ids of a state are distinct and below the AUTOINCREMENT
    counter, as SQLite keeps them ([match_id] is the primary key). *)
Definition mids_ok (S : store) : Prop :=
  (forall k r, matches S !! k = Some r -> (match_id r < next_match_id S)%positive) /\
  (forall k1 k2 r1 r2, matches S !! k1 = Some r1 -> matches S !! k2 = Some r2 ->
     match_id r1 = match_id r2 -> k1 = k2).

(** The state already agrees with a record: its teams and match row are
    present, the row's compared columns are the record's, and the stored
    prices, when the record has any, are the record's. *)
Definition settled (sport : string) (S : store) (md : match_api) : Prop :=
  active sport md = true ->
  is_Some (teams S !! (hname md, sport)) /\ is_Some (teams S !! (aname md, sport)) /\
  exists r, matches S !! match_key md = Some r /\
    mutable_key (m_fields r) = (status md, ft_home md, ft_away md, utcDate md) /\
    forall h d a, odds_prices (m_odds md) = Some (h, d, a) ->
      exists o, odds S !! odds_key (match_id r) = Some o /\ odds_differ o h d a = false.

(** ** Concrete inputs *)

Definition empty_store : store :=
  {| leagues := ∅; teams := ∅; matches := ∅; odds := ∅;
     next_league_id := 1; next_team_id := 1; next_match_id := 1; next_odd_id := 1 |}.

Definition conn0 : conn := {| db := empty_store; durable := empty_store; commit_log := [] |}.

Definition always_ok (s : store) : bool := true.

(** Commits succeed until the first match row is written. *)
Definition ok_until_match (s : store) : bool := Nat.eqb (size (matches s)) 0.

Definition arsenal : team_api := {| ta_name := Some "Arsenal"; ta_id := Some 57%Z |}.
Definition chelsea : team_api := {| ta_name := Some "Chelsea"; ta_id := Some 61%Z |}.
Definition everton : team_api := {| ta_name := Some "Everton"; ta_id := Some 62%Z |}.

(** Match 1001 while scheduled, without scores. *)
Definition rec_sched : match_api :=
  {| m_api_id := Some 1001%Z; homeTeam := arsenal; awayTeam := chelsea;
     utcDate := Some "2023-08-12T14:00:00Z"; status := Some "SCHEDULED";
     ft_home := None; ft_away := None; stage := Some "REGULAR_SEASON";
     matchday := Some 1%Z; m_odds := None |}.

(** The same match once finished 2-1. *)
Definition rec_final : match_api :=
  {| m_api_id := Some 1001%Z; homeTeam := arsenal; awayTeam := chelsea;
     utcDate := Some "2023-08-12T14:00:00Z"; status := Some "FINISHED";
     ft_home := Some 2%Z; ft_away := Some 1%Z; stage := Some "REGULAR_SEASON";
     matchday := Some 1%Z; m_odds := None |}.

(** The same match id, re-sent with another home team. *)
Definition rec_fix : match_api :=
  {| m_api_id := Some 1001%Z; homeTeam := everton; awayTeam := chelsea;
     utcDate := Some "2023-08-12T14:00:00Z"; status := Some "FINISHED";
     ft_home := Some 2%Z; ft_away := Some 1%Z; stage := Some "REGULAR_SEASON";
     matchday := Some 1%Z; m_odds := None |}.

(** A match reported FINISHED without a full-time score. *)
Definition rec_noscore : match_api :=
  {| m_api_id := Some 1002%Z; homeTeam := chelsea; awayTeam := arsenal;
     utcDate := Some "2023-08-19T14:00:00Z"; status := Some "FINISHED";
     ft_home := None; ft_away := None; stage := Some "REGULAR_SEASON";
     matchday := Some 2%Z; m_odds := None |}.

Definition pl_name : option string := Some "Premier League".
Definition pl_code : option string := Some "PL".
Definition pl_country : option string := Some "England".

(** The connection after storing [rec_sched] once, and the row it wrote. *)
Definition conn_sched : conn :=
  fst (process_and_store_matches always_ok conn0 [rec_sched] pl_name pl_code pl_country "football").

Definition row_sched : match_row :=
  new_match_row 1 (match_key rec_sched) (match_fields_of 1 1 2 rec_sched).

End Upsert.

(* ===================================================================== *)
(** * The insert-or-ignore importers ([database_importer.py]) *)
(* ===================================================================== *)

Module Kaggle.

(** A row of [matches] as [import_kaggle_international_results] writes it. *)
Record kmatch := {
  k_datetime : string;
  k_home_team_id : positive;
  k_away_team_id : positive;
  k_league_id : positive;
  k_status : string;
  k_home_score : Z;
  k_away_score : Z;
  k_source : string;
  k_source_match_id : string
}.

(** The conflict target [(datetime, home_team_id, away_team_id, source)]. *)
Definition kkey (r : kmatch) : string * positive * positive * string :=
  (k_datetime r, k_home_team_id r, k_away_team_id r, k_source r).

Definition ktable := gmap (string * positive * positive * string) kmatch.

(** [INSERT ... ON CONFLICT (...) DO NOTHING], with [cursor.rowcount]. *)
Definition insert_or_ignore (t : ktable) (r : kmatch) : ktable * nat :=
  match t !! kkey r with
  | Some _ => (t, 0)
  | None => (<[kkey r := r]> t, 1)
  end.

(** The row loop once league and team ids are resolved: every row is
    written with status ['FINISHED'] and [source]; the importer returns
    [(matches_added, 0)]. *)
Definition kaggle_source : string := "Kaggle/martj42_intl_results".

Definition kaggle_row (dt : string) (h a l : positive) (hs as_ : Z) (smid : string) : kmatch :=
  {| k_datetime := dt; k_home_team_id := h; k_away_team_id := a; k_league_id := l;
     k_status := "FINISHED"; k_home_score := hs; k_away_score := as_;
     k_source := kaggle_source; k_source_match_id := smid |}.

Definition import_rows (t : ktable) (rows : list kmatch) : ktable * (nat * nat) :=
  let '(t', added) :=
    fold_left (fun '(t, n) r => let '(t', k) := insert_or_ignore t r in (t', n + k)) rows (t, 0) in
  (t', (added, 0)).

(** A stored result 1-0, and the same fixture re-imported as 2-0. *)
Definition stored_row : kmatch := kaggle_row "2020-01-01 00:00:00" 1 2 1 1 0 "k1".
Definition corrected_row : kmatch := kaggle_row "2020-01-01 00:00:00" 1 2 1 2 0 "k1".

Definition table_with_stored : ktable := {[ kkey stored_row := stored_row ]}.

End Kaggle.

(* ===================================================================== *)
(** * Column-name normalisation ([utils.py]) *)
(* ===================================================================== *)

Module Snake.

(** Strings are read as lists of characters; the module covers ASCII text
    (the classes [A-Z], [a-z], [0-9], [\w] and [str.lower] are those of
    ASCII characters). *)
Definition code (c : ascii) : nat := Ascii.nat_of_ascii c.

Definition is_upper (c : ascii) : bool := (65 <=? code c)%nat && (code c <=? 90)%nat.
Definition is_lower (c : ascii) : bool := (97 <=? code c)%nat && (code c <=? 122)%nat.
Definition is_digit (c : ascii) : bool := (48 <=? code c)%nat && (code c <=? 57)%nat.

(** [\w] on ASCII: letters, digits and the underscore. *)
Definition is_word (c : ascii) : bool :=
  is_upper c || is_lower c || is_digit c || bool_decide (c = "_"%char).

(** [str.isspace] on ASCII: tab, line feed, vertical tab, form feed,
    carriage return, the separators [\x1c]-[\x1f], and space. *)
Definition is_space (c : ascii) : bool :=
  ((9 <=? code c)%nat && (code c <=? 13)%nat) || ((28 <=? code c)%nat && (code c <=? 32)%nat).

Definition ascii_text (s : string) : Prop :=
  Forall (fun c => (code c < 128)%nat) (String.list_ascii_of_string s).

(** [str.lower] on one character. *)
Definition lower_char (c : ascii) : ascii :=
  if is_upper c then Ascii.ascii_of_nat (code c + 32) else c.

(** [re.sub(r'([A-Z])([A-Z]+)$', r'\1_\2', name)].  [$] matches at the end
    of the string and just before a final line feed; the leftmost match
    starts the maximal run of capitals that ends there, and it needs at
    least two of them.  The substitution puts [_] after the first capital
    of that run; the search resumes at the end of the match, where nothing
    more can match. *)
Fixpoint upper_run (l : list ascii) : nat :=
  match l with c :: r => if is_upper c then S (upper_run r) else O | [] => O end.
Definition upper_suffix_len (l : list ascii) : nat := upper_run (reverse l).
Definition sub_upper_tail (l : list ascii) : list ascii :=
  let '(body, tl) :=
    match reverse l with
    | c :: r => if bool_decide (c = "010"%char) then (reverse r, [c]) else (l, [])
    | [] => (l, [])
    end in
  let k := upper_suffix_len body in
  if (2 <=? k)%nat then
    match drop (length body - k) body with
    | c :: rest => take (length body - k) body ++ c :: "_"%char :: rest ++ tl
    | [] => l
    end
  else l.

(** [re.sub(r'([a-z0-9])([A-Z])', r'\1_\2', name)]: a left-to-right scan;
    after a match the scan resumes behind it. *)
Fixpoint sub_lower_upper (l : list ascii) : list ascii :=
  match l with
  | x :: ((y :: r) as t) =>
      if (is_lower x || is_digit x) && is_upper y
      then x :: "_"%char :: y :: sub_lower_upper r
      else x :: sub_lower_upper t
  | _ => l
  end.

(** [re.sub(r'([A-Z])([A-Z][a-z])', r'\1_\2', name)]. *)
Fixpoint sub_upper_upper_lower (l : list ascii) : list ascii :=
  match l with
  | x :: ((y :: z :: r) as t) =>
      if is_upper x && is_upper y && is_lower z
      then x :: "_"%char :: y :: z :: sub_upper_upper_lower r
      else x :: sub_upper_upper_lower t
  | _ => l
  end.

(** [s.replace(a, b)] for one-character [a] and [b]. *)
Definition replace_char (a b : ascii) (l : list ascii) : list ascii :=
  map (fun c => if bool_decide (c = a) then b else c) l.

(** The string branch of [to_snake_case]. *)
Definition snake (s : string) : string :=
  let l := String.list_ascii_of_string s in
  let l := sub_upper_tail l in
  let l := sub_lower_upper l in
  let l := sub_upper_upper_lower l in
  let l := map lower_char l in
  String.string_of_list_ascii
    (replace_char "."%char "_"%char (replace_char "-"%char "_"%char (replace_char " "%char "_"%char l))).

(** A column label: a string, or any other value (kept as is). *)
Inductive label := LStr (s : string) | LOther (z : Z).

Definition to_snake_case (x : label) : label :=
  match x with LStr s => LStr (snake s) | LOther z => LOther z end.

Fixpoint drop_space (l : list ascii) : list ascii :=
  match l with c :: r => if is_space c then drop_space r else l | [] => [] end.

(** [str.strip()]. *)
Definition strip (l : list ascii) : list ascii :=
  reverse (drop_space (reverse (drop_space l))).

(** The cleaning steps of [normalise_dataframe_columns] on one string
    column, before the fallback. *)
Definition clean (s : string) : list ascii :=
  let l := map lower_char (strip (String.list_ascii_of_string s)) in
  let l := replace_char "."%char "_"%char (replace_char "-"%char "_"%char (replace_char " "%char "_"%char l)) in
  let l := List.filter is_word l in
  match l with
  | c :: _ => if is_digit c then "_"%char :: l else l
  | [] => l
  end.

Definition normalise_column (x : label) : label :=
  match x with
  | LStr s =>
      match clean s with
      | [] => LStr (snake s)
      | l => LStr (String.string_of_list_ascii l)
      end
  | LOther z => LOther z
  end.

(** [normalise_dataframe_columns]: the new column labels. *)
Definition normalise_dataframe_columns (cols : list label) : list label :=
  map normalise_column cols.

End Snake.

(* ===================================================================== *)
(** * Form features of a frame of matches ([engineer_form_features]) *)
(* ===================================================================== *)

Module FormEng.
Import Form.
Local Open Scope Z_scope.

(** The [utcDate] value of a row: missing ([pd.isna]: None, NaN, NaT), a
    [pd.Timestamp] (in seconds, as in the history frame), or another value
    (e.g. a string), of which [get_team_form_features] receives
    [str(match_date)]; [UOther p] holds what [pd.to_datetime] makes of that
    text. *)
Inductive udate := UNaT | UTimestamp (t : Z) | UOther (p : date_parse).

(** One row of [processed_matches_df]: the team ids and the [utcDate]
    value. *)
Record pmatch := {
  p_home_team_id : Z;
  p_away_team_id : Z;
  p_utcDate : udate
}.

(** The frame: its rows, and whether the three required columns
    ['home_team_id'], ['away_team_id'] and ['utcDate'] all exist. *)
Record pframe := {
  p_rows : list pmatch;
  p_has_required : bool
}.

(** The 24 feature columns of one row, grouped by (team, venue):
    [home_form_overall_*], [home_form_home_*], [home_form_away_*],
    [away_form_overall_*], [away_form_home_*], [away_form_away_*]. *)
Record match_features := {
  home_form_overall : form;
  home_form_home : form;
  home_form_away : form;
  away_form_overall : form;
  away_form_home : form;
  away_form_away : form
}.

Definition zero_features : match_features :=
  {| home_form_overall := default_form; home_form_home := default_form;
     home_form_away := default_form; away_form_overall := default_form;
     away_form_home := default_form; away_form_away := default_form |}.

(** [pd.to_datetime(match_date.strftime('%Y-%m-%d'))]: midnight of the
    match's day. *)
Definition day_of (t : Z) : Z := t - t mod 86400.

(** [match_date_str] as [get_team_form_features] parses it: the day of a
    [pd.Timestamp] ([strftime('%Y-%m-%d')]), the full value otherwise
    ([str(match_date)]). *)
Definition match_date_parse (u : udate) : option date_parse :=
  match u with
  | UNaT => None
  | UTimestamp t => Some (DateOk (day_of t))
  | UOther p => Some p
  end.

(** The loop body: a missing date gives zeros; otherwise six calls of
    [get_team_form_features] with the parsed [match_date_str] as cutoff. *)
Definition row_features (hist : frame) (num_games : Z) (m : pmatch) : match_features :=
  match match_date_parse (p_utcDate m) with
  | None => zero_features
  | Some p =>
      let md := Some p in
      let h := Some (p_home_team_id m) in
      let a := Some (p_away_team_id m) in
      {| home_form_overall := get_team_form_features h md hist num_games None;
         home_form_home := get_team_form_features h md hist num_games (Some "home"%string);
         home_form_away := get_team_form_features h md hist num_games (Some "away"%string);
         away_form_overall := get_team_form_features a md hist num_games None;
         away_form_home := get_team_form_features a md hist num_games (Some "home"%string);
         away_form_away := get_team_form_features a md hist num_games (Some "away"%string) |}
  end.

(** [engineer_form_features]: [None] when the frame is returned as it is
    (an empty frame, no feature columns), otherwise the feature columns of
    each row; a missing required column sets every feature of every row
    to 0. *)
Definition engineer_form_features (df : pframe) (hist : frame) (num_games : Z)
    : option (list match_features) :=
  match p_rows df with
  | [] => None
  | rows =>
      if negb (p_has_required df) then Some (map (fun _ => zero_features) rows)
      else Some (map (row_features hist num_games) rows)
  end.

End FormEng.

(* ===================================================================== *)
(** * The importers of [database_importer.py] and the source ids of
      [collect_openfootball.py] *)
(* ===================================================================== *)

Module Importer.
Import Kaggle.
Local Open Scope Z_scope.

(** The tables as [database_importer.py] uses them.  Leagues are looked up
    by [(name, sport)], teams by [name] alone ([teams.name] is UNIQUE);
    matches are the table of module [Kaggle], keyed by the UNIQUE
    [(datetime, home_team_id, away_team_id, source)]. *)
Record lrow := { l_id : positive; l_country : option string; l_source : option string }.
Record trow := {
  t_id : positive;
  t_country : option string;
  t_league_id : option positive;
  t_source : option string
}.
Record idb := {
  i_leagues : gmap (string * string) lrow;
  i_teams : gmap string trow;
  i_matches : ktable;
  i_next_league : positive;
  i_next_team : positive
}.

Definition set_i_leagues (db : idb) m : idb :=
  {| i_leagues := m; i_teams := i_teams db; i_matches := i_matches db;
     i_next_league := Pos.succ (i_next_league db); i_next_team := i_next_team db |}.
Definition set_i_teams (db : idb) m : idb :=
  {| i_leagues := i_leagues db; i_teams := m; i_matches := i_matches db;
     i_next_league := i_next_league db; i_next_team := Pos.succ (i_next_team db) |}.
Definition set_i_matches (db : idb) m : idb :=
  {| i_leagues := i_leagues db; i_teams := i_teams db; i_matches := m;
     i_next_league := i_next_league db; i_next_team := i_next_team db |}.

(** [get_or_create_league(conn, league_name, sport, country, source)]: the
    [SELECT] by [(name, sport)], else the [INSERT] and [cursor.lastrowid].
    A [None] name or sport breaks [NOT NULL]; the [IntegrityError] branch
    selects again with [name = NULL], which matches nothing: [None]. *)
Definition get_or_create_league (db : idb) (league_name sport country source : option string)
    : idb * option positive :=
  match league_name, sport with
  | Some n, Some s =>
      match i_leagues db !! (n, s) with
      | Some r => (db, Some (l_id r))
      | None =>
          let id := i_next_league db in
          (set_i_leagues db (<[(n, s) := {| l_id := id; l_country := country; l_source := source |}]>
             (i_leagues db)), Some id)
      end
  | _, _ => (db, None)
  end.

(** [get_or_create_team(conn, team_name, country, league_id, source)]: the
    [SELECT] is by [name] only ([if country: pass]). *)
Definition get_or_create_team (db : idb) (team_name country : option string)
    (league_id : option positive) (source : option string) : idb * option positive :=
  match team_name with
  | Some n =>
      match i_teams db !! n with
      | Some r => (db, Some (t_id r))
      | None =>
          let id := i_next_team db in
          (set_i_teams db (<[n := {| t_id := id; t_country := country; t_league_id := league_id;
                                     t_source := source |}]> (i_teams db)), Some id)
      end
  | None => (db, None)
  end.

(** One row of the Kaggle CSV as the loop reads it: the ['date'] string,
    the team names and the tournament and country ([None] for a missing
    value), and the scores as [int(row[...])] ([None] where [int] raises). *)
Record krow := {
  kr_date : string;
  kr_home_team : option string;
  kr_away_team : option string;
  kr_home_score : option Z;
  kr_away_score : option Z;
  kr_tournament : option string;
  kr_country : option string
}.

Definition league_country_of (tournament country : option string) : option string :=
  match tournament with
  | Some t => if bool_decide (t = "FIFA World Cup"%string) || bool_decide (t = "UEFA Euro"%string)
              then Some "International"%string else country
  | None => country
  end.

Section KaggleLoop.

(** [datetime.strptime(date_str, '%Y-%m-%d').strftime('%Y-%m-%d %H:%M:%S')]:
    [None] where [strptime] raises. *)
Variable parse_date : string -> option string.

(** The body of [for index, row in df.iterrows()], on the database and
    [matches_added].  An exception (date, score) ends the row before any
    write; a failed league or team lookup skips the rest of the row. *)
Definition kaggle_step (acc : idb * nat) (r : krow) : idb * nat :=
  let '(db, added) := acc in
  match parse_date (kr_date r), kr_home_score r, kr_away_score r with
  | Some dt, Some hs, Some as_ =>
      let '(db1, lid) := get_or_create_league db (kr_tournament r) (Some "Football"%string)
                           (league_country_of (kr_tournament r) (kr_country r)) (Some kaggle_source) in
      match lid with
      | None => (db1, added)
      | Some l =>
          let '(db2, hid) := get_or_create_team db1 (kr_home_team r) (kr_home_team r) (Some l) (Some kaggle_source) in
          let '(db3, aid) := get_or_create_team db2 (kr_away_team r) (kr_away_team r) (Some l) (Some kaggle_source) in
          match hid, aid, kr_home_team r, kr_away_team r with
          | Some h, Some a, Some hn, Some an =>
              let smid := String.append kaggle_source (String.append "_" (String.append (kr_date r)
                            (String.append "_" (String.append hn (String.append "_vs_" an))))) in
              let '(t', k) := insert_or_ignore (i_matches db3) (kaggle_row dt h a l hs as_ smid) in
              (set_i_matches db3 t', (added + k)%nat)
          | _, _, _, _ => (db3, added)
          end
      end
  | _, _, _ => (db, added)
  end.

(** [import_kaggle_international_results] once the CSV is read: the new
    database and [(matches_added, 0)]. *)
Definition import_kaggle_international_results (db : idb) (rows : list krow) : idb * (nat * nat) :=
  let '(db', added) := fold_left kaggle_step rows (db, 0%nat) in (db', (added, 0%nat)).

End KaggleLoop.

(** One database extends another: every league, team and match row of the
    first is in the second, unchanged. *)
Definition idb_le (a b : idb) : Prop :=
  i_leagues a ⊆ i_leagues b /\ i_teams a ⊆ i_teams b /\ i_matches a ⊆ i_matches b.

(** The status block of [import_thesportsdb_events], on [status_api]
    ([event.get('strStatus','').upper()]) and the parsed scores [hs], [a_s]:
    the stored status and scores. *)
Definition fin_statuses : list string := ["MATCH FINISHED"; "FT"; "AET"; "PEN"; "FINISHED"]%string.
Definition post_statuses : list string := ["POSTPONED"; "CANCELLED"; "ABANDONED"; "SUSPENDED"]%string.
Definition live_statuses : list string := ["LIVE"; "HT"; "BREAK"]%string.

Definition str_in (s : string) (l : list string) : bool := bool_decide (s ∈ l).

Definition tsdb_status (status_api : string) (hs a_s : option Z) : string * option Z * option Z :=
  if str_in status_api fin_statuses then
    match hs, a_s with
    | Some _, Some _ => ("FINISHED"%string, hs, a_s)
    | _, _ => ("AWAITING_SCORES"%string, hs, a_s)
    end
  else if str_in status_api post_statuses then ("POSTPONED"%string, None, None)
  else if str_in status_api live_statuses then ("LIVE"%string, hs, a_s)
  else if String.eqb status_api "" && (match hs with Some _ => true | None => false end
                                         || match a_s with Some _ => true | None => false end)
  then ("FINISHED"%string, hs, a_s)
  else ("SCHEDULED"%string, None, None).

(** The tables of a freshly created database. *)
Definition idb_empty : idb :=
  {| i_leagues := ∅; i_teams := ∅; i_matches := ∅; i_next_league := 1%positive; i_next_team := 1%positive |}.

End Importer.

Module OpenFootball.

(** [s.replace(' ', '')]. *)
Fixpoint remove_spaces (s : string) : string :=
  match s with
  | EmptyString => EmptyString
  | String c r => if bool_decide (c = " "%char) then remove_spaces r else String c (remove_spaces r)
  end.

(** [s.split(' ')[0]]: the text before the first space. *)
Fixpoint first_word (s : string) : string :=
  match s with
  | EmptyString => EmptyString
  | String c r => if bool_decide (c = " "%char) then EmptyString else String c (first_word r)
  end.

(** The [source_match_id] of [parse_and_store_football_json]:
    [f"ofj_{match_datetime.strftime('%Y%m%d')}_{team1_repr}_{team2_repr}_{league_repr}"],
    with [day] the [%Y%m%d] text and [league_repr] the first word of the
    league name (its [.replace(' ', '')] removes nothing more). *)
Definition source_match_id (day team1 team2 league : string) : string :=
  String.append "ofj_" (String.append day (String.append "_"
    (String.append (remove_spaces team1) (String.append "_"
      (String.append (remove_spaces team2) (String.append "_"
        (remove_spaces (first_word league)))))))).

(** The [match_data.get('score', {}).get('ft')] value: missing or falsy
    ([None], [[]], ...), a non-empty list of cells, or another truthy
    value.  A cell is the value of [int(cell)], [None] where [int] raises
    [ValueError] or [TypeError]. *)
Inductive ft_score := FtMissing | FtList (cells : list (option Z)) | FtOther.

(** The score block of [parse_and_store_football_json]: [home_score],
    [away_score], [winner] and [status]; [future] is
    [match_datetime > datetime.now()]. *)
Definition ofj_score (sd : ft_score) (future : bool)
    : option Z * option Z * option Upsert.winner_t * string :=
  match sd with
  | FtList [Some h; Some a] => (Some h, Some a, Upsert.compute_winner (Some h) (Some a), "FINISHED"%string)
  | FtList [_; _] => (None, None, None, "SCHEDULED"%string)
  | _ => (None, None, None, if future then "SCHEDULED"%string else "UNKNOWN_SCORE"%string)
  end.

End OpenFootball.

(* ===================================================================== *)
(** * Proofs about the team form analytics *)
(* ===================================================================== *)

Module FormProofs.
Import Form.
Local Open Scope Z_scope.

(** The concrete history of the spec's scenario: T10 home 2-1 T11 on day 1,
    T11 home 1-2 T10 on day 2, T10 home 0-0 T12 on day 3. *)
Example scenario_check :
  get_team_form_features (Some 10) (Some (DateOk 4)) scenario_history 5 None
  = {| form_W := 2; form_D := 1; form_L := 0; form_games_played := 3 |}.
Proof. reflexivity. Qed.

(** ** Sorting *)

Lemma ts_ge_total a b : ts_ge a b = false -> ts_ge b a = true.
Proof.
  destruct a as [x|], b as [y|]; simpl; try done.
  intros H. apply Z.leb_gt in H. apply Z.leb_le. lia.
Qed.

Lemma insert_desc_perm r l : insert_desc r l ≡ₚ r :: l.
Proof.
  induction l as [|x l IH]; simpl; [done|].
  destruct (ts_ge _ _); [done|].
  rewrite IH. constructor.
Qed.

Lemma sort_desc_perm l : sort_desc l ≡ₚ l.
Proof.
  induction l as [|r l IH]; simpl; [done|].
  by rewrite insert_desc_perm, IH.
Qed.

Lemma insert_desc_hd x r l :
  HdRel desc_rel x l -> desc_rel x r -> HdRel desc_rel x (insert_desc r l).
Proof.
  intros H Hr. destruct l as [|y l]; simpl.
  - by constructor.
  - destruct (ts_ge _ _); constructor; [done|]. by inversion H.
Qed.

Lemma insert_desc_sorted r l :
  Sorted desc_rel l -> Sorted desc_rel (insert_desc r l).
Proof.
  induction 1 as [|x l Hs IH Hhd]; simpl.
  - repeat constructor.
  - destruct (ts_ge (h_utcDate r) (h_utcDate x)) eqn:E.
    + constructor; [by constructor | by constructor].
    + constructor; [done|]. apply insert_desc_hd; [done|].
      unfold desc_rel. by apply ts_ge_total.
Qed.

Lemma sort_desc_sorted l : Sorted desc_rel (sort_desc l).
Proof.
  induction l as [|r l IH]; simpl; [constructor|].
  by apply insert_desc_sorted.
Qed.

(** ** The loop as a sum of per-row increments *)

(** Close an equation between accumulator tuples componentwise. *)
Ltac solve_tuple :=
  repeat match goal with |- (_, _) = (_, _) => f_equal end; lia.

Lemma add4_assoc a b c : add4 (add4 a b) c = add4 a (add4 b c).
Proof.
  destruct a as [[[a1 a2] a3] a4], b as [[[b1 b2] b3] b4], c as [[[c1 c2] c3] c4].
  simpl. solve_tuple.
Qed.

Lemma classify_row_shift t a r : classify_row t a r = add4 a (row_delta t r).
Proof.
  destruct a as [[[w d] l] gp]. unfold row_delta, classify_row.
  destruct (h_home_team_score r), (h_away_team_score r);
    repeat case_match; simpl; solve_tuple.
Qed.

Lemma fold_classify t rows a :
  fold_left (classify_row t) rows a = add4 a (sum_delta t rows).
Proof.
  revert a; induction rows as [|r rows IH]; intros a; simpl.
  - destruct a as [[[w d] l] gp]. simpl. solve_tuple.
  - by rewrite IH, classify_row_shift, add4_assoc.
Qed.

Lemma sum_delta_cons t r rows :
  sum_delta t (r :: rows) = add4 (row_delta t r) (sum_delta t rows).
Proof. reflexivity. Qed.

Definition corrupt_count (rows : list hist_row) : nat :=
  length (List.filter (fun r => negb (is_scored r)) rows).

Lemma sum_delta_spec t rows :
  Forall (fun r => involves t r = true) rows ->
  let '(w, d, l, g) := sum_delta t rows in
  0 <= w /\ 0 <= d /\ 0 <= l /\
  g = - Z.of_nat (corrupt_count rows) /\
  w + d + l = Z.of_nat (length rows) - Z.of_nat (corrupt_count rows).
Proof.
  unfold corrupt_count.
  induction 1 as [|r rows Hr Hall IH]; [simpl; lia|].
  rewrite sum_delta_cons. revert IH.
  destruct (sum_delta t rows) as [[[w d] l] g]. intros IH.
  simpl List.filter.
  unfold row_delta, classify_row, is_scored, involves in *.
  destruct (h_home_team_score r), (h_away_team_score r); simpl;
    repeat case_match; simplify_eq/=; lia.
Qed.

(** Scoring rows only changes the win/draw/loss part of the sum. *)
Lemma sum_delta_scored t rows :
  let '(w, d, l, _) := sum_delta t rows in
  let '(w', d', l', g') := sum_delta t (List.filter is_scored rows) in
  w = w' /\ d = d' /\ l = l' /\ g' = 0.
Proof.
  induction rows as [|r rows IH]; [simpl; lia|].
  rewrite sum_delta_cons. simpl List.filter. revert IH.
  destruct (is_scored r) eqn:Hsc; [rewrite sum_delta_cons|];
  destruct (sum_delta t rows) as [[[w d] l] g];
  destruct (sum_delta t (List.filter is_scored rows)) as [[[w' d'] l'] g'];
  intros IH; unfold is_scored, row_delta, classify_row in *;
  destruct (h_home_team_score r), (h_away_team_score r); try discriminate;
    simpl; repeat case_match; simplify_eq/=; lia.
Qed.

Lemma count_outcomes_spec t rows :
  Forall (fun r => involves t r = true) rows ->
  let f := count_outcomes t rows in
  form_W f + form_D f + form_L f = form_games_played f /\
  0 <= form_W f /\ 0 <= form_D f /\ 0 <= form_L f /\
  form_games_played f = Z.of_nat (length rows) - Z.of_nat (corrupt_count rows) /\
  0 <= form_games_played f <= Z.of_nat (length rows).
Proof.
  intros Hall. unfold count_outcomes. rewrite fold_classify.
  pose proof (sum_delta_spec t rows Hall) as Hs.
  assert (corrupt_count rows <= length rows)%nat.
  { unfold corrupt_count. apply List.filter_length_le. }
  destruct (sum_delta t rows) as [[[w d] l] g]. simpl. lia.
Qed.

Lemma corrupt_count_scored rows :
  Forall (fun r => is_scored r = true) rows -> corrupt_count rows = 0%nat.
Proof.
  unfold corrupt_count. induction 1 as [|r l Hr Hl IH]; [done|].
  simpl List.filter. rewrite Hr. exact IH.
Qed.

Lemma count_outcomes_nil t : count_outcomes t [] = default_form.
Proof. reflexivity. Qed.

Lemma Forall_head (P : hist_row -> Prop) n l : Forall P l -> Forall P (head n l).
Proof. intros H. unfold head. case_match; by apply Forall_take. Qed.

Lemma length_head n l : 0 <= n -> Z.of_nat (length (head n l)) <= n.
Proof.
  intros Hn. unfold head. case_match; [|lia].
  rewrite length_take. lia.
Qed.


(** ** The selected window *)

Lemma head_nil n : head n [] = [].
Proof. unfold head. case_match; by rewrite firstn_nil. Qed.

Lemma head_take n l : 0 <= n -> head n l = take (Z.to_nat n) l.
Proof. intros Hn. unfold head. case_match; [done | lia]. Qed.

Lemma filter_nat t v rows :
  List.filter (team_filter t None v) rows = [].
Proof.
  induction rows as [|r rows IH]; [done|]. simpl.
  unfold team_filter, base_filter, ts_lt.
  destruct (h_utcDate r); rewrite ?andb_false_r; simpl; by rewrite ?andb_false_r.
Qed.

Lemma window_involves t cur v n rows :
  Forall (fun r => involves t r = true)
    (head n (sort_desc (List.filter (team_filter t cur v) rows))).
Proof.
  apply Forall_head. apply Forall_forall. intros r Hin.
  rewrite sort_desc_perm, list_elem_of_In, filter_In in Hin.
  destruct Hin as [_ H].
  unfold team_filter, base_filter in H. rewrite !andb_true_iff in H.
  unfold involves. tauto.
Qed.

(** For a valid team id and cutoff, the function is the loop over the head of
    the descending sort of the filtered rows. *)
Lemma get_team_form_features_eq t cur df n v :
  df_has_utcDate df = true ->
  get_team_form_features (Some t) (Some (DateOk cur)) df n v =
  count_outcomes t
    (head n (sort_desc (List.filter (team_filter t (Some cur) v) (df_rows df)))).
Proof.
  intros Hu. unfold get_team_form_features.
  destruct (df_rows df) as [|r0 rows]; [by rewrite head_nil|].
  rewrite Hu. simpl negb. cbv iota beta.
  destruct (List.filter _ (r0 :: rows)) as [|r1 rest] eqn:F;
    [by rewrite head_nil|].
  rewrite <- F.
  destruct (Z.of_nat (length (head n (sort_desc (List.filter _ (r0 :: rows))))) =? 0)
    eqn:L; [|done].
  apply Z.eqb_eq in L. destruct (head n _); [done | simpl in L; lia].
Qed.

(** Every result is the default or the loop over such a window. *)
Lemma get_team_form_features_shape tid md df n v :
  get_team_form_features tid md df n v = default_form \/
  exists t cur,
    get_team_form_features tid md df n v =
    count_outcomes t (head n (sort_desc (List.filter (team_filter t cur v) (df_rows df)))).
Proof.
  unfold get_team_form_features.
  destruct (df_rows df) as [|r0 rows]; [by left|].
  destruct tid as [t|]; [|by left]. destruct md as [md|]; [|by left].
  destruct md as [c| |]; [| |by left];
    (destruct (df_has_utcDate df); [|by left]); simpl negb; cbv iota beta;
    (destruct (List.filter _ (r0 :: rows)) as [|r1 rest] eqn:F; [by left|]);
    rewrite <- F;
    (case_match; [by left|]); right; eauto.
Qed.

(** ** Claims *)

(** C4: for a valid team id and cutoff and a non-negative window size, the
    result is the win/draw/loss loop over the first [window_size] rows of a
    descending-by-timestamp ordering of exactly the rows where the team is
    home or away (home only under venue 'home', away only under 'away') with a
    timestamp strictly before the cutoff; when all these rows are scored,
    [games_considered] is [min(window_size, #rows)].  On the spec's scenario
    the result is 2 wins, 1 draw, 0 losses, 3 games. *)
Theorem team_form_window (t cur : Z) (df : frame) (n : Z) (v : option string) :
  df_has_utcDate df = true -> 0 <= n ->
  let E := List.filter (team_filter t (Some cur) v) (df_rows df) in
  (exists srt : list hist_row,
     srt ≡ₚ E /\ Sorted desc_rel srt /\
     get_team_form_features (Some t) (Some (DateOk cur)) df n v =
       count_outcomes t (take (Z.to_nat n) srt)) /\
  (Forall (fun r => is_scored r = true) E ->
     form_games_played (get_team_form_features (Some t) (Some (DateOk cur)) df n v)
     = Z.min n (Z.of_nat (length E))) /\
  get_team_form_features (Some 10) (Some (DateOk 4)) scenario_history 5 None
  = {| form_W := 2; form_D := 1; form_L := 0; form_games_played := 3 |}.
Proof.
  intros Hu Hn E.
  rewrite (get_team_form_features_eq _ _ _ _ _ Hu), (head_take _ _ Hn). fold E.
  split; [|split; [|reflexivity]].
  - exists (sort_desc E). split; [apply sort_desc_perm|]. split; [apply sort_desc_sorted|done].
  - intros Hsc.
    pose proof (window_involves t (Some cur) v n (df_rows df)) as Hinv.
    rewrite (head_take _ _ Hn) in Hinv. fold E in Hinv.
    destruct (count_outcomes_spec _ _ Hinv) as (_ & _ & _ & _ & Hgp & _).
    rewrite Hgp.
    assert (corrupt_count (take (Z.to_nat n) (sort_desc E)) = 0%nat) as ->.
    { apply corrupt_count_scored.
      apply Forall_take. apply Forall_forall. intros r Hr.
      rewrite sort_desc_perm in Hr.
      by apply (proj1 (Forall_forall _ _) Hsc). }
    rewrite length_take, (Permutation_length (sort_desc_perm E)). lia.
Qed.

Lemma team_form_window_witness :
  df_has_utcDate scenario_history = true /\ 0 <= 5 /\
  get_team_form_features (Some 10) (Some (DateOk 4)) scenario_history 5 None
  = {| form_W := 2; form_D := 1; form_L := 0; form_games_played := 3 |}.
Proof.
  split; [reflexivity|]. split; [lia|].
  exact (proj2 (proj2 (team_form_window 10 4 scenario_history 5 None eq_refl
                         ltac:(lia)))).
Defined.

(** C7: a selected row with a missing or non-numeric score is not counted:
    [games_considered] is [min(window_size, #eligible rows)] minus the number
    [k] of such rows in the window (no older row takes its place), and the
    win/draw/loss counts are those of the window's scored rows alone. *)
Theorem team_form_corrupt_rows (t cur : Z) (df : frame) (n : Z) (v : option string) :
  df_has_utcDate df = true -> 0 <= n ->
  let E := List.filter (team_filter t (Some cur) v) (df_rows df) in
  let window := take (Z.to_nat n) (sort_desc E) in
  let f := get_team_form_features (Some t) (Some (DateOk cur)) df n v in
  let g := count_outcomes t (List.filter is_scored window) in
  form_games_played f = Z.min n (Z.of_nat (length E)) - Z.of_nat (corrupt_count window) /\
  form_W f = form_W g /\ form_D f = form_D g /\ form_L f = form_L g.
Proof.
  intros Hu Hn E window f g.
  unfold f. rewrite (get_team_form_features_eq _ _ _ _ _ Hu), (head_take _ _ Hn).
  fold E. fold window.
  pose proof (window_involves t (Some cur) v n (df_rows df)) as Hinv.
  rewrite (head_take _ _ Hn) in Hinv. fold E window in Hinv.
  destruct (count_outcomes_spec _ _ Hinv) as (_ & _ & _ & _ & Hgp & _).
  split.
  - rewrite Hgp. unfold window. rewrite length_take, (Permutation_length (sort_desc_perm E)). lia.
  - unfold g, count_outcomes. rewrite !fold_classify.
    pose proof (sum_delta_scored t window) as Hs.
    destruct (sum_delta t window) as [[[w d] l] x].
    destruct (sum_delta t (List.filter is_scored window)) as [[[w' d'] l'] x'].
    simpl. lia.
Qed.

Lemma team_form_corrupt_rows_witness :
  df_has_utcDate scenario_history_corrupt = true /\ 0 <= 5 /\
  form_games_played
    (get_team_form_features (Some 10) (Some (DateOk 4)) scenario_history_corrupt 5 None)
  = 2.
Proof.
  split; [reflexivity|]. split; [lia|].
  rewrite (proj1 (team_form_corrupt_rows 10 4 scenario_history_corrupt 5 None
                    eq_refl ltac:(lia))).
  vm_compute. reflexivity.
Defined.

(** C8: a null team id, a null, unparseable or NaT cutoff, or an empty
    history yields the all-zero result. *)
Theorem team_form_invalid_inputs (tid : option Z) (md : option date_parse)
    (df : frame) (n : Z) (v : option string) :
  tid = None \/ md = None \/ md = Some DateInvalid \/ md = Some DateNaT \/
  df_rows df = [] ->
  get_team_form_features tid md df n v = default_form.
Proof.
  intros H. unfold get_team_form_features.
  destruct (df_rows df) as [|r0 rows] eqn:Hrows; [done|].
  destruct tid as [t|]; [|done]. destruct md as [md|]; [|done].
  destruct md as [c| |]; [| |done].
  - exfalso. destruct H as [H|[H|[H|[H|H]]]]; congruence.
  - destruct (df_has_utcDate df); [|done]. simpl negb. cbv iota beta zeta.
    by rewrite filter_nat.
Qed.

Lemma team_form_invalid_inputs_witness :
  (@None Z = None \/ Some (DateOk 4) = None \/ Some (DateOk 4) = Some DateInvalid \/
   Some (DateOk 4) = Some DateNaT \/ df_rows scenario_history = []) /\
  get_team_form_features None (Some (DateOk 4)) scenario_history 5 None = default_form.
Proof.
  split; [left; reflexivity|].
  apply team_form_invalid_inputs. left. reflexivity.
Defined.

(** C10 (amended): every result has [wins + draws + losses =
    games_considered], all four non-negative, and [games_considered <=
    window_size] whenever [window_size >= 0]. *)
Theorem team_form_counts_consistent (tid : option Z) (md : option date_parse)
    (df : frame) (n : Z) (v : option string) :
  let f := get_team_form_features tid md df n v in
  form_W f + form_D f + form_L f = form_games_played f /\
  0 <= form_W f /\ 0 <= form_D f /\ 0 <= form_L f /\ 0 <= form_games_played f /\
  (0 <= n -> form_games_played f <= n).
Proof.
  intros f. unfold f.
  destruct (get_team_form_features_shape tid md df n v) as [->|(t & cur & ->)].
  - simpl. lia.
  - pose proof (window_involves t cur v n (df_rows df)) as Hinv.
    destruct (count_outcomes_spec _ _ Hinv) as (Hsum & Hw & Hd & Hl & _ & Hgp0 & Hgp1).
    repeat split; try lia.
    intros Hn. pose proof (length_head n
      (sort_desc (List.filter (team_filter t cur v) (df_rows df))) Hn). lia.
Qed.

(** C10 counterexample: with [window_size = -1], [head(-1)] keeps all rows
    but the last, and [games_considered = 2 > -1]. *)
Lemma team_form_negative_window :
  let f := get_team_form_features (Some 10) (Some (DateOk 4)) scenario_history (-1) None in
  form_games_played f = 2 /\ ~ (form_games_played f <= -1).
Proof.
  assert (E : form_games_played (get_team_form_features (Some 10) (Some (DateOk 4))
                                   scenario_history (-1) None) = 2)
    by (vm_compute; reflexivity).
  cbv zeta. rewrite E. split; [reflexivity | lia].
Qed.

End FormProofs.

(* ===================================================================== *)
(** * Proofs about the match upsert engine *)
(* ===================================================================== *)

Module UpsertProofs.
Import Upsert.

(** ** Entity resolution *)

Lemma entity_table_set et st m : entity_table et (set_entity_table et st m) = m.
Proof. destruct et; reflexivity. Qed.

Lemma entity_table_bump et st : entity_table et (bump_entity_id et st) = entity_table et st.
Proof. destruct et; reflexivity. Qed.

Lemma resolve_entity_found et st n sp sid cty row :
  entity_table et st !! (n, sp) = Some row ->
  resolve_entity et st n sp sid cty =
  (if truthy sid && negb (bool_decide (ent_source_id row = sid))
   then set_entity_table et st (<[(n, sp) := set_source_id row sid]> (entity_table et st))
   else st,
   ent_id row).
Proof. intros H. unfold resolve_entity. rewrite H. reflexivity. Qed.

Lemma resolve_entity_lookup et st n sp sid cty :
  exists row, entity_table et (fst (resolve_entity et st n sp sid cty)) !! (n, sp) = Some row /\
    ent_id row = snd (resolve_entity et st n sp sid cty) /\
    (truthy sid = true -> ent_source_id row = sid).
Proof.
  unfold resolve_entity. destruct (entity_table et st !! (n, sp)) as [row|] eqn:Hl; simpl.
  - destruct (truthy sid && negb (bool_decide (ent_source_id row = sid))) eqn:Hc; simpl.
    + eexists. rewrite entity_table_set, lookup_insert_eq. split; [reflexivity|].
      split; reflexivity.
    + exists row. rewrite Hl. split; [reflexivity|]. split; [reflexivity|].
      intros Ht. rewrite Ht in Hc. simpl in Hc.
      apply negb_false_iff, bool_decide_eq_true in Hc. exact Hc.
  - eexists. rewrite entity_table_bump, entity_table_set, lookup_insert_eq.
    split; [reflexivity|]. split; reflexivity.
Qed.

(** With every commit succeeding, [_get_or_create_entity_id] on a valid
    name is the SQL part followed by a successful commit. *)
Lemma get_or_create_ok commit_ok (Hok : forall s, commit_ok s = true) c et n sp sid cty :
  String.eqb n "" = false -> String.eqb sp "" = false ->
  get_or_create_entity_id commit_ok c et (Some n) sp sid cty =
  ({| db := fst (resolve_entity et (db c) n sp sid cty);
      durable := fst (resolve_entity et (db c) n sp sid cty);
      commit_log := commit_log c ++ [true] |},
   Some (snd (resolve_entity et (db c) n sp sid cty))).
Proof.
  intros Hn Hs. unfold get_or_create_entity_id. rewrite Hn, Hs. simpl.
  destruct (resolve_entity et (db c) n sp sid cty) as [st' id]. simpl.
  unfold commit. simpl. rewrite Hok. reflexivity.
Qed.

(** The fallback resolver: a present key is returned unchanged. *)
Lemma resolve_entity_fb_found et st n sp sid cty row :
  entity_table et st !! (n, sp) = Some row ->
  resolve_entity_fb et st n sp sid cty = (st, ent_id row).
Proof. intros H. unfold resolve_entity_fb. rewrite H. reflexivity. Qed.

Lemma resolve_entity_fb_lookup et st n sp sid cty :
  exists row, entity_table et (fst (resolve_entity_fb et st n sp sid cty)) !! (n, sp) = Some row /\
    ent_id row = snd (resolve_entity_fb et st n sp sid cty).
Proof.
  unfold resolve_entity_fb. destruct (entity_table et st !! (n, sp)) as [row|] eqn:Hl; simpl.
  - exists row. auto.
  - eexists. rewrite entity_table_bump, entity_table_set, lookup_insert_eq. auto.
Qed.

Lemma get_or_create_fb_ok commit_ok (Hok : forall s, commit_ok s = true) c et n sp sid cty :
  String.eqb n "" = false -> String.eqb sp "" = false ->
  get_or_create_entity_id_fb commit_ok c et (Some n) sp sid cty =
  ({| db := fst (resolve_entity_fb et (db c) n sp sid cty);
      durable := fst (resolve_entity_fb et (db c) n sp sid cty);
      commit_log := commit_log c ++ [true] |},
   Some (snd (resolve_entity_fb et (db c) n sp sid cty))).
Proof.
  intros Hn Hs. unfold get_or_create_entity_id_fb. rewrite Hn, Hs. simpl.
  destruct (resolve_entity_fb et (db c) n sp sid cty) as [st' id]. simpl.
  unfold commit. simpl. rewrite Hok. reflexivity.
Qed.

(** ** Frame lemmas: which tables each part of the loop body writes *)

Lemma resolve_team_frame st n sp sid cty (st' := fst (resolve_entity_fb Team st n sp sid cty)) :
  leagues st' = leagues st /\ matches st' = matches st /\ odds st' = odds st /\
  next_league_id st' = next_league_id st /\ next_match_id st' = next_match_id st /\
  next_odd_id st' = next_odd_id st.
Proof.
  subst st'. unfold resolve_entity_fb. simpl.
  destruct (teams st !! (n, sp)); repeat split.
Qed.

Lemma upsert_match_frame st k f (st' := fst (fst (fst (upsert_match st k f)))) :
  leagues st' = leagues st /\ teams st' = teams st /\ odds st' = odds st /\
  next_league_id st' = next_league_id st /\ next_team_id st' = next_team_id st /\
  next_odd_id st' = next_odd_id st.
Proof.
  subst st'. unfold upsert_match.
  destruct (matches st !! k); [destruct (needs_update _ _)|]; repeat split.
Qed.

Lemma upsert_odds_frame st mid ts od (st' := fst (fst (upsert_odds st mid ts od))) :
  leagues st' = leagues st /\ teams st' = teams st /\ matches st' = matches st /\
  next_league_id st' = next_league_id st /\ next_team_id st' = next_team_id st /\
  next_match_id st' = next_match_id st.
Proof.
  subst st'. unfold upsert_odds.
  repeat (case_match; simpl; try (repeat split; fail)).
Qed.

Lemma get_or_create_fb_invalid commit_ok c et n sp sid cty :
  String.eqb sp "" = true ->
  get_or_create_entity_id_fb commit_ok c et (Some n) sp sid cty = (c, None).
Proof.
  intros Hs. unfold get_or_create_entity_id_fb. rewrite Hs, orb_true_r. reflexivity.
Qed.

Lemma add_counts_zero cnt : add_counts cnt 0 0 0 0 = cnt.
Proof. destruct cnt. unfold add_counts. simpl. rewrite !Nat.add_0_r. reflexivity. Qed.

Lemma add_delta_zero cnt : add_delta cnt (0, 0, 0, 0) = cnt.
Proof. apply add_counts_zero. Qed.

Ltac skip_tac :=
  cbn -[get_or_create_entity_id_fb]; rewrite ?andb_false_r, ?orb_true_r;
  cbn -[get_or_create_entity_id_fb];
  rewrite ?add_delta_zero, ?add_counts_zero; auto.

(** With every commit succeeding, the loop body acts on the working state
    as [match_step]. *)
Lemma process_match_ok commit_ok (Hok : forall s, commit_ok s = true) l sport c cnt md :
  db (fst (process_match commit_ok l sport (c, cnt) md)) = fst (match_step l sport (db c) md) /\
  snd (process_match commit_ok l sport (c, cnt) md) = add_delta cnt (snd (match_step l sport (db c) md)).
Proof.
  unfold process_match, match_step, active, hname, aname.
  destruct (ta_name (homeTeam md)) as [hn|]; [|skip_tac].
  destruct (ta_name (awayTeam md)) as [an|]; [|skip_tac].
  unfold truthy.
  destruct (String.eqb hn "") eqn:Ehn; [skip_tac|].
  destruct (String.eqb an "") eqn:Ean; [skip_tac|].
  destruct (String.eqb sport "") eqn:Es.
  - cbn -[get_or_create_entity_id_fb].
    rewrite !get_or_create_fb_invalid by exact Es. cbn. rewrite add_counts_zero. auto.
  - cbn -[get_or_create_entity_id_fb resolve_entity_fb upsert_match upsert_odds].
    rewrite (get_or_create_fb_ok _ Hok) by assumption.
    rewrite (get_or_create_fb_ok _ Hok) by assumption.
    cbn -[resolve_entity_fb upsert_match upsert_odds].
    destruct (resolve_entity_fb Team (db c) hn sport _ None) as [sth h].
    cbn -[resolve_entity_fb upsert_match upsert_odds].
    destruct (resolve_entity_fb Team sth an sport _ None) as [sta a].
    cbn -[resolve_entity_fb upsert_match upsert_odds].
    destruct (upsert_match sta _ _) as [[[st1 mid] im] um].
    destruct (upsert_odds st1 mid _ _) as [[st2 io] uo].
    split; reflexivity.
Qed.

(** ** Ids persist *)

Lemma tpersist_refl S : tpersist S S.
Proof. intros k r H. exists r. auto. Qed.
Lemma mpersist_refl S : mpersist S S.
Proof. intros k r H. exists r. auto. Qed.
Lemma opersist_refl S : opersist S S.
Proof. intros k r H. exists r. auto. Qed.

Lemma tpersist_trans S T U : tpersist S T -> tpersist T U -> tpersist S U.
Proof.
  intros H1 H2 k r Hk. destruct (H1 k r Hk) as (r1 & Hr1 & E1).
  destruct (H2 k r1 Hr1) as (r2 & Hr2 & E2). exists r2. split; congruence.
Qed.
Lemma mpersist_trans S T U : mpersist S T -> mpersist T U -> mpersist S U.
Proof.
  intros H1 H2 k r Hk. destruct (H1 k r Hk) as (r1 & Hr1 & E1).
  destruct (H2 k r1 Hr1) as (r2 & Hr2 & E2). exists r2. split; congruence.
Qed.
Lemma opersist_trans S T U : opersist S T -> opersist T U -> opersist S U.
Proof.
  intros H1 H2 k r Hk. destruct (H1 k r Hk) as (r1 & Hr1 & E1).
  destruct (H2 k r1 Hr1) as (r2 & Hr2 & E2). exists r2. split; congruence.
Qed.

Lemma persists_refl S : persists S S.
Proof. split; [apply tpersist_refl | split; [apply mpersist_refl | apply opersist_refl]]. Qed.

Lemma persists_trans S T U : persists S T -> persists T U -> persists S U.
Proof.
  intros (H1 & H2 & H3) (H4 & H5 & H6). split; [|split].
  - eapply tpersist_trans; eauto.
  - eapply mpersist_trans; eauto.
  - eapply opersist_trans; eauto.
Qed.

Lemma tpersist_same_teams S T : teams T = teams S -> tpersist S T.
Proof. intros E k r H. exists r. rewrite E. auto. Qed.
Lemma mpersist_same_matches S T : matches T = matches S -> mpersist S T.
Proof. intros E k r H. exists r. rewrite E. auto. Qed.
Lemma opersist_same_odds S T : odds T = odds S -> opersist S T.
Proof. intros E k r H. exists r. rewrite E. auto. Qed.

Lemma resolve_team_tpersist st n sp sid cty :
  tpersist st (fst (resolve_entity_fb Team st n sp sid cty)).
Proof.
  intros k r Hk. unfold resolve_entity_fb. simpl.
  destruct (teams st !! (n, sp)) as [row|] eqn:Hl.
  - exists r. auto.
  - simpl. rewrite lookup_insert. destruct (decide ((n, sp) = k)) as [<-|].
    + congruence.
    + exists r. auto.
Qed.

Lemma resolve_team_persists st n sp sid cty :
  persists st (fst (resolve_entity_fb Team st n sp sid cty)).
Proof.
  destruct (resolve_team_frame st n sp sid cty) as (_ & Hm & Ho & _).
  split; [apply resolve_team_tpersist|].
  split; [apply mpersist_same_matches | apply opersist_same_odds]; assumption.
Qed.

Lemma upsert_match_persists st k f : persists st (fst (fst (fst (upsert_match st k f)))).
Proof.
  destruct (upsert_match_frame st k f) as (_ & Ht & Ho & _).
  split; [apply tpersist_same_teams; assumption|].
  split; [|apply opersist_same_odds; assumption].
  intros k' r Hk. unfold upsert_match.
  destruct (matches st !! k) as [row|] eqn:Hl.
  - destruct (needs_update row f); simpl; [|exists r; auto].
    rewrite lookup_insert. destruct (decide (k = k')) as [<-|].
    + rewrite Hl in Hk. injection Hk as <-. eexists. split; reflexivity.
    + exists r. auto.
  - simpl. rewrite lookup_insert. destruct (decide (k = k')) as [<-|].
    + congruence.
    + exists r. auto.
Qed.

Lemma upsert_odds_persists st mid ts od : persists st (fst (fst (upsert_odds st mid ts od))).
Proof.
  destruct (upsert_odds_frame st mid ts od) as (_ & Ht & Hm & _).
  split; [apply tpersist_same_teams; assumption|].
  split; [apply mpersist_same_matches; assumption|].
  intros k r Hk. unfold upsert_odds.
  repeat case_match; simpl; try (exists r; split; [assumption | reflexivity]).
  all: rewrite lookup_insert; destruct (decide (odds_key mid = k)) as [<-|]; [|exists r; auto].
  all: first [congruence | eexists; split; [reflexivity | simpl; congruence]].
Qed.

Lemma tid_of_persist S T k r : tpersist S T -> teams S !! k = Some r -> tid T k = ent_id r.
Proof. intros H Hk. destruct (H k r Hk) as (r' & Hr' & E). unfold tid. rewrite Hr'. exact E. Qed.

Lemma mid_of_persist S T k r : mpersist S T -> matches S !! k = Some r -> mid_of T k = match_id r.
Proof. intros H Hk. destruct (H k r Hk) as (r' & Hr' & E). unfold mid_of. rewrite Hr'. exact E. Qed.

Lemma oid_of_persist S T k r : opersist S T -> odds S !! k = Some r -> oid T k = odd_id r.
Proof. intros H Hk. destruct (H k r Hk) as (r' & Hr' & E). unfold oid. rewrite Hr'. exact E. Qed.

(** ** The update path of the loop body *)

Lemma match_step_update_path l sport S md r :
  active sport md = true ->
  matches S !! match_key md = Some r ->
  mutable_key (m_fields r) <> (status md, ft_home md, ft_away md, utcDate md) ->
  exists S' io uo th ta,
    match_step l sport S md = (S', (0, 1, io, uo)) /\
    teams S' !! (hname md, sport) = Some th /\ teams S' !! (aname md, sport) = Some ta /\
    matches S' = <[match_key md := update_match_row r (match_fields_of l (ent_id th) (ent_id ta) md)]>
                   (matches S).
Proof.
  intros Hact Hm Hne. unfold match_step. rewrite Hact.
  destruct (resolve_entity_fb_lookup Team S (hname md) sport (team_source_id (homeTeam md)) None)
    as (rowh & Hrh & Hidh).
  destruct (resolve_team_frame S (hname md) sport (team_source_id (homeTeam md)) None)
    as (_ & Hmh & _).
  destruct (resolve_entity_fb Team S (hname md) sport _ None) as [sth h] eqn:Eh.
  cbn [entity_table fst snd] in Hrh, Hidh, Hmh.
  destruct (resolve_entity_fb_lookup Team sth (aname md) sport (team_source_id (awayTeam md)) None)
    as (rowa & Hra & Hida).
  destruct (resolve_team_frame sth (aname md) sport (team_source_id (awayTeam md)) None)
    as (_ & Hma & _).
  destruct (resolve_team_tpersist sth (aname md) sport (team_source_id (awayTeam md)) None
              (hname md, sport) rowh Hrh) as (rowh' & Hrh' & Eidh).
  destruct (resolve_entity_fb Team sth (aname md) sport _ None) as [sta a] eqn:Ea.
  cbn [entity_table fst snd] in Hra, Hida, Hma, Hrh'.
  assert (Hms : matches sta !! match_key md = Some r) by (rewrite Hma, Hmh; exact Hm).
  unfold upsert_match. rewrite Hms.
  assert (Hnu : needs_update r (match_fields_of l h a md) = true).
  { unfold needs_update. rewrite bool_decide_eq_false_2; [reflexivity|]. exact Hne. }
  rewrite Hnu. cbn -[upsert_odds].
  destruct (upsert_odds_frame
              (set_matches sta (<[match_key md := update_match_row r (match_fields_of l h a md)]>
                                  (matches sta))) (match_id r) (utcDate md) (m_odds md))
    as (_ & Hto & Hmo & _).
  destruct (upsert_odds _ (match_id r) (utcDate md) (m_odds md)) as [[st2 io] uo].
  cbn [fst snd teams matches set_matches] in Hto, Hmo.
  exists st2, io, uo, rowh', rowa. split; [reflexivity|].
  rewrite Hto. split; [exact Hrh'|]. split; [exact Hra|].
  rewrite Hmo, Hma, Hmh, Eidh, Hidh, Hida. reflexivity.
Qed.

(** ** Claims *)

(** C2 (amended): in [process_and_store_matches], a record whose key
    [(source_match_id, source_name)] is already stored with a different
    status, score or kickoff (and whose commits succeed) updates that row in
    place: same [match_id], the record's scores and the winner computed from
    them; [updated_matches] grows by one, [inserted_matches] does not, and
    the number of match rows is unchanged. *)
Theorem update_not_duplicate commit_ok (Hok : forall s, commit_ok s = true) l sport c cnt md r :
  active sport md = true ->
  matches (db c) !! match_key md = Some r ->
  mutable_key (m_fields r) <> (status md, ft_home md, ft_away md, utcDate md) ->
  let '(c', cnt') := process_match commit_ok l sport (c, cnt) md in
  n_upd_m cnt' = S (n_upd_m cnt) /\ n_ins_m cnt' = n_ins_m cnt /\
  size (matches (db c')) = size (matches (db c)) /\
  exists r', matches (db c') !! match_key md = Some r' /\ match_id r' = match_id r /\
    f_home_score (m_fields r') = ft_home md /\ f_away_score (m_fields r') = ft_away md /\
    f_winner (m_fields r') = compute_winner (ft_home md) (ft_away md).
Proof.
  intros Hact Hm Hne.
  destruct (process_match_ok commit_ok Hok l sport c cnt md) as [Hdb Hcnt].
  destruct (match_step_update_path l sport (db c) md r Hact Hm Hne)
    as (S' & io & uo & th & ta & Hs & _ & _ & HmS).
  destruct (process_match commit_ok l sport (c, cnt) md) as [c' cnt'].
  rewrite Hs in Hdb, Hcnt. cbn [fst snd add_delta] in Hdb, Hcnt. subst cnt'.
  rewrite Hdb, HmS. cbn [n_upd_m n_ins_m add_counts]. split; [lia|]. split; [lia|]. split.
  - apply map_size_insert_Some. rewrite Hm. eauto.
  - eexists. rewrite lookup_insert_eq. split; [reflexivity|]. cbn. auto.
Qed.

Lemma update_not_duplicate_witness :
  let '(c', cnt') := process_match always_ok 1 "football" (conn_sched, zero_counts) rec_final in
  n_upd_m cnt' = S (n_upd_m zero_counts) /\ n_ins_m cnt' = n_ins_m zero_counts /\
  size (matches (db c')) = size (matches (db conn_sched)) /\
  exists r', matches (db c') !! match_key rec_final = Some r' /\ match_id r' = match_id row_sched /\
    f_home_score (m_fields r') = ft_home rec_final /\ f_away_score (m_fields r') = ft_away rec_final /\
    f_winner (m_fields r') = compute_winner (ft_home rec_final) (ft_away rec_final).
Proof.
  exact (update_not_duplicate always_ok (fun _ => eq_refl) 1 "football" conn_sched zero_counts
           rec_final row_sched eq_refl ltac:(vm_compute; reflexivity) ltac:(vm_compute; congruence)).
Defined.

(** C2 counterexample: the Kaggle importer writes with [ON CONFLICT ... DO
    NOTHING]; a fixture already stored 1-0 and re-imported as 2-0 under the
    same key keeps its old score, and the importer reports
    [(added, updated) = (0, 0)]. *)
Theorem kaggle_conflict_keeps_old_score :
  Kaggle.kkey Kaggle.corrected_row = Kaggle.kkey Kaggle.stored_row /\
  Kaggle.k_home_score Kaggle.corrected_row <> Kaggle.k_home_score Kaggle.stored_row /\
  fst (Kaggle.import_rows Kaggle.table_with_stored [Kaggle.corrected_row])
    !! Kaggle.kkey Kaggle.corrected_row = Some Kaggle.stored_row /\
  snd (Kaggle.import_rows Kaggle.table_with_stored [Kaggle.corrected_row]) = (0, 0).
Proof. split; [reflexivity|]. split; [discriminate|]. split; vm_compute; reflexivity. Qed.

(** C5 (amended): the update path writes every column of
    [match_fields_to_update] from the record: league, home and away team
    (the ids the record's names resolve to), kickoff, status, scores,
    winner, stage, matchday and [is_mock]; only [match_id],
    [source_match_id] and [source_name] are kept. *)
Theorem update_rewrites_all_fields commit_ok (Hok : forall s, commit_ok s = true) l sport c cnt md r :
  active sport md = true ->
  matches (db c) !! match_key md = Some r ->
  mutable_key (m_fields r) <> (status md, ft_home md, ft_away md, utcDate md) ->
  let c' := fst (process_match commit_ok l sport (c, cnt) md) in
  exists th ta,
    teams (db c') !! (hname md, sport) = Some th /\ teams (db c') !! (aname md, sport) = Some ta /\
    matches (db c') !! match_key md =
      Some {| match_id := match_id r; m_fields := match_fields_of l (ent_id th) (ent_id ta) md;
              source_match_id := source_match_id r; source_name := source_name r |}.
Proof.
  intros Hact Hm Hne c'.
  destruct (process_match_ok commit_ok Hok l sport c cnt md) as [Hdb _].
  destruct (match_step_update_path l sport (db c) md r Hact Hm Hne)
    as (S' & io & uo & th & ta & Hs & Hth & Hta & HmS).
  subst c'. rewrite Hdb, Hs. cbn [fst]. exists th, ta.
  split; [exact Hth|]. split; [exact Hta|]. rewrite HmS, lookup_insert_eq. reflexivity.
Qed.

Lemma update_rewrites_all_fields_witness :
  let c' := fst (process_match always_ok 1 "football" (conn_sched, zero_counts) rec_final) in
  exists th ta,
    teams (db c') !! (hname rec_final, "football") = Some th /\
    teams (db c') !! (aname rec_final, "football") = Some ta /\
    matches (db c') !! match_key rec_final =
      Some {| match_id := match_id row_sched;
              m_fields := match_fields_of 1 (ent_id th) (ent_id ta) rec_final;
              source_match_id := source_match_id row_sched; source_name := source_name row_sched |}.
Proof.
  exact (update_rewrites_all_fields always_ok (fun _ => eq_refl) 1 "football" conn_sched zero_counts
           rec_final row_sched eq_refl ltac:(vm_compute; reflexivity) ltac:(vm_compute; congruence)).
Defined.

(** C5 counterexample: match 1001 stored with home team Arsenal (id 1) and
    re-sent finished with home team Everton is updated, and the update
    rewrites its home team reference to Everton's id 3. *)
Theorem update_rewrites_home_team :
  let r := process_and_store_matches always_ok conn_sched [rec_fix] pl_name pl_code pl_country "football" in
  snd r = (0, 1, 0, 0) /\
  option_map (fun x => f_home_team_id (m_fields x)) (matches (db conn_sched) !! match_key rec_fix) = Some 1%positive /\
  option_map (fun x => f_home_team_id (m_fields x)) (matches (db (fst r)) !! match_key rec_fix) = Some 3%positive.
Proof. split; [|split]; vm_compute; reflexivity. Qed.

(** C9: when the commit after the loop fails, [process_and_store_matches]
    returns [(0, 0, 0, 0)] whatever the loop counted, and commits exactly
    once after the loop: the returned connection is the loop's one with a
    single failed commit added to its log, nothing retried. *)
Theorem commit_failure_reports_zero commit_ok c data ln lc cty sport l :
  data <> [] ->
  snd (get_or_create_entity_id_fb commit_ok c League ln sport lc cty) = Some l ->
  let c2 := fst (fold_left (process_match commit_ok l sport) data
                   (fst (get_or_create_entity_id_fb commit_ok c League ln sport lc cty), zero_counts)) in
  commit_ok (db c2) = false ->
  process_and_store_matches commit_ok c data ln lc cty sport =
    ({| db := db c2; durable := durable c2; commit_log := commit_log c2 ++ [false] |}, (0, 0, 0, 0)).
Proof.
  intros Hne Hl. cbv zeta. intros Hc.
  destruct data as [|m d]; [congruence|].
  unfold process_and_store_matches.
  destruct (get_or_create_entity_id_fb commit_ok c League ln sport lc cty) as [c1 lid].
  cbn [fst snd] in Hl, Hc |- *. subst lid.
  destruct (fold_left (process_match commit_ok l sport) (m :: d) (c1, zero_counts)) as [c2 cnt].
  cbn [fst] in Hc. unfold commit. rewrite Hc. reflexivity.
Qed.

Lemma commit_failure_reports_zero_witness :
  let c2 := fst (fold_left (process_match ok_until_match 1 "football") [rec_sched]
                   (fst (get_or_create_entity_id_fb ok_until_match conn0 League pl_name "football"
                           pl_code pl_country), zero_counts)) in
  process_and_store_matches ok_until_match conn0 [rec_sched] pl_name pl_code pl_country "football" =
    ({| db := db c2; durable := durable c2; commit_log := commit_log c2 ++ [false] |}, (0, 0, 0, 0)).
Proof.
  exact (commit_failure_reports_zero ok_until_match conn0 [rec_sched] pl_name pl_code pl_country
           "football" 1 ltac:(discriminate) ltac:(vm_compute; reflexivity)
           ltac:(vm_compute; reflexivity)).
Defined.

(** C6 (amended): for a non-empty name and sport and a non-empty source id
    [s], with commits succeeding, resolving [(name, sport)] with any source
    id and then again with [s] returns the same id both times, adds no row
    the second time, and leaves [s] as the stored source id. *)
Theorem entity_dedup commit_ok (Hok : forall s, commit_ok s = true) c et n sport sid1 s cty :
  n <> "" -> sport <> "" -> s <> "" ->
  let '(c1, i1) := get_or_create_entity_id commit_ok c et (Some n) sport sid1 cty in
  let '(c2, i2) := get_or_create_entity_id commit_ok c1 et (Some n) sport (Some s) cty in
  is_Some i1 /\ i2 = i1 /\
  size (entity_table et (db c2)) = size (entity_table et (db c1)) /\
  exists row, entity_table et (db c2) !! (n, sport) = Some row /\ i2 = Some (ent_id row) /\
    ent_source_id row = Some s.
Proof.
  intros Hn Hsp Hs.
  assert (En : String.eqb n "" = false) by (apply String.eqb_neq; exact Hn).
  assert (Esp : String.eqb sport "" = false) by (apply String.eqb_neq; exact Hsp).
  assert (Es : String.eqb s "" = false) by (apply String.eqb_neq; exact Hs).
  rewrite (get_or_create_ok commit_ok Hok) by assumption. cbv beta iota.
  rewrite (get_or_create_ok commit_ok Hok) by assumption. cbn [db].
  destruct (resolve_entity_lookup et (db c) n sport sid1 cty) as (row & Hrow & Hid & _).
  destruct (resolve_entity et (db c) n sport sid1 cty) as [st1 i1].
  cbn [fst snd] in Hrow, Hid |- *. subst i1.
  rewrite (resolve_entity_found et st1 n sport (Some s) cty row Hrow). cbn [fst snd].
  unfold truthy. rewrite Es. cbn [negb andb].
  destruct (bool_decide (ent_source_id row = Some s)) eqn:Hb; cbn [negb].
  - apply bool_decide_eq_true in Hb. split; [eauto|]. split; [reflexivity|].
    split; [reflexivity|]. exists row. auto.
  - rewrite entity_table_set. split; [eauto|]. split; [reflexivity|]. split.
    + apply map_size_insert_Some. rewrite Hrow. eauto.
    + eexists. rewrite lookup_insert_eq. split; [reflexivity|].
      split; reflexivity.
Qed.

Lemma entity_dedup_witness :
  let '(c1, i1) := get_or_create_entity_id always_ok conn0 Team (Some "Arsenal") "football" None None in
  let '(c2, i2) := get_or_create_entity_id always_ok c1 Team (Some "Arsenal") "football" (Some "57") None in
  is_Some i1 /\ i2 = i1 /\
  size (entity_table Team (db c2)) = size (entity_table Team (db c1)) /\
  exists row, entity_table Team (db c2) !! ("Arsenal", "football") = Some row /\
    i2 = Some (ent_id row) /\ ent_source_id row = Some "57".
Proof.
  exact (entity_dedup always_ok (fun _ => eq_refl) conn0 Team "Arsenal" "football" None "57" None
           ltac:(discriminate) ltac:(discriminate) ltac:(discriminate)).
Defined.

(** C6 counterexample: a second resolution with the source id [""] (not
    null, but falsy) keeps the stored [None]. *)
Theorem empty_source_id_not_stored :
  let '(c1, i1) := get_or_create_entity_id always_ok conn0 Team (Some "Arsenal") "football" None None in
  let '(c2, i2) := get_or_create_entity_id always_ok c1 Team (Some "Arsenal") "football" (Some "") None in
  i2 = i1 /\ option_map ent_source_id (teams (db c2) !! ("Arsenal", "football")) = Some None.
Proof. vm_compute. split; reflexivity. Qed.

(** C3: the winner is computed from the scores as the spec says, but a
    record with status FINISHED and no full-time score is stored with
    status FINISHED, null scores and a null winner: no downgrade. *)
Theorem finished_without_score_kept_finished :
  (forall h a, (h > a)%Z -> compute_winner (Some h) (Some a) = Some HOME_TEAM) /\
  (forall h a, (a > h)%Z -> compute_winner (Some h) (Some a) = Some AWAY_TEAM) /\
  (forall h, compute_winner (Some h) (Some h) = Some DRAW) /\
  (forall x, compute_winner None x = None /\ compute_winner x None = None) /\
  option_map (fun r => (f_status (m_fields r), f_home_score (m_fields r),
                        f_away_score (m_fields r), f_winner (m_fields r)))
    (matches (db (fst (process_and_store_matches always_ok conn0 [rec_noscore] pl_name pl_code
                         pl_country "football"))) !! match_key rec_noscore)
  = Some (Some "FINISHED", None, None, None).
Proof.
  split; [|split; [|split; [|split]]].
  - intros h a H. unfold compute_winner. rewrite Z.gtb_ltb.
    replace (a <? h)%Z with true by (symmetry; apply Z.ltb_lt; lia). reflexivity.
  - intros h a H. unfold compute_winner. rewrite !Z.gtb_ltb.
    replace (a <? h)%Z with false by (symmetry; apply Z.ltb_ge; lia).
    replace (h <? a)%Z with true by (symmetry; apply Z.ltb_lt; lia). reflexivity.
  - intros h. unfold compute_winner. rewrite Z.gtb_ltb, Z.ltb_irrefl. reflexivity.
  - intros [x|]; split; reflexivity.
  - vm_compute. reflexivity.
Qed.

(** C1 counterexample: storing a one-record batch twice, the second run
    reports [(0, 0, 0, 0)]: no record is reported inserted (nor skipped).
    A batch holding the scheduled and the finished version of one match
    (one key) is reported as two updates on every run after the first. *)
Theorem rerun_reports_zero_inserted :
  let r1 := process_and_store_matches always_ok conn0 [rec_sched] pl_name pl_code pl_country "football" in
  let r2 := process_and_store_matches always_ok (fst r1) [rec_sched] pl_name pl_code pl_country "football" in
  let d1 := process_and_store_matches always_ok conn0 [rec_sched; rec_final] pl_name pl_code pl_country "football" in
  let d2 := process_and_store_matches always_ok (fst d1) [rec_sched; rec_final] pl_name pl_code pl_country "football" in
  snd r1 = (1, 0, 0, 0) /\ snd r2 = (0, 0, 0, 0) /\ snd d1 = (1, 1, 0, 0) /\ snd d2 = (0, 2, 0, 0).
Proof. split; [|split; [|split]]; vm_compute; reflexivity. Qed.

(** ** Replaying a key's events: the generic upsert step *)

(** An upsert on one key: an absent row is inserted from the candidate; a
    present row is kept when its compared columns match the candidate's and
    rewritten from the candidate otherwise.  Replaying the same events a
    second time changes nothing. *)
Section UpsertReplay.
Context {V D P : Type}.
Variables (p : V -> P) (pd : D -> P) (peq : P -> P -> bool).
Variables (upd : V -> D -> V) (ins : D -> V) (step : option V -> D -> option V).
Hypothesis peq_sym : forall x y, peq x y = true -> peq y x = true.
Hypothesis peq_trans : forall x y z, peq x y = true -> peq y z = true -> peq x z = true.
Hypothesis p_upd : forall v d, peq (p (upd v d)) (pd d) = true.
Hypothesis p_ins : forall d, peq (p (ins d)) (pd d) = true.
Hypothesis upd_upd : forall v a b, upd (upd v a) b = upd v b.
Hypothesis step_some : forall v d, step (Some v) d = Some (if peq (p v) (pd d) then v else upd v d).
Hypothesis step_none : forall d, step None d = Some (ins d).

Lemma step_result x d :
  exists u, step x d = Some u /\ peq (p u) (pd d) = true /\
    (forall v, x = Some v -> u = v \/ u = upd v d).
Proof.
  destruct x as [v|].
  - rewrite step_some. destruct (peq (p v) (pd d)) eqn:E; eexists; (split; [reflexivity|]).
    + split; [exact E|]. intros v' [= <-]. auto.
    + split; [apply p_upd|]. intros v' [= <-]. auto.
  - rewrite step_none. eexists. split; [reflexivity|]. split; [apply p_ins|]. discriminate.
Qed.

(** After an event [d], the rest of the events either rewrite any row that
    agrees with [d] from one fixed candidate, or keep it. *)
Lemma replay_cases L d :
  (exists e, forall v, peq (p v) (pd d) = true -> fold_left step L (Some v) = Some (upd v e)) \/
  (forall v, peq (p v) (pd d) = true -> fold_left step L (Some v) = Some v).
Proof.
  revert d. induction L as [|d' L IH]; intros d; [right; reflexivity|].
  destruct (IH d') as [[e He]|He]; destruct (peq (pd d) (pd d')) eqn:Ed.
  - left. exists e. intros v Hv. cbn [fold_left]. rewrite step_some.
    rewrite (peq_trans _ _ _ Hv Ed). apply He. eapply peq_trans; eauto.
  - left. exists e. intros v Hv. cbn [fold_left]. rewrite step_some.
    destruct (peq (p v) (pd d')) eqn:Ev.
    + exfalso. assert (peq (pd d) (pd d') = true) by (eapply peq_trans; [apply peq_sym|]; eauto).
      congruence.
    + rewrite He by apply p_upd. rewrite upd_upd. reflexivity.
  - right. intros v Hv. cbn [fold_left]. rewrite step_some.
    rewrite (peq_trans _ _ _ Hv Ed). apply He. eapply peq_trans; eauto.
  - left. exists d'. intros v Hv. cbn [fold_left]. rewrite step_some.
    destruct (peq (p v) (pd d')) eqn:Ev.
    + exfalso. assert (peq (pd d) (pd d') = true) by (eapply peq_trans; [apply peq_sym|]; eauto).
      congruence.
    + apply He. apply p_upd.
Qed.

Lemma replay_idem L x : fold_left step L (fold_left step L x) = fold_left step L x.
Proof.
  destruct L as [|d L]; [reflexivity|]. cbn [fold_left].
  destruct (step_result x d) as (u & Hu & Hpu & _). rewrite Hu.
  destruct (replay_cases L d) as [[e He]|He].
  - rewrite (He u Hpu).
    destruct (step_result (Some (upd u e)) d) as (u' & Hu' & Hpu' & Hor).
    rewrite Hu', (He u' Hpu').
    destruct (Hor _ eq_refl) as [->| ->]; rewrite ?upd_upd; reflexivity.
  - rewrite (He u Hpu), step_some, Hpu. apply He. exact Hpu.
Qed.

End UpsertReplay.

(** ** Replaying a team key's events *)

(** The fallback resolver never rewrites a present team row. *)
Lemma team_fold_some E k L r : fold_left (tstep E k) L (Some r) = Some r.
Proof. induction L as [|sid L IH]; [reflexivity|]. exact IH. Qed.

Lemma team_replay_idem E k L x :
  fold_left (tstep E k) L (fold_left (tstep E k) L x) = fold_left (tstep E k) L x.
Proof.
  destruct L as [|sid L]; [reflexivity|]. cbn [fold_left].
  assert (Hu : exists u, tstep E k x sid = Some u) by (destruct x; eexists; reflexivity).
  destruct Hu as (u & ->). rewrite team_fold_some. cbn [tstep]. apply team_fold_some.
Qed.

(** ** One record, key by key *)

(** Split on whether the key [a] looked up is the key [b] written. *)
Ltac key_cases a b :=
  destruct (decide (a = b)) as [Hk|Hk];
  [rewrite (bool_decide_eq_true_2 (a = b)) by exact Hk; subst a
  |rewrite (bool_decide_eq_false_2 (a = b)) by exact Hk].

Lemma resolve_team_char E st n sp sid kt :
  tpersist (fst (resolve_entity_fb Team st n sp sid None)) E ->
  teams (fst (resolve_entity_fb Team st n sp sid None)) !! kt =
  if bool_decide (kt = (n, sp)) then tstep E kt (teams st !! kt) sid else teams st !! kt.
Proof.
  intros HE. unfold resolve_entity_fb in *. cbn [entity_table] in *.
  destruct (teams st !! (n, sp)) as [row|] eqn:Hl.
  - cbn [fst]. key_cases kt (n, sp); [rewrite Hl|]; reflexivity.
  - cbn [fst set_entity_table set_teams bump_entity_id bump_team_id teams] in *.
    key_cases kt (n, sp).
    + rewrite lookup_insert_eq, Hl. cbn [tstep].
      erewrite (tid_of_persist _ E (n, sp)); cycle 1;
        [exact HE | cbn [teams]; apply lookup_insert_eq | reflexivity].
    + rewrite lookup_insert_ne by congruence. reflexivity.
Qed.

Lemma resolve_team_id E st n sp sid :
  tpersist (fst (resolve_entity_fb Team st n sp sid None)) E ->
  snd (resolve_entity_fb Team st n sp sid None) = tid E (n, sp).
Proof.
  intros HE. destruct (resolve_entity_fb_lookup Team st n sp sid None) as (row & Hr & Hid).
  rewrite <- Hid. symmetry. exact (tid_of_persist _ _ _ _ HE Hr).
Qed.

Lemma upsert_match_char E st k f km :
  mpersist (fst (fst (fst (upsert_match st k f)))) E ->
  matches (fst (fst (fst (upsert_match st k f)))) !! km =
  if bool_decide (km = k) then mstep E km (matches st !! km) f else matches st !! km.
Proof.
  intros HE. unfold upsert_match in *.
  destruct (matches st !! k) as [row|] eqn:Hl.
  - destruct (needs_update row f) eqn:Hn; cbn [fst set_matches matches] in *;
      key_cases km k; rewrite ?lookup_insert_eq, ?Hl; cbn [mstep]; rewrite ?Hn;
      try reflexivity.
    rewrite lookup_insert_ne by congruence. reflexivity.
  - cbn [fst set_matches bump_match_id matches] in *. key_cases km k.
    + rewrite lookup_insert_eq, Hl. cbn [mstep].
      erewrite (mid_of_persist _ E k); cycle 1;
        [exact HE | cbn [matches]; apply lookup_insert_eq | reflexivity].
    + rewrite lookup_insert_ne by congruence. reflexivity.
Qed.

Lemma upsert_match_id E st k f :
  mpersist (fst (fst (fst (upsert_match st k f)))) E ->
  snd (fst (fst (upsert_match st k f))) = mid_of E k.
Proof.
  intros HE. unfold upsert_match in *.
  destruct (matches st !! k) as [row|] eqn:Hl.
  - destruct (needs_update row f); cbn [fst snd set_matches matches] in *; symmetry.
    + apply (mid_of_persist _ E k (update_match_row row f) HE). apply lookup_insert_eq.
    + exact (mid_of_persist _ E k row HE Hl).
  - cbn [fst snd bump_match_id set_matches matches next_match_id] in *. symmetry.
    apply (mid_of_persist _ E k (new_match_row (next_match_id st) k f) HE).
    apply lookup_insert_eq.
Qed.

Lemma upsert_odds_eq st mid ts od :
  upsert_odds st mid ts od =
  match odds_prices od with
  | Some (h, d, a) =>
      match odds st !! odds_key mid with
      | Some orow =>
          if odds_differ orow h d a
          then (set_odds st (<[odds_key mid := update_odds_row orow h d a ts]> (odds st)), 0, 1)
          else (st, 0, 0)
      | None =>
          (bump_odd_id (set_odds st (<[odds_key mid := new_odds_row (next_odd_id st) mid h d a ts]>
                                       (odds st))), 1, 0)
      end
  | None => (st, 0, 0)
  end.
Proof. unfold upsert_odds, odds_prices. repeat case_match; reflexivity. Qed.

Lemma upsert_odds_char E st mid ts od ko :
  opersist (fst (fst (upsert_odds st mid ts od))) E ->
  odds (fst (fst (upsert_odds st mid ts od))) !! ko =
  match odds_prices od with
  | Some (h, d, a) =>
      if bool_decide (ko = odds_key mid) then ostep E ko (odds st !! ko) (h, d, a, ts)
      else odds st !! ko
  | None => odds st !! ko
  end.
Proof.
  rewrite upsert_odds_eq. intros HE.
  destruct (odds_prices od) as [[[h d] a]|]; [|reflexivity].
  destruct (odds st !! odds_key mid) as [o|] eqn:Hl.
  - destruct (odds_differ o h d a) eqn:Hd; cbn [fst set_odds odds] in *;
      key_cases ko (odds_key mid); rewrite ?lookup_insert_eq, ?Hl; cbn [ostep]; rewrite ?Hd;
      try reflexivity.
    rewrite lookup_insert_ne by congruence. reflexivity.
  - cbn [fst set_odds bump_odd_id odds] in *. key_cases ko (odds_key mid).
    + rewrite lookup_insert_eq, Hl. cbn [ostep].
      rewrite (oid_of_persist _ E (odds_key mid) (new_odds_row (next_odd_id st) mid h d a ts) HE)
        by apply lookup_insert_eq.
      reflexivity.
    + rewrite lookup_insert_ne by congruence. reflexivity.
Qed.

(** ** One record of the loop, key by key *)

Lemma match_step_inv l sport S md S' d :
  match_step l sport S md = (S', d) -> active sport md = true ->
  exists sth h sta a st1 mid im um io uo,
    resolve_entity_fb Team S (hname md) sport (team_source_id (homeTeam md)) None = (sth, h) /\
    resolve_entity_fb Team sth (aname md) sport (team_source_id (awayTeam md)) None = (sta, a) /\
    upsert_match sta (match_key md) (match_fields_of l h a md) = (st1, mid, im, um) /\
    upsert_odds st1 mid (utcDate md) (m_odds md) = (S', io, uo) /\ d = (im, um, io, uo).
Proof.
  intros Hs Hact. unfold match_step in Hs. rewrite Hact in Hs.
  destruct (resolve_entity_fb Team S _ _ _ None) as [sth h] eqn:E1.
  destruct (resolve_entity_fb Team sth _ _ _ None) as [sta a] eqn:E2.
  destruct (upsert_match sta _ _) as [[[st1 mid] im] um] eqn:E3.
  destruct (upsert_odds st1 mid _ _) as [[st2 io] uo] eqn:E4.
  injection Hs as <- <-. exists sth, h, sta, a, st1, mid, im, um, io, uo. auto 6.
Qed.

Lemma match_step_inactive l sport S md :
  active sport md = false -> match_step l sport S md = (S, (0, 0, 0, 0)).
Proof. intros H. unfold match_step. rewrite H. reflexivity. Qed.

Lemma resolve_team_persists_eq st n sp sid st' h :
  resolve_entity_fb Team st n sp sid None = (st', h) -> persists st st'.
Proof. intros H. pose proof (resolve_team_persists st n sp sid None) as P. rewrite H in P. exact P. Qed.

Lemma upsert_match_persists_eq st k f st1 mid im um :
  upsert_match st k f = (st1, mid, im, um) -> persists st st1.
Proof. intros H. pose proof (upsert_match_persists st k f) as P. rewrite H in P. exact P. Qed.

Lemma upsert_odds_persists_eq st mid ts od st2 io uo :
  upsert_odds st mid ts od = (st2, io, uo) -> persists st st2.
Proof. intros H. pose proof (upsert_odds_persists st mid ts od) as P. rewrite H in P. exact P. Qed.

Lemma resolve_team_frame_eq st n sp sid st' h :
  resolve_entity_fb Team st n sp sid None = (st', h) ->
  leagues st' = leagues st /\ matches st' = matches st /\ odds st' = odds st /\
  next_league_id st' = next_league_id st /\ next_match_id st' = next_match_id st /\
  next_odd_id st' = next_odd_id st.
Proof. intros H. pose proof (resolve_team_frame st n sp sid None) as P. rewrite H in P. exact P. Qed.

Lemma upsert_match_frame_eq st k f st1 mid im um :
  upsert_match st k f = (st1, mid, im, um) ->
  leagues st1 = leagues st /\ teams st1 = teams st /\ odds st1 = odds st /\
  next_league_id st1 = next_league_id st /\ next_team_id st1 = next_team_id st /\
  next_odd_id st1 = next_odd_id st.
Proof. intros H. pose proof (upsert_match_frame st k f) as P. rewrite H in P. exact P. Qed.

Lemma upsert_odds_frame_eq st mid ts od st2 io uo :
  upsert_odds st mid ts od = (st2, io, uo) ->
  leagues st2 = leagues st /\ teams st2 = teams st /\ matches st2 = matches st /\
  next_league_id st2 = next_league_id st /\ next_team_id st2 = next_team_id st /\
  next_match_id st2 = next_match_id st.
Proof. intros H. pose proof (upsert_odds_frame st mid ts od) as P. rewrite H in P. exact P. Qed.

Lemma match_step_persists l sport S md : persists S (fst (match_step l sport S md)).
Proof.
  destruct (match_step l sport S md) as [S' d] eqn:Hs. cbn [fst].
  destruct (active sport md) eqn:Hact.
  - destruct (match_step_inv _ _ _ _ _ _ Hs Hact)
      as (sth & h & sta & a & st1 & mid & im & um & io & uo & E1 & E2 & E3 & E4 & _).
    eapply persists_trans; [eapply resolve_team_persists_eq; exact E1|].
    eapply persists_trans; [eapply resolve_team_persists_eq; exact E2|].
    eapply persists_trans; [eapply upsert_match_persists_eq; exact E3|].
    eapply upsert_odds_persists_eq; exact E4.
  - rewrite match_step_inactive in Hs by exact Hact. injection Hs as <- _. apply persists_refl.
Qed.

Ltac pchain := solve [repeat (assumption || (eapply persists_trans; [eassumption|]))].

(** The pieces of a record in its successful run, with the tables each
    piece leaves alone. *)
Ltac step_pieces Hs Hact :=
  let sth := fresh "sth" in let h := fresh "h" in let sta := fresh "sta" in
  let a := fresh "a" in let st1 := fresh "st1" in let mid := fresh "mid" in
  let E1 := fresh "E1" in let E2 := fresh "E2" in let E3 := fresh "E3" in
  let E4 := fresh "E4" in let Ed := fresh "Ed" in
  destruct (match_step_inv _ _ _ _ _ _ Hs Hact)
    as (sth & h & sta & a & st1 & mid & ? & ? & ? & ? & E1 & E2 & E3 & E4 & Ed);
  pose proof (resolve_team_persists_eq _ _ _ _ _ _ E1);
  pose proof (resolve_team_persists_eq _ _ _ _ _ _ E2);
  pose proof (upsert_match_persists_eq _ _ _ _ _ _ _ E3);
  pose proof (upsert_odds_persists_eq _ _ _ _ _ _ _ E4);
  pose proof (resolve_team_frame_eq _ _ _ _ _ _ E1) as F1;
  pose proof (resolve_team_frame_eq _ _ _ _ _ _ E2) as F2;
  pose proof (upsert_match_frame_eq _ _ _ _ _ _ _ E3) as F3;
  pose proof (upsert_odds_frame_eq _ _ _ _ _ _ _ E4) as F4.


Lemma resolve_team_char_eq E st n sp sid st' h kt :
  resolve_entity_fb Team st n sp sid None = (st', h) -> persists st' E ->
  teams st' !! kt = if bool_decide (kt = (n, sp)) then tstep E kt (teams st !! kt) sid else teams st !! kt.
Proof.
  intros H HE. pose proof (resolve_team_char E st n sp sid kt) as P. rewrite H in P. apply P, HE.
Qed.

Lemma resolve_team_id_eq E st n sp sid st' h :
  resolve_entity_fb Team st n sp sid None = (st', h) -> persists st' E -> h = tid E (n, sp).
Proof.
  intros H HE. pose proof (resolve_team_id E st n sp sid) as P. rewrite H in P. apply P, HE.
Qed.

Lemma upsert_match_char_eq E st k f st1 mid im um km :
  upsert_match st k f = (st1, mid, im, um) -> persists st1 E ->
  matches st1 !! km = if bool_decide (km = k) then mstep E km (matches st !! km) f else matches st !! km.
Proof.
  intros H HE. pose proof (upsert_match_char E st k f km) as P. rewrite H in P. apply P, HE.
Qed.

Lemma upsert_match_id_eq E st k f st1 mid im um :
  upsert_match st k f = (st1, mid, im, um) -> persists st1 E -> mid = mid_of E k.
Proof.
  intros H HE. pose proof (upsert_match_id E st k f) as P. rewrite H in P. apply P, HE.
Qed.

Lemma upsert_odds_char_eq E st mid ts od st2 io uo ko :
  upsert_odds st mid ts od = (st2, io, uo) -> persists st2 E ->
  odds st2 !! ko =
  match odds_prices od with
  | Some (h, d, a) =>
      if bool_decide (ko = odds_key mid) then ostep E ko (odds st !! ko) (h, d, a, ts)
      else odds st !! ko
  | None => odds st !! ko
  end.
Proof.
  intros H HE. pose proof (upsert_odds_char E st mid ts od ko) as P. rewrite H in P. apply P, HE.
Qed.

Lemma match_step_teams E l sport S md kt :
  persists (fst (match_step l sport S md)) E ->
  teams (fst (match_step l sport S md)) !! kt =
  fold_left (tstep E kt) (tsids sport kt md) (teams S !! kt).
Proof.
  destruct (match_step l sport S md) as [S' d] eqn:Hs. cbn [fst]. intros HE.
  unfold tsids. destruct (active sport md) eqn:Hact.
  - step_pieces Hs Hact.
    destruct F4 as (_ & -> & _). destruct F3 as (_ & -> & _).
    rewrite (resolve_team_char_eq E _ _ _ _ _ _ kt E2) by pchain.
    rewrite (resolve_team_char_eq E _ _ _ _ _ _ kt E1) by pchain.
    rewrite fold_left_app.
    destruct (bool_decide (kt = (hname md, sport))), (bool_decide (kt = (aname md, sport)));
      reflexivity.
  - rewrite match_step_inactive in Hs by exact Hact. injection Hs as <- _. reflexivity.
Qed.

Lemma match_step_matches E l sport S md km :
  persists (fst (match_step l sport S md)) E ->
  matches (fst (match_step l sport S md)) !! km =
  fold_left (mstep E km) (mcands l sport E km md) (matches S !! km).
Proof.
  destruct (match_step l sport S md) as [S' d] eqn:Hs. cbn [fst]. intros HE.
  unfold mcands. destruct (active sport md) eqn:Hact.
  - step_pieces Hs Hact.
    destruct F4 as (_ & _ & -> & _).
    rewrite (upsert_match_char_eq E _ _ _ _ _ _ _ km E3) by pchain.
    destruct F2 as (_ & -> & _). destruct F1 as (_ & -> & _).
    rewrite <- (resolve_team_id_eq E _ _ _ _ _ _ E1) by pchain.
    rewrite <- (resolve_team_id_eq E _ _ _ _ _ _ E2) by pchain.
    cbn [andb]. destruct (bool_decide (km = match_key md)); reflexivity.
  - rewrite match_step_inactive in Hs by exact Hact. injection Hs as <- _. reflexivity.
Qed.

Lemma match_step_odds E l sport S md ko :
  persists (fst (match_step l sport S md)) E ->
  odds (fst (match_step l sport S md)) !! ko =
  fold_left (ostep E ko) (ocands sport E ko md) (odds S !! ko).
Proof.
  destruct (match_step l sport S md) as [S' d] eqn:Hs. cbn [fst]. intros HE.
  unfold ocands. destruct (active sport md) eqn:Hact.
  - step_pieces Hs Hact.
    rewrite (upsert_odds_char_eq E _ _ _ _ _ _ _ ko E4) by pchain.
    rewrite <- (upsert_match_id_eq E _ _ _ _ _ _ _ E3) by pchain.
    destruct F3 as (_ & _ & -> & _). destruct F2 as (_ & _ & -> & _).
    destruct F1 as (_ & _ & -> & _).
    destruct (odds_prices (m_odds md)) as [[[h' d'] a']|]; [|reflexivity].
    destruct (bool_decide (ko = odds_key mid)); reflexivity.
  - rewrite match_step_inactive in Hs by exact Hact. injection Hs as <- _. reflexivity.
Qed.

Lemma match_step_leagues l sport S md :
  leagues (fst (match_step l sport S md)) = leagues S /\
  next_league_id (fst (match_step l sport S md)) = next_league_id S.
Proof.
  destruct (match_step l sport S md) as [S' d] eqn:Hs. cbn [fst].
  destruct (active sport md) eqn:Hact.
  - step_pieces Hs Hact.
    destruct F1 as (L1 & _ & _ & N1 & _). destruct F2 as (L2 & _ & _ & N2 & _).
    destruct F3 as (L3 & _ & _ & N3 & _). destruct F4 as (L4 & _ & _ & N4 & _).
    split; congruence.
  - rewrite match_step_inactive in Hs by exact Hact. injection Hs as <- _. auto.
Qed.


(** ** The whole loop, key by key *)

Lemma run_db_cons l sport S md data :
  run_db l sport S (md :: data) = run_db l sport (fst (match_step l sport S md)) data.
Proof. reflexivity. Qed.

Lemma run_db_persists l sport S data : persists S (run_db l sport S data).
Proof.
  revert S. induction data as [|md data IH]; intros S; [apply persists_refl|].
  rewrite run_db_cons. eapply persists_trans; [apply match_step_persists | apply IH].
Qed.

Lemma run_db_leagues l sport S data :
  leagues (run_db l sport S data) = leagues S /\
  next_league_id (run_db l sport S data) = next_league_id S.
Proof.
  revert S. induction data as [|md data IH]; intros S; [auto|].
  rewrite run_db_cons. destruct (IH (fst (match_step l sport S md))) as [-> ->].
  apply match_step_leagues.
Qed.

Lemma run_db_teams E l sport S data kt :
  persists (run_db l sport S data) E ->
  teams (run_db l sport S data) !! kt =
  fold_left (tstep E kt) (flat_map (tsids sport kt) data) (teams S !! kt).
Proof.
  revert S. induction data as [|md data IH]; intros S HE; [reflexivity|].
  rewrite run_db_cons in *. cbn [flat_map]. rewrite fold_left_app, IH by exact HE.
  rewrite (match_step_teams E); [reflexivity|].
  eapply persists_trans; [apply run_db_persists | exact HE].
Qed.

Lemma run_db_matches E l sport S data km :
  persists (run_db l sport S data) E ->
  matches (run_db l sport S data) !! km =
  fold_left (mstep E km) (flat_map (mcands l sport E km) data) (matches S !! km).
Proof.
  revert S. induction data as [|md data IH]; intros S HE; [reflexivity|].
  rewrite run_db_cons in *. cbn [flat_map]. rewrite fold_left_app, IH by exact HE.
  rewrite (match_step_matches E); [reflexivity|].
  eapply persists_trans; [apply run_db_persists | exact HE].
Qed.

Lemma run_db_odds E l sport S data ko :
  persists (run_db l sport S data) E ->
  odds (run_db l sport S data) !! ko =
  fold_left (ostep E ko) (flat_map (ocands sport E ko) data) (odds S !! ko).
Proof.
  revert S. induction data as [|md data IH]; intros S HE; [reflexivity|].
  rewrite run_db_cons in *. cbn [flat_map]. rewrite fold_left_app, IH by exact HE.
  rewrite (match_step_odds E); [reflexivity|].
  eapply persists_trans; [apply run_db_persists | exact HE].
Qed.

Lemma run_store_fst l sport S cnt data :
  fst (run_store l sport (S, cnt) data) = run_db l sport S data.
Proof.
  revert S cnt. induction data as [|md data IH]; intros S cnt; [reflexivity|].
  unfold run_store in *. cbn [fold_left]. rewrite run_db_cons.
  destruct (match_step l sport S md) as [S' d]. apply IH.
Qed.

(** With every commit succeeding, the loop of [process_and_store_matches]
    acts on the working state as [run_store]. *)
Lemma fold_process_match_ok commit_ok (Hok : forall s, commit_ok s = true) l sport data c cnt :
  db (fst (fold_left (process_match commit_ok l sport) data (c, cnt))) =
    fst (run_store l sport (db c, cnt) data) /\
  snd (fold_left (process_match commit_ok l sport) data (c, cnt)) =
    snd (run_store l sport (db c, cnt) data).
Proof.
  revert c cnt. induction data as [|md data IH]; intros c cnt; [auto|].
  cbn [fold_left]. unfold run_store in *. cbn [fold_left].
  destruct (process_match_ok commit_ok Hok l sport c cnt md) as [Hd Hc].
  destruct (process_match commit_ok l sport (c, cnt) md) as [c' cnt'] eqn:Hp.
  cbn [fst snd] in Hd, Hc. destruct (IH c' cnt') as [-> ->]. rewrite Hd, Hc.
  destruct (match_step l sport (db c) md) as [S' d]. split; reflexivity.
Qed.


(** ** After a record, its rows are there; a second pass inserts nothing *)

Lemma present_persist sport S T md : persists S T -> present sport S md -> present sport T md.
Proof.
  intros (Ht & Hm & Ho) HP Hact. destruct (HP Hact) as ([rh Hh] & [ra Ha] & r & Hr & Hodds).
  split; [destruct (Ht _ _ Hh) as (r' & -> & _); eexists; reflexivity|].
  split; [destruct (Ht _ _ Ha) as (r' & -> & _); eexists; reflexivity|].
  destruct (Hm _ _ Hr) as (r' & Hr' & Eid). exists r'. split; [exact Hr'|].
  intros Hp. rewrite Eid. destruct (Hodds Hp) as [o Ho'].
  destruct (Ho _ _ Ho') as (o' & -> & _). eexists; reflexivity.
Qed.

Lemma resolve_team_lookup_eq st n sp sid st' h :
  resolve_entity_fb Team st n sp sid None = (st', h) -> is_Some (teams st' !! (n, sp)).
Proof.
  intros H. destruct (resolve_entity_fb_lookup Team st n sp sid None) as (row & Hr & _).
  rewrite H in Hr. cbn in Hr. rewrite Hr. eexists; reflexivity.
Qed.

Lemma upsert_match_lookup_eq st k f st1 mid im um :
  upsert_match st k f = (st1, mid, im, um) ->
  exists r, matches st1 !! k = Some r /\ match_id r = mid.
Proof.
  unfold upsert_match. intros H. destruct (matches st !! k) as [row|] eqn:Hl.
  - destruct (needs_update row f); injection H as <- <- _ _; cbn.
    + rewrite lookup_insert_eq. eexists; split; reflexivity.
    + eexists; split; [exact Hl | reflexivity].
  - injection H as <- <- _ _. cbn. rewrite lookup_insert_eq. eexists; split; reflexivity.
Qed.

Lemma upsert_odds_lookup_eq st mid ts od st2 io uo :
  upsert_odds st mid ts od = (st2, io, uo) ->
  odds_prices od <> None -> is_Some (odds st2 !! odds_key mid).
Proof.
  rewrite upsert_odds_eq. intros H Hp.
  destruct (odds_prices od) as [[[h d] a]|]; [|congruence].
  destruct (odds st !! odds_key mid) as [o|] eqn:Hl.
  - destruct (odds_differ o h d a); injection H as <- _ _; cbn.
    + rewrite lookup_insert_eq. eexists; reflexivity.
    + rewrite Hl. eexists; reflexivity.
  - injection H as <- _ _. cbn. rewrite lookup_insert_eq. eexists; reflexivity.
Qed.

Lemma match_step_present l sport S md : present sport (fst (match_step l sport S md)) md.
Proof.
  destruct (match_step l sport S md) as [S' d] eqn:Hs. cbn [fst]. intros Hact.
  step_pieces Hs Hact.
  destruct (resolve_team_lookup_eq _ _ _ _ _ _ E1) as [th Hth].
  destruct (resolve_team_lookup_eq _ _ _ _ _ _ E2) as [ta Hta].
  destruct (upsert_match_lookup_eq _ _ _ _ _ _ _ E3) as (r & Hr & Hid).
  pose proof (upsert_odds_lookup_eq _ _ _ _ _ _ _ E4) as Ho.
  split; [|split].
  - assert (Hp : persists sth S') by pchain. destruct Hp as (Ht & _).
    destruct (Ht _ _ Hth) as (r' & -> & _). eexists; reflexivity.
  - assert (Hp : persists sta S') by pchain. destruct Hp as (Ht & _).
    destruct (Ht _ _ Hta) as (r' & -> & _). eexists; reflexivity.
  - assert (Hp : persists st1 S') by pchain. destruct Hp as (_ & Hm & _).
    destruct (Hm _ _ Hr) as (r' & Hr' & Eid). exists r'. split; [exact Hr'|].
    rewrite Eid, Hid. exact Ho.
Qed.

Lemma run_db_present l sport S data md : In md data -> present sport (run_db l sport S data) md.
Proof.
  revert S. induction data as [|x data IH]; intros S Hin; [destruct Hin|].
  rewrite run_db_cons. destruct Hin as [->|Hin]; [|apply IH, Hin].
  eapply present_persist; [apply run_db_persists | apply match_step_present].
Qed.


Lemma resolve_team_found_ids st n sp sid st' h row :
  teams st !! (n, sp) = Some row -> resolve_entity_fb Team st n sp sid None = (st', h) ->
  next_team_id st' = next_team_id st.
Proof.
  intros Hl H. rewrite (resolve_entity_fb_found Team _ _ _ _ _ _ Hl) in H.
  injection H as <- _; reflexivity.
Qed.

Lemma upsert_match_found st k f st1 mid im um r :
  matches st !! k = Some r -> upsert_match st k f = (st1, mid, im, um) ->
  im = 0 /\ mid = match_id r /\ next_match_id st1 = next_match_id st.
Proof.
  intros Hl H. unfold upsert_match in H. rewrite Hl in H.
  destruct (needs_update r f); injection H as <- <- <- _; auto.
Qed.

Lemma upsert_odds_noins st mid ts od st2 io uo :
  (odds_prices od <> None -> is_Some (odds st !! odds_key mid)) ->
  upsert_odds st mid ts od = (st2, io, uo) ->
  io = 0 /\ next_odd_id st2 = next_odd_id st.
Proof.
  rewrite upsert_odds_eq. intros Hp H.
  destruct (odds_prices od) as [[[h d] a]|]; [|injection H as <- <- _; auto].
  destruct Hp as [o Ho]; [discriminate|]. rewrite Ho in H.
  destruct (odds_differ o h d a); injection H as <- <- _; auto.
Qed.

Lemma match_step_present_noins l sport S md S' im um io uo :
  present sport S md -> match_step l sport S md = (S', (im, um, io, uo)) ->
  im = 0 /\ io = 0 /\ next_team_id S' = next_team_id S /\
  next_match_id S' = next_match_id S /\ next_odd_id S' = next_odd_id S.
Proof.
  intros HP Hs. destruct (active sport md) eqn:Hact.
  2: { rewrite match_step_inactive in Hs by exact Hact. injection Hs as <- <- _ <- _. auto. }
  destruct (HP Hact) as ([rh Hh] & [ra Ha] & r & Hr & Hodds).
  step_pieces Hs Hact. injection Ed as -> -> -> ->.
  pose proof (resolve_team_found_ids _ _ _ _ _ _ _ Hh E1) as T1.
  assert (Hp : persists S sth) by pchain. destruct Hp as (Ht & _).
  destruct (Ht _ _ Ha) as (ra' & Ha' & _).
  pose proof (resolve_team_found_ids _ _ _ _ _ _ _ Ha' E2) as T2.
  destruct F1 as (_ & M1 & O1 & _ & NM1 & NO1). destruct F2 as (_ & M2 & O2 & _ & NM2 & NO2).
  destruct F3 as (_ & _ & O3 & _ & NT3 & NO3). destruct F4 as (_ & _ & _ & _ & NT4 & NM4).
  assert (Hr' : matches sta !! match_key md = Some r) by congruence.
  destruct (upsert_match_found _ _ _ _ _ _ _ _ Hr' E3) as (-> & -> & NM3).
  assert (Ho : odds_prices (m_odds md) <> None -> is_Some (odds st1 !! odds_key (match_id r)))
    by (rewrite O3, O2, O1; exact Hodds).
  destruct (upsert_odds_noins _ _ _ _ _ _ _ Ho E4) as (-> & NO4).
  repeat split; congruence.
Qed.

Lemma run_store_noins l sport S cnt data :
  (forall md, In md data -> present sport S md) ->
  n_ins_m (snd (run_store l sport (S, cnt) data)) = n_ins_m cnt /\
  n_ins_o (snd (run_store l sport (S, cnt) data)) = n_ins_o cnt /\
  next_team_id (fst (run_store l sport (S, cnt) data)) = next_team_id S /\
  next_match_id (fst (run_store l sport (S, cnt) data)) = next_match_id S /\
  next_odd_id (fst (run_store l sport (S, cnt) data)) = next_odd_id S.
Proof.
  revert S cnt. induction data as [|md data IH]; intros S cnt HP; [auto|].
  unfold run_store in *. cbn [fold_left].
  pose proof (match_step_persists l sport S md) as Hpers.
  destruct (match_step l sport S md) as [S' [[[im um] io] uo]] eqn:Hs. cbn [fst] in Hpers.
  destruct (match_step_present_noins _ _ _ _ _ _ _ _ _ (HP md (or_introl eq_refl)) Hs)
    as (-> & -> & N1 & N2 & N3).
  destruct (IH S' (add_delta cnt (0, um, 0, uo))) as (C1 & C2 & M1 & M2 & M3).
  { intros md' Hin. eapply present_persist; [exact Hpers | apply HP; right; exact Hin]. }
  rewrite C1, C2, M1, M2, M3. cbn. repeat split; lia.
Qed.


(** ** Two passes of the loop leave the state of one *)

Lemma store_ext S T :
  leagues S = leagues T -> teams S = teams T -> matches S = matches T -> odds S = odds T ->
  next_league_id S = next_league_id T -> next_team_id S = next_team_id T ->
  next_match_id S = next_match_id T -> next_odd_id S = next_odd_id T -> S = T.
Proof. destruct S, T; cbn; intros; subst; reflexivity. Qed.

Lemma match_replay_idem E km L x :
  fold_left (mstep E km) L (fold_left (mstep E km) L x) = fold_left (mstep E km) L x.
Proof.
  apply (replay_idem (fun v => mutable_key (m_fields v)) mutable_key (fun x y => bool_decide (x = y))
           update_match_row (new_match_row (mid_of E km) km)).
  - intros a b H. apply bool_decide_eq_true in H. apply bool_decide_eq_true_2. congruence.
  - intros a b c' H1 H2. apply bool_decide_eq_true in H1, H2. apply bool_decide_eq_true_2. congruence.
  - intros v d. apply bool_decide_eq_true_2. reflexivity.
  - intros d. apply bool_decide_eq_true_2. reflexivity.
  - reflexivity.
  - intros v d. cbn [mstep]. unfold needs_update. destruct (bool_decide _); reflexivity.
  - reflexivity.
Qed.

Lemma odds_replay_idem E ko L x :
  fold_left (ostep E ko) L (fold_left (ostep E ko) L x) = fold_left (ostep E ko) L x.
Proof.
  apply (replay_idem (fun o => (home_odds o, draw_odds o, away_odds o))
           (fun c : Q * Q * Q * option string => (c.1.1.1, c.1.1.2, c.1.2))
           (fun x y : Q * Q * Q => Qeq_bool x.1.1 y.1.1 && Qeq_bool x.1.2 y.1.2 && Qeq_bool x.2 y.2)
           (fun o c => update_odds_row o c.1.1.1 c.1.1.2 c.1.2 c.2)
           (fun c => new_odds_row (oid E ko) ko.1.1 c.1.1.1 c.1.1.2 c.1.2 c.2)).
  - intros [[a1 a2] a3] [[b1 b2] b3]. cbn. rewrite !andb_true_iff.
    intros [[H1 H2] H3]. split; [split|]; apply Qeq_bool_sym; assumption.
  - intros [[a1 a2] a3] [[b1 b2] b3] [[c1 c2] c3]. cbn. rewrite !andb_true_iff.
    intros [[H1 H2] H3] [[H4 H5] H6]. split; [split|]; eapply Qeq_bool_trans; eassumption.
  - intros v d. cbn. rewrite !Qeq_bool_refl. reflexivity.
  - intros d. cbn. rewrite !Qeq_bool_refl. reflexivity.
  - reflexivity.
  - intros v [[[h d] a] ts]. cbn [ostep]. unfold odds_differ. cbn.
    destruct (Qeq_bool (home_odds v) h), (Qeq_bool (draw_odds v) d), (Qeq_bool (away_odds v) a);
      reflexivity.
  - intros [[[h d] a] ts]. reflexivity.
Qed.

Lemma run_db_twice l sport S0 data :
  run_db l sport (run_db l sport S0 data) data = run_db l sport S0 data.
Proof.
  pose proof (run_db_persists l sport (run_db l sport S0 data) data) as P12.
  pose proof (persists_refl (run_db l sport (run_db l sport S0 data) data)) as P22.
  pose proof (run_store_noins l sport (run_db l sport S0 data) zero_counts data
                (fun md Hin => run_db_present l sport S0 data md Hin)) as HN.
  rewrite run_store_fst in HN. destruct HN as (_ & _ & NT & NM & NO).
  destruct (run_db_leagues l sport (run_db l sport S0 data) data) as [L1 NL1].
  apply store_ext; try assumption.
  - apply map_eq. intros kt.
    rewrite (run_db_teams _ l sport (run_db l sport S0 data) data kt P22).
    rewrite (run_db_teams _ l sport S0 data kt P12). apply team_replay_idem.
  - apply map_eq. intros km.
    rewrite (run_db_matches _ l sport (run_db l sport S0 data) data km P22).
    rewrite (run_db_matches _ l sport S0 data km P12). apply match_replay_idem.
  - apply map_eq. intros ko.
    rewrite (run_db_odds _ l sport (run_db l sport S0 data) data ko P22).
    rewrite (run_db_odds _ l sport S0 data ko P12). apply odds_replay_idem.
Qed.


(** ** [process_and_store_matches] with every commit succeeding *)

Lemma pasm_ok commit_ok (Hok : forall s, commit_ok s = true) c data n lc cty sport :
  data <> [] -> String.eqb n "" = false -> String.eqb sport "" = false ->
  db (fst (process_and_store_matches commit_ok c data (Some n) lc cty sport)) =
    run_db (snd (resolve_entity_fb League (db c) n sport lc cty)) sport
           (fst (resolve_entity_fb League (db c) n sport lc cty)) data /\
  snd (process_and_store_matches commit_ok c data (Some n) lc cty sport) =
    counts_tuple (snd (run_store (snd (resolve_entity_fb League (db c) n sport lc cty)) sport
                         (fst (resolve_entity_fb League (db c) n sport lc cty), zero_counts) data)).
Proof.
  intros Hd Hn Hs. unfold process_and_store_matches.
  destruct data as [|md0 rest]; [congruence|].
  rewrite (get_or_create_fb_ok _ Hok) by assumption.
  destruct (fold_process_match_ok commit_ok Hok (snd (resolve_entity_fb League (db c) n sport lc cty))
              sport (md0 :: rest)
              {| db := fst (resolve_entity_fb League (db c) n sport lc cty);
                 durable := fst (resolve_entity_fb League (db c) n sport lc cty);
                 commit_log := commit_log c ++ [true] |} zero_counts) as [D C].
  cbn [db] in D, C.
  destruct (fold_left _ (md0 :: rest) _) as [c2 cnt]. cbn [fst snd] in D, C.
  unfold commit. rewrite Hok. cbn [fst snd db]. rewrite D, C, run_store_fst. split; reflexivity.
Qed.

Lemma pasm_no_league commit_ok c data ln lc cty sport :
  match ln with Some n => String.eqb n "" || String.eqb sport "" = true | None => True end ->
  process_and_store_matches commit_ok c data ln lc cty sport = (c, (0, 0, 0, 0)).
Proof.
  intros H. unfold process_and_store_matches.
  destruct data; [reflexivity|]. unfold get_or_create_entity_id_fb.
  destruct ln as [n|]; [rewrite H|]; reflexivity.
Qed.


(** ** A second pass over a batch of distinct keys changes nothing *)

Lemma flat_map_nil_all {A B} (g : A -> list B) l :
  (forall y, In y l -> g y = []) -> flat_map g l = [].
Proof.
  induction l as [|y l IH]; intros H; [reflexivity|]. cbn [flat_map].
  rewrite (H y (or_introl eq_refl)), IH; [reflexivity|]. intros z Hz. apply H. right. exact Hz.
Qed.

(** In a list whose selected elements have distinct keys, the events of an
    element's key come from that element only. *)
Lemma flat_map_unique {A B K} (P : A -> bool) (key : A -> K) (g : A -> list B) data md :
  NoDup (map key (List.filter P data)) -> In md data -> P md = true ->
  (forall x, In x data -> g x <> [] -> P x = true /\ key x = key md) ->
  flat_map g data = g md.
Proof.
  revert md. induction data as [|x data IH]; intros md Hnd Hin Hp Hg; [destruct Hin|].
  assert (Hnd' : NoDup (map key (List.filter P data))).
  { cbn [List.filter] in Hnd. destruct (P x); [cbn [map] in Hnd; apply NoDup_cons in Hnd; apply Hnd|exact Hnd]. }
  assert (Hout : forall y, In y data -> P x = true -> key y = key x -> P y = true -> False).
  { intros y Hy Hpx Hk Hpy. cbn [List.filter] in Hnd. rewrite Hpx in Hnd. cbn [map] in Hnd.
    apply NoDup_cons in Hnd as [Hni _]. apply Hni. apply list_elem_of_In. rewrite <- Hk. apply in_map, List.filter_In. auto. }
  cbn [flat_map]. destruct Hin as [<-|Hin].
  - rewrite (flat_map_nil_all g data), app_nil_r; [reflexivity|].
    intros y Hy. destruct (g y) as [|b l] eqn:E; [reflexivity|]. exfalso.
    destruct (Hg y (or_intror Hy)) as [Hpy Hky]; [rewrite E; discriminate|].
    exact (Hout y Hy Hp Hky Hpy).
  - destruct (g x) as [|b l] eqn:Ex.
    + cbn [app]. apply IH; auto. intros y Hy. apply Hg. right. exact Hy.
    + exfalso. destruct (Hg x (or_introl eq_refl)) as [Hpx Hkx]; [rewrite Ex; discriminate|].
      exact (Hout md Hin Hpx (eq_sym Hkx) Hp).
Qed.

Lemma mids_ok_sub S T :
  (forall k r, matches T !! k = Some r -> exists r0, matches S !! k = Some r0 /\ match_id r0 = match_id r) ->
  next_match_id T = next_match_id S -> mids_ok S -> mids_ok T.
Proof.
  intros Hs Hn [H1 H2]. split.
  - intros k r Hk. destruct (Hs k r Hk) as (r0 & Hr0 & <-). rewrite Hn. eapply H1; eauto.
  - intros k1 k2 r1 r2 Hk1 Hk2 E.
    destruct (Hs _ _ Hk1) as (r1' & Hr1 & E1). destruct (Hs _ _ Hk2) as (r2' & Hr2 & E2).
    eapply H2; [exact Hr1|exact Hr2|congruence].
Qed.

Lemma mids_ok_same S T :
  matches T = matches S -> next_match_id T = next_match_id S -> mids_ok S -> mids_ok T.
Proof. intros Hm Hn. apply mids_ok_sub; [|exact Hn]. intros k r Hk. exists r. rewrite <- Hm. auto. Qed.

Lemma upsert_match_mids st k f st1 mid im um :
  upsert_match st k f = (st1, mid, im, um) -> mids_ok st -> mids_ok st1.
Proof.
  unfold upsert_match. intros H HM. destruct (matches st !! k) as [row|] eqn:Hl.
  - destruct (needs_update row f); injection H as <- _ _ _; [|exact HM].
    apply (mids_ok_sub st); [|reflexivity|exact HM].
    intros k' r Hk. cbn [matches set_matches] in Hk. rewrite lookup_insert in Hk.
    destruct (decide (k = k')) as [<-|Hne].
    + injection Hk as <-. exists row. split; [exact Hl|reflexivity].
    + exists r. auto.
  - injection H as <- _ _ _. destruct HM as [H1 H2]. unfold mids_ok.
    cbn [matches next_match_id bump_match_id set_matches]. split.
    + intros k' r Hk. rewrite lookup_insert in Hk. destruct (decide (k = k')) as [<-|Hne].
      * injection Hk as <-. cbn. lia.
      * specialize (H1 _ _ Hk). lia.
    + intros k1 k2 r1 r2 Hk1 Hk2 E. rewrite lookup_insert in Hk1, Hk2.
      destruct (decide (k = k1)) as [<-|N1], (decide (k = k2)) as [<-|N2]; auto.
      * injection Hk1 as <-. specialize (H1 _ _ Hk2). cbn in E. lia.
      * injection Hk2 as <-. specialize (H1 _ _ Hk1). cbn in E. lia.
      * eapply H2; eauto.
Qed.

Lemma match_step_mids l sport S md : mids_ok S -> mids_ok (fst (match_step l sport S md)).
Proof.
  destruct (match_step l sport S md) as [S' d] eqn:Hs. cbn [fst]. intros HM.
  destruct (active sport md) eqn:Hact.
  - step_pieces Hs Hact.
    destruct F1 as (_ & M1 & _ & _ & N1 & _). destruct F2 as (_ & M2 & _ & _ & N2 & _).
    destruct F4 as (_ & _ & M4 & _ & _ & N4).
    apply (mids_ok_same st1); [exact M4|exact N4|].
    eapply upsert_match_mids; [exact E3|].
    apply (mids_ok_same S); [congruence|congruence|exact HM].
  - rewrite match_step_inactive in Hs by exact Hact. injection Hs as <- _. exact HM.
Qed.

Lemma run_db_mids l sport S data : mids_ok S -> mids_ok (run_db l sport S data).
Proof.
  revert S. induction data as [|md data IH]; intros S HM; [exact HM|].
  rewrite run_db_cons. apply IH, match_step_mids, HM.
Qed.

Lemma resolve_league_mids st n sp sid cty :
  mids_ok st -> mids_ok (fst (resolve_entity_fb League st n sp sid cty)).
Proof.
  apply mids_ok_same; unfold resolve_entity_fb; cbn [entity_table];
    destruct (leagues st !! (n, sp)); reflexivity.
Qed.

Lemma mstep_settled E k x f r : mstep E k x f = Some r -> mutable_key (m_fields r) = mutable_key f.
Proof.
  destruct x as [r0|]; cbn [mstep]; intros H; injection H as <-; [|reflexivity].
  unfold needs_update.
  destruct (bool_decide (mutable_key (m_fields r0) = mutable_key f)) eqn:B; cbn [negb].
  - apply bool_decide_eq_true in B. exact B.
  - reflexivity.
Qed.

Lemma ostep_settled E k x h d a ts o : ostep E k x (h, d, a, ts) = Some o -> odds_differ o h d a = false.
Proof.
  assert (R : forall o', odds_differ (update_odds_row o' h d a ts) h d a = false)
    by (intros o'; unfold odds_differ; cbn; rewrite !Qeq_bool_refl; reflexivity).
  destruct x as [o0|]; cbn [ostep]; intros H; injection H as <-.
  - destruct (odds_differ o0 h d a) eqn:D; [apply R|exact D].
  - unfold odds_differ. cbn. rewrite !Qeq_bool_refl. reflexivity.
Qed.

(** A record the state agrees with is a no-op of the loop body. *)
Lemma settled_step l sport S md : settled sport S md -> match_step l sport S md = (S, (0, 0, 0, 0)).
Proof.
  intros HS. destruct (active sport md) eqn:Hact; [|apply match_step_inactive, Hact].
  destruct (HS Hact) as ([th Hth] & [ta Hta] & r & Hr & Hmk & Ho).
  unfold match_step. rewrite Hact.
  rewrite (resolve_entity_fb_found Team S _ _ _ _ th Hth). cbv iota beta.
  rewrite (resolve_entity_fb_found Team S _ _ _ _ ta Hta). cbv iota beta.
  unfold upsert_match. rewrite Hr.
  unfold needs_update. rewrite bool_decide_eq_true_2 by exact Hmk. cbn [negb]. cbv iota beta.
  rewrite upsert_odds_eq.
  destruct (odds_prices (m_odds md)) as [[[h d] a]|] eqn:Ep; [|reflexivity].
  destruct (Ho h d a eq_refl) as (o & Ho1 & Hd). rewrite Ho1, Hd. reflexivity.
Qed.

Lemma run_store_settled l sport S cnt data :
  (forall md, In md data -> settled sport S md) -> run_store l sport (S, cnt) data = (S, cnt).
Proof.
  revert cnt. induction data as [|md data IH]; intros cnt HS; [reflexivity|].
  unfold run_store in *. cbn [fold_left].
  rewrite (settled_step l sport S md) by (apply HS; left; reflexivity).
  rewrite add_delta_zero. apply IH. intros md' Hin. apply HS. right. exact Hin.
Qed.

(** After one pass over a batch whose active records have distinct keys,
    from a state with well-formed match ids, the state agrees with every
    record of the batch. *)
Lemma run_db_settled l sport S0 data :
  NoDup (map match_key (List.filter (active sport) data)) -> mids_ok S0 ->
  forall md, In md data -> settled sport (run_db l sport S0 data) md.
Proof.
  intros Hnd HM0 md Hin Hact.
  pose proof (run_db_mids l sport S0 data HM0) as HM1.
  pose proof (persists_refl (run_db l sport S0 data)) as P1.
  assert (Hpres : forall x, In x data -> active sport x = true ->
                  exists rx, matches (run_db l sport S0 data) !! match_key x = Some rx).
  { intros x Hx Hax. destruct (run_db_present l sport S0 data x Hx Hax) as (_ & _ & rx & Hrx & _).
    eauto. }
  destruct (run_db_present l sport S0 data md Hin Hact) as (Ht & Ha & r & Hr & _).
  pose proof (run_db_matches (run_db l sport S0 data) l sport S0 data (match_key md) P1) as Hm.
  pose proof (run_db_odds (run_db l sport S0 data) l sport S0 data (odds_key (match_id r)) P1) as Ho.
  set (S1 := run_db l sport S0 data) in *.
  split; [exact Ht|]. split; [exact Ha|]. exists r. split; [exact Hr|]. split.
  - rewrite (flat_map_unique (active sport) match_key _ data md Hnd Hin Hact) in Hm.
    2: { intros x _ Hx. unfold mcands in Hx.
         destruct (active sport x && bool_decide (match_key md = match_key x)) eqn:B; [|congruence].
         apply andb_prop in B as [B1 B2]. apply bool_decide_eq_true in B2.
         split; [exact B1|symmetry; exact B2]. }
    unfold mcands in Hm. rewrite Hact, bool_decide_eq_true_2 in Hm by reflexivity.
    cbn [andb fold_left] in Hm. rewrite Hr in Hm.
    symmetry in Hm. apply mstep_settled in Hm. exact Hm.
  - intros h d a Hp.
    assert (Hid : mid_of S1 (match_key md) = match_id r) by (unfold mid_of; rewrite Hr; reflexivity).
    rewrite (flat_map_unique (active sport) match_key _ data md Hnd Hin Hact) in Ho.
    2: { intros x Hx Hne. unfold ocands in Hne.
         destruct (active sport x) eqn:Ax; [|congruence].
         destruct (odds_prices (m_odds x)) as [[[h' d'] a']|]; [|congruence].
         destruct (bool_decide (odds_key (match_id r) = odds_key (mid_of S1 (match_key x)))) eqn:B;
           [|congruence].
         apply bool_decide_eq_true in B. unfold odds_key in B.
         apply (f_equal (fun q : positive * string * string => q.1.1)) in B. cbn [fst] in B.
         destruct (Hpres x Hx Ax) as (rx & Hrx).
         unfold mid_of in B. rewrite Hrx in B.
         split; [reflexivity|]. destruct HM1 as [_ Hinj]. eapply Hinj; [exact Hrx|exact Hr|congruence]. }
    unfold ocands in Ho. rewrite Hact, Hp, Hid, bool_decide_eq_true_2 in Ho by reflexivity.
    cbn [fold_left] in Ho.
    destruct (ostep S1 (odds_key (match_id r)) (odds S0 !! odds_key (match_id r)) (h, d, a, utcDate md))
      as [o|] eqn:Eo.
    + exists o. split; [exact Ho|]. eapply ostep_settled. exact Eo.
    + unfold ostep in Eo. destruct (odds S0 !! _); discriminate.
Qed.

(** C1 (amended): when every commit succeeds, running
    [process_and_store_matches] a second time on the same batch reports no
    inserted match and no inserted odds, and leaves the working state
    exactly as the first run left it; in particular the number of match
    rows is the same after both runs.  When moreover the records that reach
    the upsert (both team names and [sport] non-empty) have pairwise
    distinct keys [(source_match_id, source_name)], and the stored match ids
    are distinct and below the AUTOINCREMENT counter, the second run
    reports [(0, 0, 0, 0)]: nothing updated either. *)
Theorem rerun_idempotent commit_ok (Hok : forall s, commit_ok s = true) c data ln lc cty sport :
  let c1 := fst (process_and_store_matches commit_ok c data ln lc cty sport) in
  let run2 := process_and_store_matches commit_ok c1 data ln lc cty sport in
  db (fst run2) = db c1 /\ size (matches (db (fst run2))) = size (matches (db c1)) /\
  (exists um uo, snd run2 = (0, um, 0, uo)) /\
  (NoDup (map match_key (List.filter (active sport) data)) -> mids_ok (db c) ->
   snd run2 = (0, 0, 0, 0)).
Proof.
  cbv zeta.
  destruct (decide (data = [])) as [->|Hd].
  { cbn. split; [reflexivity|]. split; [reflexivity|]. split; [exists 0, 0; reflexivity|]. auto. }
  destruct ln as [n|].
  2: { rewrite !pasm_no_league by exact I. cbn [fst snd].
       split; [reflexivity|]. split; [reflexivity|]. split; [exists 0, 0; reflexivity|]. auto. }
  destruct (String.eqb n "" || String.eqb sport "") eqn:Hv.
  { rewrite !pasm_no_league by exact Hv. cbn [fst snd].
    split; [reflexivity|]. split; [reflexivity|]. split; [exists 0, 0; reflexivity|]. auto. }
  apply orb_false_iff in Hv as [Hn Hs].
  destruct (pasm_ok commit_ok Hok c data n lc cty sport Hd Hn Hs) as [D1 _].
  destruct (resolve_entity_fb_lookup League (db c) n sport lc cty) as (row & Hrow & Hid).
  pose proof (resolve_league_mids (db c) n sport lc cty) as HL.
  destruct (process_and_store_matches commit_ok c data (Some n) lc cty sport) as [c1 r1].
  cbn [fst] in *.
  assert (Hnoop : resolve_entity_fb League (db c1) n sport lc cty =
                  (db c1, snd (resolve_entity_fb League (db c) n sport lc cty))).
  { rewrite <- Hid. apply resolve_entity_fb_found.
    cbn [entity_table] in *. rewrite D1, (proj1 (run_db_leagues _ _ _ _)). exact Hrow. }
  destruct (pasm_ok commit_ok Hok c1 data n lc cty sport Hd Hn Hs) as [D2 C2].
  rewrite Hnoop in D2, C2. cbn [fst snd] in D2, C2.
  destruct (process_and_store_matches commit_ok c1 data (Some n) lc cty sport) as [c2 r2].
  cbn [fst snd] in *.
  assert (Hdb : db c2 = db c1) by (rewrite D2, D1; apply run_db_twice).
  split; [exact Hdb|]. split; [rewrite Hdb; reflexivity|].
  assert (HP : forall md, In md data -> present sport (db c1) md)
    by (intros md Hin; rewrite D1; apply run_db_present, Hin).
  destruct (run_store_noins (snd (resolve_entity_fb League (db c) n sport lc cty)) sport (db c1)
              zero_counts data HP) as (I1 & I2 & _).
  split; [rewrite C2; unfold counts_tuple; rewrite I1, I2; cbn; eauto|].
  intros Hnd HM. rewrite C2, run_store_settled; [reflexivity|].
  intros md Hin. rewrite D1. apply run_db_settled; [exact Hnd|apply HL, HM|exact Hin].
Qed.

Lemma rerun_idempotent_witness :
  NoDup (map match_key (List.filter (active "football") [rec_final; rec_noscore])) /\
  mids_ok (db conn0) /\
  (let c1 := fst (process_and_store_matches always_ok conn0 [rec_final; rec_noscore]
                    pl_name pl_code pl_country "football") in
   let run2 := process_and_store_matches always_ok c1 [rec_final; rec_noscore]
                 pl_name pl_code pl_country "football" in
   db (fst run2) = db c1 /\ size (matches (db (fst run2))) = size (matches (db c1)) /\
   snd run2 = (0, 0, 0, 0)).
Proof.
  assert (H1 : NoDup (map match_key (List.filter (active "football") [rec_final; rec_noscore])))
    by (apply (bool_decide_unpack (NoDup (map match_key (List.filter (active "football")
                                                          [rec_final; rec_noscore]))));
        vm_compute; exact I).
  assert (H2 : mids_ok (db conn0)).
  { unfold mids_ok. cbn [db conn0 empty_store matches].
    split; intros *; rewrite lookup_empty; discriminate. }
  split; [exact H1|]. split; [exact H2|].
  destruct (rerun_idempotent always_ok (fun s => eq_refl) conn0 [rec_final; rec_noscore]
              pl_name pl_code pl_country "football") as (D & Z & _ & H).
  split; [exact D|]. split; [exact Z|]. exact (H H1 H2).
Defined.

End UpsertProofs.

(* ===================================================================== *)
(** * Proofs about [utils.py] *)
(* ===================================================================== *)

Module SnakeProofs.
Import Snake.

Ltac leb_facts :=
  repeat match goal with
  | H : _ && _ = true |- _ => apply andb_prop in H; destruct H
  | H : _ || _ = true |- _ => apply orb_prop in H; destruct H
  | H : (_ <=? _)%nat = true |- _ => apply Nat.leb_le in H
  | H : (_ <=? _)%nat = false |- _ => apply Nat.leb_gt in H
  end.

Lemma code_lower_char c :
  is_upper c = true -> code (lower_char c) = (code c + 32)%nat.
Proof.
  intros E. unfold lower_char. rewrite E. unfold code.
  apply Ascii.nat_ascii_embedding. unfold is_upper, code in E. leb_facts. lia.
Qed.

Lemma lower_char_not_upper c : is_upper (lower_char c) = false.
Proof.
  destruct (is_upper c) eqn:E.
  - unfold is_upper at 1. rewrite (code_lower_char c E).
    unfold is_upper in E. leb_facts.
    apply andb_false_iff. right. apply Nat.leb_gt. lia.
  - unfold lower_char. rewrite E. exact E.
Qed.

Lemma lower_char_id c : is_upper c = false -> lower_char c = c.
Proof. intros E. unfold lower_char. rewrite E. reflexivity. Qed.

Lemma replace_char_id a b l :
  Forall (fun c => c <> a) l -> replace_char a b l = l.
Proof.
  intros H. unfold replace_char. induction H as [|c l Hc _ IH]; [reflexivity|].
  simpl. rewrite bool_decide_eq_false_2 by exact Hc. rewrite IH. reflexivity.
Qed.

Lemma replace_seps_ok l :
  Forall (fun c => is_upper c = false) l ->
  Forall (fun c => is_upper c = false /\ c <> " "%char /\ c <> "-"%char /\ c <> "."%char)
    (replace_char "."%char "_"%char (replace_char "-"%char "_"%char (replace_char " "%char "_"%char l))).
Proof.
  intros H. unfold replace_char. rewrite !map_map. apply Forall_map.
  eapply Forall_impl; [exact H|]. intros c Hc. cbn beta.
  repeat case_bool_decide; subst; repeat split; try reflexivity; try congruence.
Qed.

Lemma upper_run_zero m : Forall (fun c => is_upper c = false) m -> upper_run m = O.
Proof. intros H. destruct H as [|c m Hc _]; [reflexivity|]. simpl. rewrite Hc. reflexivity. Qed.

Lemma sub_upper_tail_id l :
  Forall (fun c => is_upper c = false) l -> sub_upper_tail l = l.
Proof.
  intros H.
  assert (Hr : Forall (fun c => is_upper c = false) (reverse l)) by (apply Forall_reverse; exact H).
  unfold sub_upper_tail, upper_suffix_len.
  destruct (reverse l) as [|c r] eqn:E; [rewrite E; reflexivity|].
  inversion Hr as [|c' r' Hc Hrr]; subst.
  case_bool_decide.
  - rewrite reverse_involutive, upper_run_zero by exact Hrr. reflexivity.
  - rewrite E. simpl. rewrite Hc. reflexivity.
Qed.

Lemma sub_lower_upper_id l :
  Forall (fun c => is_upper c = false) l -> sub_lower_upper l = l.
Proof.
  induction l as [|x t IH]; intros H; [reflexivity|].
  inversion H as [|x' t' Hx Ht]; subst.
  destruct t as [|y r]; [reflexivity|].
  inversion Ht as [|y' r' Hy _]; subst.
  change (sub_lower_upper (x :: y :: r)) with
    (if (is_lower x || is_digit x) && is_upper y
     then x :: "_"%char :: y :: sub_lower_upper r
     else x :: sub_lower_upper (y :: r)).
  rewrite Hy, andb_false_r. rewrite IH by exact Ht. reflexivity.
Qed.

Lemma sub_upper_upper_lower_id l :
  Forall (fun c => is_upper c = false) l -> sub_upper_upper_lower l = l.
Proof.
  induction l as [|x t IH]; intros H; [reflexivity|].
  inversion H as [|x' t' Hx Ht]; subst.
  destruct t as [|y [|z r]]; [reflexivity|reflexivity|].
  change (sub_upper_upper_lower (x :: y :: z :: r)) with
    (if is_upper x && is_upper y && is_lower z
     then x :: "_"%char :: y :: z :: sub_upper_upper_lower r
     else x :: sub_upper_upper_lower (y :: z :: r)).
  rewrite Hx. simpl andb. cbv iota. rewrite IH by exact Ht. reflexivity.
Qed.

Ltac leb_cases :=
  repeat match goal with |- context [(?a <=? ?b)%nat] => destruct (Nat.leb_spec0 a b) end;
  simpl; try reflexivity; try lia.

Lemma idchar_facts c :
  (is_lower c || is_digit c || bool_decide (c = "_"%char)) = true ->
  is_space c = false /\ is_upper c = false /\ is_word c = true /\
  c <> " "%char /\ c <> "-"%char /\ c <> "."%char.
Proof.
  intros H. apply orb_prop in H as [H|H]; [apply orb_prop in H as [H|H]|].
  - unfold is_lower in H. leb_facts.
    repeat split; try (intros E; subst c; revert H H0; unfold code; vm_compute; lia);
      unfold is_space, is_upper, is_word, is_lower, is_digit; leb_cases.
  - unfold is_digit in H. leb_facts.
    repeat split; try (intros E; subst c; revert H H0; unfold code; vm_compute; lia);
      unfold is_space, is_upper, is_word, is_lower, is_digit; leb_cases.
  - apply bool_decide_eq_true_1 in H. subst. repeat split; try reflexivity; discriminate.
Qed.

Lemma map_lower_id l : Forall (fun c => is_upper c = false) l -> map lower_char l = l.
Proof.
  intros H. induction H as [|c l Hc _ IH]; [reflexivity|].
  simpl. rewrite lower_char_id by exact Hc. rewrite IH. reflexivity.
Qed.

Lemma drop_space_id l : Forall (fun c => is_space c = false) l -> drop_space l = l.
Proof. intros H. destruct H as [|c l Hc _]; [reflexivity|]. simpl. rewrite Hc. reflexivity. Qed.

Lemma filter_word_id l : Forall (fun c => is_word c = true) l -> List.filter is_word l = l.
Proof.
  intros H. induction H as [|c l Hc _ IH]; [reflexivity|].
  simpl. rewrite Hc, IH. reflexivity.
Qed.

Lemma snake_fixed t :
  Forall (fun c => is_upper c = false /\ c <> " "%char /\ c <> "-"%char /\ c <> "."%char)
    (String.list_ascii_of_string t) ->
  snake t = t.
Proof.
  intros H. unfold snake.
  assert (Hu : Forall (fun c => is_upper c = false) (String.list_ascii_of_string t))
    by (eapply Forall_impl; [exact H|]; intros c Hc; apply Hc).
  rewrite sub_upper_tail_id, sub_lower_upper_id, sub_upper_upper_lower_id, map_lower_id by exact Hu.
  rewrite (replace_char_id " "%char), (replace_char_id "-"%char), (replace_char_id "."%char)
    by (eapply Forall_impl; [exact H|]; intros c Hc; apply Hc).
  apply String.string_of_list_ascii_of_string.
Qed.

Lemma snake_alphabet s :
  Forall (fun c => is_upper c = false /\ c <> " "%char /\ c <> "-"%char /\ c <> "."%char)
    (String.list_ascii_of_string (snake s)).
Proof.
  unfold snake. rewrite String.list_ascii_of_string_of_list_ascii.
  apply replace_seps_ok. apply Forall_map, Forall_forall.
  intros c _. apply lower_char_not_upper.
Qed.

Lemma clean_shape s :
  Forall (fun c => (is_lower c || is_digit c || bool_decide (c = "_"%char)) = true) (clean s) /\
  match clean s with c :: _ => is_digit c = false | [] => True end.
Proof.
  unfold clean. cbv zeta.
  set (l1 := replace_char "."%char "_"%char (replace_char "-"%char "_"%char
    (replace_char " "%char "_"%char (map lower_char (strip (String.list_ascii_of_string s)))))).
  assert (Hs : Forall (fun c => is_upper c = false /\ c <> " "%char /\ c <> "-"%char /\ c <> "."%char) l1).
  { apply replace_seps_ok. apply Forall_map, Forall_forall. intros c _. apply lower_char_not_upper. }
  assert (Hf : Forall (fun c => (is_lower c || is_digit c || bool_decide (c = "_"%char)) = true)
                 (List.filter is_word l1)).
  { apply Forall_forall. intros c Hc. apply list_elem_of_In, filter_In in Hc as [Hin Hw].
    apply list_elem_of_In in Hin.
    rewrite Forall_forall in Hs. destruct (Hs c Hin) as [Hu _].
    unfold is_word in Hw. rewrite Hu in Hw. exact Hw. }
  destruct (List.filter is_word l1) as [|c r] eqn:E; [split; [constructor|exact I]|].
  destruct (is_digit c) eqn:Ed.
  - split; [constructor; [reflexivity|exact Hf]|reflexivity].
  - split; [exact Hf|exact Ed].
Qed.

Lemma clean_ident l :
  Forall (fun c => (is_lower c || is_digit c || bool_decide (c = "_"%char)) = true) l ->
  match l with c :: _ => is_digit c = false | [] => True end ->
  clean (String.string_of_list_ascii l) = l.
Proof.
  intros H Hd.
  assert (F := fun c Hc => idchar_facts c Hc).
  assert (Hsp : Forall (fun c => is_space c = false) l)
    by (eapply Forall_impl; [exact H|]; intros c Hc; apply (F c Hc)).
  unfold clean, strip. cbv zeta. rewrite String.list_ascii_of_string_of_list_ascii.
  rewrite (drop_space_id l Hsp), (drop_space_id (reverse l)) by (apply Forall_reverse; exact Hsp).
  rewrite reverse_involutive.
  rewrite map_lower_id by (eapply Forall_impl; [exact H|]; intros c Hc; apply (F c Hc)).
  rewrite (replace_char_id " "%char), (replace_char_id "-"%char), (replace_char_id "."%char)
    by (eapply Forall_impl; [exact H|]; intros c Hc; apply (F c Hc)).
  rewrite filter_word_id by (eapply Forall_impl; [exact H|]; intros c Hc; apply (F c Hc)).
  destruct l as [|c r]; [reflexivity|]. rewrite Hd. reflexivity.
Qed.

Lemma normalise_column_clean s l :
  clean s = l -> l <> [] -> normalise_column (LStr s) = LStr (String.string_of_list_ascii l).
Proof. intros E Hl. simpl. rewrite E. destruct l; [congruence|reflexivity]. Qed.

Lemma normalise_column_twice s :
  clean s <> [] -> normalise_column (normalise_column (LStr s)) = normalise_column (LStr s).
Proof.
  intros Hne. destruct (clean_shape s) as [Hf Hd].
  rewrite (normalise_column_clean s (clean s) eq_refl Hne).
  apply normalise_column_clean; [apply clean_ident; assumption|exact Hne].
Qed.

Lemma sub_upper_tail_nil l : sub_upper_tail l = [] -> l = [].
Proof.
  unfold sub_upper_tail. repeat case_match; simplify_eq; intros E; try exact E.
  all: apply app_eq_nil in E as [_ E]; discriminate.
Qed.

Lemma sub_lower_upper_nil l : sub_lower_upper l = [] -> l = [].
Proof. destruct l as [|x [|y r]]; simpl; try case_match; congruence. Qed.

Lemma sub_upper_upper_lower_nil l : sub_upper_upper_lower l = [] -> l = [].
Proof. destruct l as [|x [|y [|z r]]]; simpl; try case_match; congruence. Qed.

Lemma snake_nil s : snake s = ""%string -> s = ""%string.
Proof.
  intros E. apply (f_equal String.list_ascii_of_string) in E. revert E.
  unfold snake. rewrite String.list_ascii_of_string_of_list_ascii. unfold replace_char.
  intros E. simpl in E.
  apply map_eq_nil, map_eq_nil, map_eq_nil, map_eq_nil in E.
  apply sub_upper_upper_lower_nil, sub_lower_upper_nil, sub_upper_tail_nil in E.
  rewrite <- (String.string_of_list_ascii_of_string s), E. reflexivity.
Qed.

(** [to_snake_case]: a string label comes back with no ASCII capital
    letter, no space, no hyphen and no dot. *)
Theorem to_snake_case_alphabet s :
  exists t, to_snake_case (LStr s) = LStr t /\
  Forall (fun c => is_upper c = false /\ c <> " "%char /\ c <> "-"%char /\ c <> "."%char)
    (String.list_ascii_of_string t).
Proof. exists (snake s). split; [reflexivity|apply snake_alphabet]. Qed.

(** [to_snake_case] is idempotent, on string labels and on the others. *)
Theorem to_snake_case_idempotent x : to_snake_case (to_snake_case x) = to_snake_case x.
Proof. destruct x as [s|z]; [|reflexivity]. simpl. rewrite (snake_fixed (snake s) (snake_alphabet s)). reflexivity. Qed.



(** [normalise_dataframe_columns] is idempotent on a frame whose string
    columns are ASCII names with a non-empty cleaned form; non-string
    columns are kept. *)
Theorem normalise_dataframe_columns_idempotent cols :
  Forall (fun x => match x with LStr s => ascii_text s /\ clean s <> [] | LOther _ => True end) cols ->
  normalise_dataframe_columns (normalise_dataframe_columns cols) = normalise_dataframe_columns cols.
Proof.
  intros H. unfold normalise_dataframe_columns. rewrite map_map.
  induction H as [|x cols Hx _ IH]; [reflexivity|]. simpl. rewrite IH. f_equal.
  destruct x as [s|z]; [|reflexivity]. apply normalise_column_twice, Hx.
Qed.

Lemma normalise_dataframe_columns_idempotent_witness :
  Forall (fun x => match x with LStr s => ascii_text s /\ clean s <> [] | LOther _ => True end)
    [LStr "FTHG"; LOther 7; LStr " 1st Half.Goals "] /\
  normalise_dataframe_columns (normalise_dataframe_columns [LStr "FTHG"; LOther 7; LStr " 1st Half.Goals "])
  = normalise_dataframe_columns [LStr "FTHG"; LOther 7; LStr " 1st Half.Goals "].
Proof.
  assert (H : Forall (fun x => match x with LStr s => ascii_text s /\ clean s <> [] | LOther _ => True end)
    [LStr "FTHG"; LOther 7; LStr " 1st Half.Goals "]).
  { repeat constructor; try (unfold ascii_text; apply (bool_decide_unpack _); vm_compute; reflexivity);
    vm_compute; discriminate. }
  split; [exact H|]. apply (normalise_dataframe_columns_idempotent _ H).
Defined.

(** [normalise_dataframe_columns]: a string column gets the empty name
    exactly when its name is empty; otherwise the cleaned name or the
    [to_snake_case] fallback is non-empty. *)
Theorem normalise_column_empty s :
  normalise_column (LStr s) = LStr ""%string <-> s = ""%string.
Proof.
  split; [|intros ->; reflexivity].
  simpl. destruct (clean s) as [|c r]; intros E; [|discriminate].
  apply snake_nil. congruence.
Qed.

End SnakeProofs.

(* ===================================================================== *)
(** * More properties of [get_team_form_features] and
      [engineer_form_features] *)
(* ===================================================================== *)

Module FormMoreProofs.
Import Form FormProofs FormEng.
Local Open Scope Z_scope.

(** ** Rows outside the selection *)

Lemma gtff_drop_row t c rows1 rows2 r hasu n v :
  team_filter t (Some c) v r = false ->
  get_team_form_features (Some t) (Some (DateOk c))
    {| df_rows := rows1 ++ r :: rows2; df_has_utcDate := hasu |} n v =
  get_team_form_features (Some t) (Some (DateOk c))
    {| df_rows := rows1 ++ rows2; df_has_utcDate := hasu |} n v.
Proof.
  intros Hr. destruct hasu.
  - rewrite !get_team_form_features_eq by reflexivity. simpl df_rows.
    rewrite !List.filter_app. simpl. rewrite Hr. reflexivity.
  - unfold get_team_form_features. simpl df_rows. simpl df_has_utcDate.
    destruct (rows1 ++ r :: rows2) eqn:E; [destruct rows1; discriminate|].
    destruct (rows1 ++ rows2); reflexivity.
Qed.

Lemma late_row_unselected t c v r h :
  h_utcDate r = Some h -> c <= h -> team_filter t (Some c) v r = false.
Proof.
  intros Hd Hc. unfold team_filter, base_filter, ts_lt. rewrite Hd.
  replace (h <? c) with false by (symmetry; apply Z.ltb_ge; lia).
  rewrite andb_false_r. reflexivity.
Qed.

(** ** Unknown venue strings *)

Lemma gtff_unknown_venue tid md df n v :
  v <> "home"%string -> v <> "away"%string ->
  get_team_form_features tid md df n (Some v) = get_team_form_features tid md df n None.
Proof.
  intros Hh Ha. apply String.eqb_neq in Hh, Ha.
  unfold get_team_form_features, team_filter, venue_filter. rewrite Hh, Ha. reflexivity.
Qed.

(** ** The loop depends on the multiset of rows *)

Lemma add4_comm a b : add4 a b = add4 b a.
Proof.
  destruct a as [[[a1 a2] a3] a4], b as [[[b1 b2] b3] b4]. simpl. solve_tuple.
Qed.

Lemma sum_delta_app t l1 l2 :
  sum_delta t (l1 ++ l2) = add4 (sum_delta t l1) (sum_delta t l2).
Proof.
  induction l1 as [|r l1 IH]; simpl.
  - destruct (sum_delta t l2) as [[[a b] c] d]. simpl. solve_tuple.
  - rewrite IH. symmetry. apply add4_assoc.
Qed.

Lemma sum_delta_perm t l1 l2 : l1 ≡ₚ l2 -> sum_delta t l1 = sum_delta t l2.
Proof.
  induction 1 as [|r l1 l2 _ IH|r1 r2 l|l1 l2 l3 _ IH1 _ IH2]; simpl.
  - reflexivity.
  - rewrite IH. reflexivity.
  - rewrite <- !add4_assoc, (add4_comm (row_delta t r2)). reflexivity.
  - congruence.
Qed.

Lemma count_outcomes_sum t l :
  count_outcomes t l =
  let '(w, d, lo, g) := sum_delta t l in
  {| form_W := w; form_D := d; form_L := lo; form_games_played := Z.of_nat (length l) + g |}.
Proof.
  unfold count_outcomes. rewrite fold_classify.
  destruct (sum_delta t l) as [[[w d] lo] g]. simpl. f_equal; lia.
Qed.

Lemma count_outcomes_perm t l1 l2 : l1 ≡ₚ l2 -> count_outcomes t l1 = count_outcomes t l2.
Proof.
  intros P. rewrite !count_outcomes_sum, (sum_delta_perm t _ _ P), (Permutation_length P).
  reflexivity.
Qed.

Lemma list_filter_perm (f : hist_row -> bool) l1 l2 :
  l1 ≡ₚ l2 -> List.filter f l1 ≡ₚ List.filter f l2.
Proof.
  induction 1 as [|r l1 l2 _ IH|r1 r2 l|l1 l2 l3 _ IH1 _ IH2]; simpl.
  - reflexivity.
  - destruct (f r); [constructor|]; exact IH.
  - destruct (f r1), (f r2); try reflexivity. constructor.
  - etrans; eassumption.
Qed.

(** ** Home and away windows partition the overall window *)

Lemma venue_partition t c rows :
  Forall (fun r => ~ (h_home_team_id r = t /\ h_away_team_id r = t)) rows ->
  List.filter (team_filter t (Some c) (Some "home"%string)) rows ++
  List.filter (team_filter t (Some c) (Some "away"%string)) rows
  ≡ₚ List.filter (team_filter t (Some c) None) rows.
Proof.
  induction 1 as [|r rows Hr _ IH]; [reflexivity|]. simpl.
  assert (Eh : team_filter t (Some c) (Some "home"%string) r
               = base_filter t (Some c) r && (h_home_team_id r =? t)) by reflexivity.
  assert (Ea : team_filter t (Some c) (Some "away"%string) r
               = base_filter t (Some c) r && (h_away_team_id r =? t)) by reflexivity.
  assert (Eo : team_filter t (Some c) None r = base_filter t (Some c) r)
    by (unfold team_filter; simpl; apply andb_true_r).
  rewrite Eh, Ea, Eo.
  destruct (base_filter t (Some c) r) eqn:B; simpl; [|exact IH].
  unfold base_filter in B. apply andb_prop in B as [B _]. apply andb_prop in B as [B _].
  apply orb_prop in B.
  destruct (Z.eqb_spec (h_home_team_id r) t), (Z.eqb_spec (h_away_team_id r) t);
    [tauto| | |destruct B; discriminate].
  - simpl. constructor. exact IH.
  - simpl. rewrite <- Permutation_middle. constructor. exact IH.
Qed.

Lemma filter_venue_length t c v rows :
  (length (List.filter (team_filter t (Some c) v) rows)
   <= length (List.filter (team_filter t (Some c) None) rows))%nat.
Proof.
  induction rows as [|r rows IH]; [simpl; lia|]. simpl.
  assert (Eo : team_filter t (Some c) None r = base_filter t (Some c) r)
    by (unfold team_filter; simpl; apply andb_true_r).
  rewrite Eo. unfold team_filter at 1.
  destruct (base_filter t (Some c) r); simpl; [|exact IH].
  destruct (venue_filter t v r); simpl; lia.
Qed.

Lemma length_sort_desc l : length (sort_desc l) = length l.
Proof. apply Permutation_length, sort_desc_perm. Qed.

Lemma head_all n l : Z.of_nat (length l) <= n -> head n l = l.
Proof.
  intros H. rewrite head_take by lia. apply take_ge. lia.
Qed.

(** ** A descending order with distinct timestamps is unique *)

Lemma ts_ge_refl a : ts_ge a a = true.
Proof. destruct a; simpl; [apply Z.leb_refl|reflexivity]. Qed.

Lemma ts_ge_trans a b c : ts_ge a b = true -> ts_ge b c = true -> ts_ge a c = true.
Proof.
  destruct a as [x|], b as [y|], c as [z|]; simpl; try done.
  rewrite !Z.leb_le. lia.
Qed.

Lemma ts_ge_antisym a b : ts_ge a b = true -> ts_ge b a = true -> a = b.
Proof.
  destruct a as [x|], b as [y|]; simpl; try done.
  rewrite !Z.leb_le. intros. f_equal. lia.
Qed.

Lemma desc_rel_trans : Relations_1.Transitive desc_rel.
Proof. intros a b c. unfold desc_rel. apply ts_ge_trans. Qed.

Lemma sorted_perm_unique l1 l2 :
  StronglySorted desc_rel l1 -> StronglySorted desc_rel l2 -> l1 ≡ₚ l2 ->
  NoDup (map h_utcDate l1) -> l1 = l2.
Proof.
  revert l2. induction l1 as [|x r1 IH]; intros l2 S1 S2 P Nd.
  - symmetry. apply Permutation_nil. exact P.
  - destruct l2 as [|y r2]; [symmetry in P; apply Permutation_nil in P; discriminate|].
    apply StronglySorted_inv in S1 as [S1 F1]. apply StronglySorted_inv in S2 as [S2 F2].
    rewrite Forall_forall in F1, F2.
    assert (Hx : x ∈ y :: r2) by (rewrite <- P; left).
    assert (Hy : y ∈ x :: r1) by (rewrite P; left).
    assert (Gyx : desc_rel y x).
    { apply elem_of_cons in Hx as [->|Hx]; [apply ts_ge_refl|exact (F2 x Hx)]. }
    assert (Gxy : desc_rel x y).
    { apply elem_of_cons in Hy as [->|Hy]; [apply ts_ge_refl|exact (F1 y Hy)]. }
    pose proof (ts_ge_antisym _ _ Gxy Gyx) as Eq.
    simpl in Nd. apply NoDup_cons in Nd as [Nx Nd].
    assert (x = y) as <-.
    { apply elem_of_cons in Hy as [->|Hy]; [reflexivity|].
      exfalso. apply Nx. rewrite Eq. apply list_elem_of_In, in_map, list_elem_of_In. exact Hy. }
    f_equal. apply IH; [exact S1|exact S2| |exact Nd].
    apply Permutation_cons_inv in P. exact P.
Qed.

(** ** Properties *)

(** [get_team_form_features]: a history row that the filters drop (another
    team's match, a match at or after the cutoff, a NaT date, or a match on
    the other venue) can be added or removed anywhere in the frame without
    changing the result. *)
Theorem get_team_form_features_unselected_row t c rows1 rows2 r hasu n v :
  team_filter t (Some c) v r = false ->
  get_team_form_features (Some t) (Some (DateOk c))
    {| df_rows := rows1 ++ r :: rows2; df_has_utcDate := hasu |} n v =
  get_team_form_features (Some t) (Some (DateOk c))
    {| df_rows := rows1 ++ rows2; df_has_utcDate := hasu |} n v.
Proof. apply gtff_drop_row. Qed.

Lemma get_team_form_features_unselected_row_witness :
  let r := {| h_home_team_id := 11; h_away_team_id := 12; h_home_team_score := Some 3;
              h_away_team_score := Some 0; h_utcDate := Some 2 |} in
  team_filter 10 (Some 4) None r = false /\
  get_team_form_features (Some 10) (Some (DateOk 4))
    {| df_rows := df_rows scenario_history ++ r :: []; df_has_utcDate := true |} 5 None =
  get_team_form_features (Some 10) (Some (DateOk 4))
    {| df_rows := df_rows scenario_history ++ []; df_has_utcDate := true |} 5 None.
Proof.
  intros r. assert (H : team_filter 10 (Some 4) None r = false) by reflexivity.
  split; [exact H|]. apply (get_team_form_features_unselected_row 10 4 _ _ r true 5 None H).
Defined.

(** [get_team_form_features]: when the selected rows have pairwise distinct
    timestamps, the result does not depend on the order of the rows of the
    history frame. *)
Theorem get_team_form_features_row_order t c rows rows' hasu n v :
  rows ≡ₚ rows' ->
  NoDup (map h_utcDate (List.filter (team_filter t (Some c) v) rows)) ->
  get_team_form_features (Some t) (Some (DateOk c)) {| df_rows := rows; df_has_utcDate := hasu |} n v =
  get_team_form_features (Some t) (Some (DateOk c)) {| df_rows := rows'; df_has_utcDate := hasu |} n v.
Proof.
  intros P Nd. destruct hasu.
  - rewrite !get_team_form_features_eq by reflexivity. simpl df_rows.
    do 2 f_equal. apply sorted_perm_unique.
    + apply Sorted_StronglySorted; [exact desc_rel_trans|apply sort_desc_sorted].
    + apply Sorted_StronglySorted; [exact desc_rel_trans|apply sort_desc_sorted].
    + rewrite !sort_desc_perm. apply list_filter_perm. exact P.
    + rewrite sort_desc_perm. exact Nd.
  - unfold get_team_form_features. simpl df_rows. simpl df_has_utcDate.
    destruct rows as [|r0 rows], rows' as [|r1 rows']; reflexivity.
Qed.

Lemma get_team_form_features_row_order_witness :
  let rows := df_rows scenario_history in
  let rows' := match rows with a :: b :: l => b :: a :: l | l => l end in
  rows ≡ₚ rows' /\
  NoDup (map h_utcDate (List.filter (team_filter 10 (Some 4) None) rows)) /\
  get_team_form_features (Some 10) (Some (DateOk 4)) {| df_rows := rows; df_has_utcDate := true |} 2 None =
  get_team_form_features (Some 10) (Some (DateOk 4)) {| df_rows := rows'; df_has_utcDate := true |} 2 None.
Proof.
  intros rows rows'.
  assert (P : rows ≡ₚ rows') by (simpl; constructor).
  assert (Nd : NoDup (map h_utcDate (List.filter (team_filter 10 (Some 4) None) rows)))
    by (apply (bool_decide_unpack _); vm_compute; reflexivity).
  split; [exact P|split; [exact Nd|]].
  apply (get_team_form_features_row_order 10 4 rows rows' true 2 None P Nd).
Defined.

(** [get_team_form_features]: a venue string other than ['home'] and
    ['away'] selects the same rows as no venue, so the counts are those of
    the overall form (only the key prefix differs). *)
Theorem get_team_form_features_unknown_venue tid md df n v :
  v <> "home"%string -> v <> "away"%string ->
  get_team_form_features tid md df n (Some v) = get_team_form_features tid md df n None.
Proof. apply gtff_unknown_venue. Qed.

Lemma get_team_form_features_unknown_venue_witness :
  "neutral"%string <> "home"%string /\ "neutral"%string <> "away"%string /\
  get_team_form_features (Some 10) (Some (DateOk 4)) scenario_history 5 (Some "neutral"%string) =
  get_team_form_features (Some 10) (Some (DateOk 4)) scenario_history 5 None.
Proof.
  assert (H1 : "neutral"%string <> "home"%string) by discriminate.
  assert (H2 : "neutral"%string <> "away"%string) by discriminate.
  split; [exact H1|split; [exact H2|]].
  apply (get_team_form_features_unknown_venue _ _ _ _ _ H1 H2).
Defined.

(** [get_team_form_features]: when the window is at least the number of
    selected rows and the team never plays itself, its home form and its
    away form add up, field by field, to its overall form. *)
Theorem get_team_form_features_venue_split t c df n :
  df_has_utcDate df = true ->
  Forall (fun r => ~ (h_home_team_id r = t /\ h_away_team_id r = t)) (df_rows df) ->
  Z.of_nat (length (List.filter (team_filter t (Some c) None) (df_rows df))) <= n ->
  let H := get_team_form_features (Some t) (Some (DateOk c)) df n (Some "home"%string) in
  let A := get_team_form_features (Some t) (Some (DateOk c)) df n (Some "away"%string) in
  let O := get_team_form_features (Some t) (Some (DateOk c)) df n None in
  form_W H + form_W A = form_W O /\ form_D H + form_D A = form_D O /\
  form_L H + form_L A = form_L O /\
  form_games_played H + form_games_played A = form_games_played O.
Proof.
  intros Hu Hself Hn. cbv zeta.
  rewrite !get_team_form_features_eq by exact Hu.
  pose proof (filter_venue_length t c (Some "home"%string) (df_rows df)) as Lh.
  pose proof (filter_venue_length t c (Some "away"%string) (df_rows df)) as La.
  rewrite !head_all by (rewrite length_sort_desc; lia).
  rewrite !(count_outcomes_perm t (sort_desc _) _ (sort_desc_perm _)).
  rewrite <- (count_outcomes_perm t _ _ (venue_partition t c _ Hself)).
  rewrite !count_outcomes_sum, sum_delta_app, length_app.
  destruct (sum_delta t (List.filter (team_filter t (Some c) (Some "home"%string)) (df_rows df)))
    as [[[w1 d1] l1] g1].
  destruct (sum_delta t (List.filter (team_filter t (Some c) (Some "away"%string)) (df_rows df)))
    as [[[w2 d2] l2] g2].
  simpl. lia.
Qed.

Lemma get_team_form_features_venue_split_witness :
  df_has_utcDate scenario_history = true /\
  Forall (fun r => ~ (h_home_team_id r = 10 /\ h_away_team_id r = 10)) (df_rows scenario_history) /\
  Z.of_nat (length (List.filter (team_filter 10 (Some 4) None) (df_rows scenario_history))) <= 3 /\
  let H := get_team_form_features (Some 10) (Some (DateOk 4)) scenario_history 3 (Some "home"%string) in
  let A := get_team_form_features (Some 10) (Some (DateOk 4)) scenario_history 3 (Some "away"%string) in
  let O := get_team_form_features (Some 10) (Some (DateOk 4)) scenario_history 3 None in
  form_W H + form_W A = form_W O /\ form_D H + form_D A = form_D O /\
  form_L H + form_L A = form_L O /\
  form_games_played H + form_games_played A = form_games_played O.
Proof.
  assert (H1 : df_has_utcDate scenario_history = true) by reflexivity.
  assert (H2 : Forall (fun r => ~ (h_home_team_id r = 10 /\ h_away_team_id r = 10))
                 (df_rows scenario_history)) by (repeat constructor; simpl; lia).
  assert (H3 : Z.of_nat (length (List.filter (team_filter 10 (Some 4) None)
                 (df_rows scenario_history))) <= 3) by (apply Z.leb_le; reflexivity).
  split; [exact H1|split; [exact H2|split; [exact H3|]]].
  apply (get_team_form_features_venue_split 10 4 scenario_history 3 H1 H2 H3).
Defined.

Lemma gtff_nat_date t df n v :
  get_team_form_features (Some t) (Some DateNaT) df n v = default_form.
Proof.
  unfold get_team_form_features.
  destruct (df_rows df) as [|r0 rows]; [reflexivity|]. cbv iota.
  destruct (df_has_utcDate df); [|reflexivity]. simpl negb. cbv iota.
  assert (F : forall l, List.filter (team_filter t None v) l = []).
  { induction l as [|r l IH]; [reflexivity|]. simpl.
    unfold team_filter at 1, base_filter, ts_lt.
    destruct (h_utcDate r); rewrite ?andb_false_r; simpl; exact IH. }
  rewrite F. reflexivity.
Qed.

Lemma gtff_invalid_date t df n v :
  get_team_form_features (Some t) (Some DateInvalid) df n v = default_form.
Proof. unfold get_team_form_features. destruct (df_rows df); reflexivity. Qed.

(** The cutoff [get_team_form_features] compares history rows with, for a
    row of [processed_matches_df]: the parsed date, if any. *)
Lemma row_features_drop hist_rows1 hist_rows2 hasu r h n m :
  h_utcDate r = Some h ->
  match match_date_parse (p_utcDate m) with Some (DateOk c) => c <= h | _ => True end ->
  row_features {| df_rows := hist_rows1 ++ r :: hist_rows2; df_has_utcDate := hasu |} n m =
  row_features {| df_rows := hist_rows1 ++ hist_rows2; df_has_utcDate := hasu |} n m.
Proof.
  intros Hr Hm. unfold row_features.
  destruct (match_date_parse (p_utcDate m)) as [[c| |]|]; [| | |reflexivity].
  - rewrite !gtff_drop_row by (eapply late_row_unselected; [exact Hr|exact Hm]).
    reflexivity.
  - rewrite !gtff_nat_date. reflexivity.
  - rewrite !gtff_invalid_date. reflexivity.
Qed.

(** [engineer_form_features]: a [pd.Timestamp] [utcDate] gives the cutoff
    midnight of its match day, any other value its full parsed date
    ([str(match_date)]); a history row dated at or after the cutoff of
    every match of the frame (for a Timestamp, an earlier kick-off on the
    same day included) can be added or removed without changing any
    engineered feature. *)
Theorem engineer_form_features_late_history_row df rows1 rows2 hasu r h n :
  h_utcDate r = Some h ->
  Forall (fun m => match p_utcDate m with
                   | UTimestamp t => day_of t <= h
                   | UOther (DateOk c) => c <= h
                   | _ => True
                   end) (p_rows df) ->
  engineer_form_features df {| df_rows := rows1 ++ r :: rows2; df_has_utcDate := hasu |} n =
  engineer_form_features df {| df_rows := rows1 ++ rows2; df_has_utcDate := hasu |} n.
Proof.
  intros Hr Hall. unfold engineer_form_features.
  destruct (p_rows df) as [|m ms]; [reflexivity|].
  destruct (p_has_required df); simpl negb; cbv iota; [|reflexivity].
  f_equal. induction Hall as [|m' ms' Hm _ IH]; [reflexivity|]. simpl. f_equal; [|exact IH].
  apply (row_features_drop _ _ _ r h); [exact Hr|]. revert Hm.
  destruct (p_utcDate m') as [|t|[c| |]]; simpl; auto.
Qed.

Lemma engineer_form_features_late_history_row_witness :
  let df := {| p_rows := [ {| p_home_team_id := 10; p_away_team_id := 11; p_utcDate := UTimestamp 90000 |};
                           {| p_home_team_id := 11; p_away_team_id := 12; p_utcDate := UOther (DateOk 86000) |} ];
               p_has_required := true |} in
  let r := {| h_home_team_id := 10; h_away_team_id := 11; h_home_team_score := Some 1;
              h_away_team_score := Some 0; h_utcDate := Some 86500 |} in
  h_utcDate r = Some 86500 /\
  Forall (fun m => match p_utcDate m with
                   | UTimestamp t => day_of t <= 86500
                   | UOther (DateOk c) => c <= 86500
                   | _ => True
                   end) (p_rows df) /\
  engineer_form_features df {| df_rows := [] ++ r :: []; df_has_utcDate := true |} 5 =
  engineer_form_features df {| df_rows := [] ++ []; df_has_utcDate := true |} 5.
Proof.
  intros df r.
  assert (H1 : h_utcDate r = Some 86500) by reflexivity.
  assert (H2 : Forall (fun m => match p_utcDate m with
                                | UTimestamp t => day_of t <= 86500
                                | UOther (DateOk c) => c <= 86500
                                | _ => True
                                end) (p_rows df))
    by (repeat constructor; simpl; apply Z.leb_le; reflexivity).
  split; [exact H1|split; [exact H2|]].
  apply (engineer_form_features_late_history_row df [] [] true r 86500 5 H1 H2).
Defined.

End FormMoreProofs.

(* ===================================================================== *)
(** * Proofs about the importers *)
(* ===================================================================== *)

Module ImporterProofs.
Import Kaggle Importer.

(** ** Lookups *)

Lemma idb_le_refl db : idb_le db db.
Proof. repeat split; reflexivity. Qed.

Lemma idb_le_trans a b c : idb_le a b -> idb_le b c -> idb_le a c.
Proof. intros (?&?&?) (?&?&?). repeat split; etrans; eassumption. Qed.

Lemma league_le db x y c s db1 o :
  get_or_create_league db x y c s = (db1, o) -> idb_le db db1.
Proof.
  unfold get_or_create_league. intros H.
  destruct x as [n|], y as [sp|]; try (injection H as <- _; apply idb_le_refl).
  destruct (i_leagues db !! (n, sp)) eqn:E; injection H as <- _; [apply idb_le_refl|].
  repeat split; simpl; [apply insert_subseteq; exact E|reflexivity|reflexivity].
Qed.

Lemma team_le db x c l s db1 o :
  get_or_create_team db x c l s = (db1, o) -> idb_le db db1.
Proof.
  unfold get_or_create_team. intros H.
  destruct x as [n|]; [|injection H as <- _; apply idb_le_refl].
  destruct (i_teams db !! n) eqn:E; injection H as <- _; [apply idb_le_refl|].
  repeat split; simpl; [reflexivity|apply insert_subseteq; exact E|reflexivity].
Qed.

Lemma insert_or_ignore_le t r t1 k : insert_or_ignore t r = (t1, k) -> t ⊆ t1.
Proof.
  unfold insert_or_ignore. destruct (t !! kkey r) eqn:E; intros H; injection H as <- _;
    [reflexivity|apply insert_subseteq; exact E].
Qed.

Lemma league_stable db x y c s db1 l db2 c' s' :
  get_or_create_league db x y c s = (db1, Some l) -> idb_le db1 db2 ->
  get_or_create_league db2 x y c' s' = (db2, Some l).
Proof.
  unfold get_or_create_league. intros H (Hl & _ & _).
  destruct x as [n|], y as [sp|]; try discriminate.
  destruct (i_leagues db !! (n, sp)) as [r|] eqn:E; injection H as <- <-.
  - rewrite (lookup_weaken _ _ _ _ E Hl). reflexivity.
  - simpl in Hl. rewrite (lookup_weaken _ _ _ _ (lookup_insert_eq _ _ _) Hl). reflexivity.
Qed.

Lemma league_none db x y c s db1 db2 c' s' :
  get_or_create_league db x y c s = (db1, None) ->
  get_or_create_league db2 x y c' s' = (db2, None).
Proof.
  unfold get_or_create_league.
  destruct x as [n|], y as [sp|]; try reflexivity.
  destruct (i_leagues db !! (n, sp)); discriminate.
Qed.

Lemma team_stable db x c l s db1 i db2 c' l' s' :
  get_or_create_team db x c l s = (db1, Some i) -> idb_le db1 db2 ->
  get_or_create_team db2 x c' l' s' = (db2, Some i).
Proof.
  unfold get_or_create_team. intros H (_ & Ht & _).
  destruct x as [n|]; [|discriminate].
  destruct (i_teams db !! n) as [r|] eqn:E; injection H as <- <-.
  - rewrite (lookup_weaken _ _ _ _ E Ht). reflexivity.
  - simpl in Ht. rewrite (lookup_weaken _ _ _ _ (lookup_insert_eq _ _ _) Ht). reflexivity.
Qed.

Lemma team_none db x c l s db1 db2 c' l' s' :
  get_or_create_team db x c l s = (db1, None) ->
  db1 = db /\ get_or_create_team db2 x c' l' s' = (db2, None).
Proof.
  unfold get_or_create_team.
  destruct x as [n|]; [|intros H; injection H as <-; split; reflexivity].
  destruct (i_teams db !! n); discriminate.
Qed.

Lemma insert_or_ignore_stable t r t1 k t2 :
  insert_or_ignore t r = (t1, k) -> t1 ⊆ t2 -> insert_or_ignore t2 r = (t2, 0%nat).
Proof.
  unfold insert_or_ignore. intros H Ht.
  destruct (t !! kkey r) as [v|] eqn:E; injection H as <- _.
  - assert (L : t2 !! kkey r = Some v) by (eapply lookup_weaken; eassumption).
    rewrite L. reflexivity.
  - assert (L : t2 !! kkey r = Some r)
      by (eapply lookup_weaken; [apply lookup_insert_eq|exact Ht]).
    rewrite L. reflexivity.
Qed.

(** ** The Kaggle row loop *)

Lemma set_matches_le db3 r t k :
  insert_or_ignore (i_matches db3) r = (t, k) -> idb_le db3 (set_i_matches db3 t).
Proof.
  intros I. repeat split; simpl; try reflexivity. eapply insert_or_ignore_le. exact I.
Qed.

Lemma set_matches_self db : set_i_matches db (i_matches db) = db.
Proof. destruct db. reflexivity. Qed.

Lemma kaggle_step_le pd db n r : idb_le db (fst (kaggle_step pd (db, n) r)).
Proof.
  unfold kaggle_step.
  destruct (pd (kr_date r)) as [dt|]; [|apply idb_le_refl].
  destruct (kr_home_score r) as [hs|]; [|apply idb_le_refl].
  destruct (kr_away_score r) as [as_|]; [|apply idb_le_refl].
  destruct (get_or_create_league db _ _ _ _) as [db1 [l|]] eqn:L;
    pose proof (league_le _ _ _ _ _ _ _ L) as H01; [|exact H01].
  destruct (get_or_create_team db1 _ _ _ _) as [db2 h] eqn:T1.
  destruct (get_or_create_team db2 _ _ _ _) as [db3 a] eqn:T2.
  pose proof (team_le _ _ _ _ _ _ _ T1) as H12. pose proof (team_le _ _ _ _ _ _ _ T2) as H23.
  assert (H03 : idb_le db db3) by (eapply idb_le_trans; [exact H01|eapply idb_le_trans; eassumption]).
  destruct h, a, (kr_home_team r), (kr_away_team r); try exact H03.
  destruct (insert_or_ignore _ _) as [t k] eqn:I.
  eapply idb_le_trans; [exact H03|eapply set_matches_le; exact I].
Qed.

Lemma kaggle_step_stable pd n0 db r db2 n :
  idb_le (fst (kaggle_step pd (db, n0) r)) db2 -> kaggle_step pd (db2, n) r = (db2, n).
Proof.
  unfold kaggle_step.
  destruct (pd (kr_date r)) as [dt|]; [|reflexivity].
  destruct (kr_home_score r) as [hs|]; [|reflexivity].
  destruct (kr_away_score r) as [as_|]; [|reflexivity].
  destruct (get_or_create_league db _ _ _ _) as [db1 [l|]] eqn:L; cbn [fst]; intros Hle.
  2: { erewrite league_none by exact L. reflexivity. }
  destruct (get_or_create_team db1 _ _ _ _) as [db2' h] eqn:T1.
  destruct (get_or_create_team db2' _ _ _ _) as [db3 a] eqn:T2.
  pose proof (team_le _ _ _ _ _ _ _ T1) as H12. pose proof (team_le _ _ _ _ _ _ _ T2) as H23.
  assert (Hf : idb_le db3 db2).
  { destruct h, a, (kr_home_team r), (kr_away_team r); cbn [fst] in Hle; try exact Hle.
    destruct (insert_or_ignore _ _) as [t k] eqn:I.
    eapply idb_le_trans; [eapply set_matches_le; exact I|exact Hle]. }
  erewrite (league_stable _ _ _ _ _ _ _ _ _ _ L)
    by (eapply idb_le_trans; [exact H12|eapply idb_le_trans; [exact H23|exact Hf]]).
  cbv iota beta.
  destruct h as [hi|].
  2: { erewrite (proj2 (team_none _ _ _ _ _ _ db2 _ _ _ T1)).
       destruct a as [ai|].
       - erewrite (team_stable _ _ _ _ _ _ _ _ _ _ _ T2) by exact Hf. reflexivity.
       - erewrite (proj2 (team_none _ _ _ _ _ _ db2 _ _ _ T2)). reflexivity. }
  erewrite (team_stable _ _ _ _ _ _ _ _ _ _ _ T1) by (eapply idb_le_trans; [exact H23|exact Hf]).
  destruct a as [ai|].
  2: { erewrite (proj2 (team_none _ _ _ _ _ _ db2 _ _ _ T2)). reflexivity. }
  erewrite (team_stable _ _ _ _ _ _ _ _ _ _ _ T2) by exact Hf.
  destruct (kr_home_team r) as [hn|], (kr_away_team r) as [an|]; try reflexivity.
  destruct (insert_or_ignore (i_matches db3) _) as [t k] eqn:I. cbn [fst] in Hle.
  destruct Hle as (_ & _ & Hm). simpl in Hm.
  rewrite (insert_or_ignore_stable _ _ _ _ _ I Hm), set_matches_self, Nat.add_0_r.
  reflexivity.
Qed.

Lemma kaggle_fold_le pd rows db n :
  idb_le db (fst (fold_left (kaggle_step pd) rows (db, n))).
Proof.
  revert db n. induction rows as [|r rows IH]; intros db n; cbn [fold_left]; [apply idb_le_refl|].
  pose proof (kaggle_step_le pd db n r) as H.
  destruct (kaggle_step pd (db, n) r) as [db' n']. simpl in H.
  eapply idb_le_trans; [exact H|apply IH].
Qed.

Lemma kaggle_fold_stable pd rows db n0 dbf m :
  idb_le (fst (fold_left (kaggle_step pd) rows (db, n0))) dbf ->
  fold_left (kaggle_step pd) rows (dbf, m) = (dbf, m).
Proof.
  revert db n0. induction rows as [|r rows IH]; intros db n0; cbn [fold_left]; [reflexivity|].
  destruct (kaggle_step pd (db, n0) r) as [db' n'] eqn:E. intros H.
  rewrite (kaggle_step_stable pd n0 db r dbf m).
  - apply (IH db' n'). exact H.
  - rewrite E. simpl. eapply idb_le_trans; [apply (kaggle_fold_le pd rows db' n')|exact H].
Qed.

Lemma league_matches db x y c s db1 o :
  get_or_create_league db x y c s = (db1, o) -> i_matches db1 = i_matches db.
Proof.
  unfold get_or_create_league. intros H.
  destruct x as [n|], y as [sp|]; try (injection H as <- _; reflexivity).
  destruct (i_leagues db !! (n, sp)); injection H as <- _; reflexivity.
Qed.

Lemma team_matches db x c l s db1 o :
  get_or_create_team db x c l s = (db1, o) -> i_matches db1 = i_matches db.
Proof.
  unfold get_or_create_team. intros H.
  destruct x as [n|]; [|injection H as <- _; reflexivity].
  destruct (i_teams db !! n); injection H as <- _; reflexivity.
Qed.

Lemma insert_or_ignore_size t r t1 k :
  insert_or_ignore t r = (t1, k) -> size t1 = (size t + k)%nat.
Proof.
  unfold insert_or_ignore. destruct (t !! kkey r) eqn:E; intros H; injection H as <- <-.
  - lia.
  - unfold ktable in *. rewrite map_size_insert_None by exact E. lia.
Qed.

Lemma kaggle_step_size pd db n r :
  let '(db', n') := kaggle_step pd (db, n) r in
  (size (i_matches db') + n = size (i_matches db) + n')%nat.
Proof.
  unfold kaggle_step.
  destruct (pd (kr_date r)) as [dt|]; [|reflexivity].
  destruct (kr_home_score r) as [hs|]; [|reflexivity].
  destruct (kr_away_score r) as [as_|]; [|reflexivity].
  destruct (get_or_create_league db _ _ _ _) as [db1 [l|]] eqn:L;
    pose proof (league_matches _ _ _ _ _ _ _ L) as M1; [|rewrite M1; reflexivity].
  destruct (get_or_create_team db1 _ _ _ _) as [db2 h] eqn:T1.
  destruct (get_or_create_team db2 _ _ _ _) as [db3 a] eqn:T2.
  pose proof (team_matches _ _ _ _ _ _ _ T1) as M2. pose proof (team_matches _ _ _ _ _ _ _ T2) as M3.
  destruct h, a, (kr_home_team r), (kr_away_team r); try (rewrite M3, M2, M1; reflexivity).
  destruct (insert_or_ignore _ _) as [t k] eqn:I. simpl.
  rewrite (insert_or_ignore_size _ _ _ _ I), M3, M2, M1. lia.
Qed.

Lemma kaggle_fold_size pd rows db n :
  let '(db', n') := fold_left (kaggle_step pd) rows (db, n) in
  (size (i_matches db') + n = size (i_matches db) + n')%nat.
Proof.
  revert db n. induction rows as [|r rows IH]; intros db n; cbn [fold_left]; [reflexivity|].
  pose proof (kaggle_step_size pd db n r) as H.
  destruct (kaggle_step pd (db, n) r) as [db1 n1].
  specialize (IH db1 n1). destruct (fold_left _ rows (db1, n1)) as [db2 n2]. lia.
Qed.

(** ** Repeated lookups *)

(** [get_or_create_team]: once a name has an id, a later call with that
    name returns the same id and writes nothing, whatever [country],
    [league_id] and [source] it passes. *)
Theorem get_or_create_team_again db n c1 l1 s1 db1 i c2 l2 s2 :
  get_or_create_team db (Some n) c1 l1 s1 = (db1, Some i) ->
  get_or_create_team db1 (Some n) c2 l2 s2 = (db1, Some i).
Proof. intros H. eapply team_stable; [exact H|apply idb_le_refl]. Qed.

Lemma get_or_create_team_again_witness :
  get_or_create_team (fst (get_or_create_team idb_empty (Some "Ghana"%string) None None None))
    (Some "Ghana"%string) (Some "Africa"%string) (Some 7%positive) (Some "TheSportsDB"%string)
  = (fst (get_or_create_team idb_empty (Some "Ghana"%string) None None None), Some 1%positive).
Proof.
  apply (get_or_create_team_again idb_empty "Ghana"%string None None None). reflexivity.
Defined.

(** [get_or_create_league]: once [(name, sport)] has an id, a later call
    with the same pair returns it and writes nothing, whatever [country]
    and [source] it passes. *)
Theorem get_or_create_league_again db n sp c1 s1 db1 i c2 s2 :
  get_or_create_league db (Some n) (Some sp) c1 s1 = (db1, Some i) ->
  get_or_create_league db1 (Some n) (Some sp) c2 s2 = (db1, Some i).
Proof. intros H. eapply league_stable; [exact H|apply idb_le_refl]. Qed.

Lemma get_or_create_league_again_witness :
  get_or_create_league
    (fst (get_or_create_league idb_empty (Some "Serie A"%string) (Some "Football"%string) None None))
    (Some "Serie A"%string) (Some "Football"%string) (Some "Italy"%string) (Some "Kaggle"%string)
  = (fst (get_or_create_league idb_empty (Some "Serie A"%string) (Some "Football"%string) None None),
     Some 1%positive).
Proof.
  apply (get_or_create_league_again idb_empty "Serie A"%string "Football"%string None None). reflexivity.
Defined.

(** ** Teams created by the Kaggle import *)

Lemma league_teams db x y c s db1 o :
  get_or_create_league db x y c s = (db1, o) -> i_teams db1 = i_teams db.
Proof.
  unfold get_or_create_league. intros H.
  destruct x as [n|], y as [sp|]; try (injection H as <- _; reflexivity).
  destruct (i_leagues db !! (n, sp)); injection H as <- _; reflexivity.
Qed.

Lemma team_new db x c l s db1 o n t :
  get_or_create_team db x c l s = (db1, o) ->
  i_teams db !! n = None -> i_teams db1 !! n = Some t ->
  x = Some n /\ t_country t = c /\ t_league_id t = l /\ t_source t = s.
Proof.
  unfold get_or_create_team. intros H En Et.
  destruct x as [m|]; [|injection H as <- _; congruence].
  destruct (i_teams db !! m) eqn:E; injection H as <- _; [congruence|].
  simpl in Et. rewrite lookup_insert in Et.
  destruct (decide (m = n)) as [<-|]; [|congruence].
  injection Et as <-. simpl. auto.
Qed.

Lemma kaggle_step_new_team pd db k r n t :
  i_teams db !! n = None -> i_teams (fst (kaggle_step pd (db, k) r)) !! n = Some t ->
  t_country t = Some n /\ t_source t = Some kaggle_source.
Proof.
  intros En. unfold kaggle_step.
  destruct (pd (kr_date r)) as [dt|]; [|simpl; congruence].
  destruct (kr_home_score r) as [hs|]; [|simpl; congruence].
  destruct (kr_away_score r) as [as_|]; [|simpl; congruence].
  destruct (get_or_create_league db _ _ _ _) as [db1 [l|]] eqn:L;
    pose proof (league_teams _ _ _ _ _ _ _ L) as M1; [|simpl; congruence].
  destruct (get_or_create_team db1 _ _ _ _) as [db2 h] eqn:T1.
  destruct (get_or_create_team db2 _ _ _ _) as [db3 a] eqn:T2.
  assert (Et : i_teams db3 !! n = Some t -> t_country t = Some n /\ t_source t = Some kaggle_source).
  { intros Et. destruct (i_teams db2 !! n) as [t2|] eqn:E2.
    - destruct (team_le _ _ _ _ _ _ _ T2) as (_ & Hle & _).
      assert (L2 : i_teams db3 !! n = Some t2) by (eapply lookup_weaken; eassumption).
      rewrite L2 in Et. injection Et as <-.
      rewrite <- M1 in En.
      destruct (team_new _ _ _ _ _ _ _ _ _ T1 En E2) as (Hx & Hc & _ & Hs).
      rewrite Hc, Hs, Hx. auto.
    - destruct (team_new _ _ _ _ _ _ _ _ _ T2 E2 Et) as (Hx & Hc & _ & Hs).
      rewrite Hc, Hs, Hx. auto. }
  destruct h, a, (kr_home_team r), (kr_away_team r); try exact Et.
  destruct (insert_or_ignore _ _) as [tb k'] eqn:I. exact Et.
Qed.

Lemma kaggle_fold_new_team pd rows db k n t :
  i_teams db !! n = None -> i_teams (fst (fold_left (kaggle_step pd) rows (db, k))) !! n = Some t ->
  t_country t = Some n /\ t_source t = Some kaggle_source.
Proof.
  revert db k. induction rows as [|r rows IH]; intros db k; cbn [fold_left]; [simpl; congruence|].
  intros En Et.
  pose proof (kaggle_step_new_team pd db k r n) as Hs.
  pose proof (kaggle_fold_le pd rows (fst (kaggle_step pd (db, k) r)) (snd (kaggle_step pd (db, k) r))) as Hl.
  destruct (kaggle_step pd (db, k) r) as [db1 k1]. simpl in Hs, Hl.
  destruct (i_teams db1 !! n) as [t1|] eqn:E1.
  - destruct Hl as (_ & Ht & _).
    assert (L : i_teams (fst (fold_left (kaggle_step pd) rows (db1, k1))) !! n = Some t1)
      by (eapply lookup_weaken; eassumption).
    rewrite L in Et. injection Et as <-. apply Hs; [exact En|reflexivity].
  - exact (IH db1 k1 E1 Et).
Qed.

(** [import_kaggle_international_results]: the reported [matches_added] is
    the number of new rows of [matches]; no stored match row is changed or
    removed ([ON CONFLICT ... DO NOTHING]), and the second count is 0. *)
Theorem kaggle_import_count pd db rows :
  let '(db', (added, other)) := import_kaggle_international_results pd db rows in
  size (i_matches db') = (size (i_matches db) + added)%nat /\
  i_matches db ⊆ i_matches db' /\ other = 0%nat.
Proof.
  unfold import_kaggle_international_results.
  pose proof (kaggle_fold_size pd rows db 0) as Hs.
  pose proof (kaggle_fold_le pd rows db 0) as Hl.
  destruct (fold_left _ rows (db, 0%nat)) as [db' added]. simpl in Hl.
  split; [lia|split; [apply Hl|reflexivity]].
Qed.

(** [import_kaggle_international_results]: importing the same rows a second
    time adds nothing and changes no table. *)
Theorem kaggle_import_twice pd db rows :
  let '(db1, _) := import_kaggle_international_results pd db rows in
  import_kaggle_international_results pd db1 rows = (db1, (0%nat, 0%nat)).
Proof.
  unfold import_kaggle_international_results.
  destruct (fold_left _ rows (db, 0%nat)) as [db1 a] eqn:F.
  rewrite (kaggle_fold_stable pd rows db 0 db1 0) by (rewrite F; apply idb_le_refl).
  reflexivity.
Qed.

(** [import_kaggle_international_results]: a team the import creates has
    its own name as [country] ([get_or_create_team(conn, home_team,
    home_team, ...)]) and the Kaggle source. *)
Theorem kaggle_import_new_team_country pd db rows n t :
  i_teams db !! n = None ->
  i_teams (fst (import_kaggle_international_results pd db rows)) !! n = Some t ->
  t_country t = Some n /\ t_source t = Some kaggle_source.
Proof.
  unfold import_kaggle_international_results. intros En.
  pose proof (kaggle_fold_new_team pd rows db 0 n t En) as H.
  destruct (fold_left _ rows (db, 0%nat)). exact H.
Qed.

Lemma kaggle_import_new_team_country_witness :
  t_country {| t_id := 2%positive; t_country := Some "Brazil"%string; t_league_id := Some 1%positive;
               t_source := Some kaggle_source |} = Some "Brazil"%string /\
  t_source {| t_id := 2%positive; t_country := Some "Brazil"%string; t_league_id := Some 1%positive;
              t_source := Some kaggle_source |} = Some kaggle_source.
Proof.
  apply (kaggle_import_new_team_country (fun d => Some d) idb_empty
    [{| kr_date := "1950-07-16"; kr_home_team := Some "Uruguay"%string;
        kr_away_team := Some "Brazil"%string; kr_home_score := Some 2%Z; kr_away_score := Some 1%Z;
        kr_tournament := Some "FIFA World Cup"%string; kr_country := Some "Brazil"%string |}]
    "Brazil"%string); reflexivity.
Defined.

(** ** The TheSportsDB status block *)

Ltac tsdb_cases s :=
  unfold tsdb_status in *;
  destruct (str_in s fin_statuses), (str_in s post_statuses), (str_in s live_statuses).

Lemma tsdb_status_shape s hs a_s :
  let '(st, h, a) := tsdb_status s hs a_s in
  (st = "FINISHED"%string /\ h = hs /\ a = a_s /\ (is_Some hs \/ is_Some a_s)) \/
  (st = "AWAITING_SCORES"%string /\ h = hs /\ a = a_s /\ (hs = None \/ a_s = None)) \/
  (st = "LIVE"%string /\ h = hs /\ a = a_s) \/
  ((st = "POSTPONED"%string \/ st = "SCHEDULED"%string) /\ h = None /\ a = None).
Proof.
  tsdb_cases s; try (destruct hs, a_s); simpl;
    try destruct (String.eqb s _); simpl; eauto 10.
Qed.

Lemma tsdb_status_finished_empty s hs a_s h a :
  tsdb_status s hs a_s = ("FINISHED"%string, h, a) -> (h = None \/ a = None) ->
  s = ""%string /\ h = hs /\ a = a_s.
Proof.
  intros E Hm. tsdb_cases s; destruct (String.eqb s "") eqn:Es; destruct hs, a_s; simpl in E;
    try discriminate; injection E as <- <-; try (destruct Hm; discriminate);
    apply String.eqb_eq in Es; auto.
Qed.

(** [import_thesportsdb_events]: every stored status is one of five; the
    stored scores are the parsed ones, except for [POSTPONED] and
    [SCHEDULED] rows, which store no score.  A [FINISHED] or [LIVE] row
    keeps the parsed scores. *)
Theorem tsdb_status_values s hs a_s :
  let '(st, h, a) := tsdb_status s hs a_s in
  st ∈ ["FINISHED"; "AWAITING_SCORES"; "LIVE"; "POSTPONED"; "SCHEDULED"]%string /\
  ((h, a) = (hs, a_s) \/ (h = None /\ a = None /\ (st = "POSTPONED"%string \/ st = "SCHEDULED"%string))).
Proof.
  pose proof (tsdb_status_shape s hs a_s) as H.
  destruct (tsdb_status s hs a_s) as [[st h] a].
  destruct H as [(-> & -> & -> & _)|[(-> & -> & -> & _)|[(-> & -> & ->)|([-> | ->] & -> & ->)]]];
    (split; [set_solver|]); auto.
Qed.

(** [import_thesportsdb_events]: with a score missing, a listed final
    status gives [AWAITING_SCORES] with the parsed scores, and a row stored
    as [FINISHED] comes only from an empty [strStatus] with the other score
    present ([elif not status_api and (hs is not None or a_s is not None)]). *)
Theorem tsdb_status_finished_missing_score s hs a_s st h a :
  (hs = None \/ a_s = None) -> tsdb_status s hs a_s = (st, h, a) ->
  (s ∈ fin_statuses -> st = "AWAITING_SCORES"%string /\ h = hs /\ a = a_s) /\
  (st = "FINISHED"%string -> s = ""%string /\ h = hs /\ a = a_s /\ (is_Some hs \/ is_Some a_s)).
Proof.
  intros Hm E. split.
  - intros Hin. assert (Ef : str_in s fin_statuses = true) by (apply bool_decide_eq_true; exact Hin).
    unfold tsdb_status in E. rewrite Ef in E.
    destruct hs, a_s; try (destruct Hm; discriminate); injection E as <- <- <-; auto.
  - intros ->.
    assert (Hm' : h = None \/ a = None).
    { pose proof (tsdb_status_shape s hs a_s) as Sh. rewrite E in Sh.
      destruct Sh as [(_ & -> & -> & _)|[(Q & _)|[(Q & _)|([Q|Q] & _)]]]; try discriminate. exact Hm. }
    destruct (tsdb_status_finished_empty s hs a_s h a E Hm') as (Hs & Hh & Ha).
    pose proof (tsdb_status_shape s hs a_s) as Sh. rewrite E in Sh.
    split; [exact Hs|split; [exact Hh|split; [exact Ha|]]].
    destruct Sh as [(_ & _ & _ & P)|[(Q & _)|[(Q & _)|([Q|Q] & _)]]]; try discriminate. exact P.
Qed.

Lemma tsdb_status_finished_missing_score_witness :
  (Some 3%Z = None \/ @None Z = None) /\
  tsdb_status "FT"%string (Some 3%Z) None = ("AWAITING_SCORES"%string, Some 3%Z, None) /\
  ("FT"%string ∈ fin_statuses -> "AWAITING_SCORES"%string = "AWAITING_SCORES"%string /\
     Some 3%Z = Some 3%Z /\ @None Z = None) /\
  ("AWAITING_SCORES"%string = "FINISHED"%string -> "FT"%string = ""%string /\
     Some 3%Z = Some 3%Z /\ @None Z = None /\ (is_Some (Some 3%Z) \/ is_Some (@None Z))).
Proof.
  split; [right; reflexivity|split; [reflexivity|]].
  apply (tsdb_status_finished_missing_score "FT"%string (Some 3%Z) None
           "AWAITING_SCORES"%string (Some 3%Z) None); [right; reflexivity|reflexivity].
Defined.

(** [import_thesportsdb_events]: with a non-empty [strStatus], a
    [FINISHED] row has both scores. *)
Theorem tsdb_status_finished_scores s hs a_s h a :
  s <> ""%string -> tsdb_status s hs a_s = ("FINISHED"%string, h, a) ->
  h = hs /\ a = a_s /\ is_Some h /\ is_Some a.
Proof.
  intros Ne E.
  pose proof (tsdb_status_shape s hs a_s) as Sh. rewrite E in Sh.
  destruct Sh as [(_ & -> & -> & _)|[(Q & _)|[(Q & _)|([Q|Q] & _)]]]; try discriminate.
  split; [reflexivity|split; [reflexivity|]].
  destruct hs as [x|], a_s as [y|]; [split; eexists; reflexivity|..];
    exfalso; apply Ne; eapply proj1, (tsdb_status_finished_empty s _ _ _ _ E); auto.
Qed.

Lemma tsdb_status_finished_scores_witness :
  "FT"%string <> ""%string /\ tsdb_status "FT"%string (Some 2%Z) (Some 0%Z) = ("FINISHED"%string, Some 2%Z, Some 0%Z) /\
  (Some 2%Z = Some 2%Z /\ Some 0%Z = Some 0%Z /\ is_Some (Some 2%Z) /\ is_Some (Some 0%Z)).
Proof.
  split; [discriminate|split; [reflexivity|]].
  apply (tsdb_status_finished_scores "FT"%string (Some 2%Z) (Some 0%Z)); [discriminate|reflexivity].
Defined.

End ImporterProofs.


(* ===================================================================== *)
(** * Proofs about the football.json match id *)
(* ===================================================================== *)

Module OpenFootballProofs.
Import OpenFootball.

Lemma remove_spaces_space a b :
  remove_spaces (String.append a (String " " b)) = remove_spaces (String.append a b).
Proof.
  induction a as [|c a IH]; simpl.
  - try (rewrite bool_decide_true by reflexivity); reflexivity.
  - rewrite IH. reflexivity.
Qed.

Lemma first_word_after_space l rest :
  first_word (String.append (first_word l) (String " " rest)) = first_word l.
Proof.
  induction l as [|c l IH]; simpl.
  - try (rewrite bool_decide_true by reflexivity); reflexivity.
  - case_bool_decide as Hc; simpl.
    + try (rewrite bool_decide_true by reflexivity); reflexivity.
    + rewrite bool_decide_false by exact Hc. rewrite IH. reflexivity.
Qed.

(** [parse_and_store_football_json]: the [source_match_id] drops the
    spaces of both team names ([.replace(' ', '')]), so team names that
    differ only by a space give the same id. *)
Theorem source_match_id_team_spaces day a b t league :
  source_match_id day (String.append a (String " " b)) t league =
    source_match_id day (String.append a b) t league /\
  source_match_id day t (String.append a (String " " b)) league =
    source_match_id day t (String.append a b) league.
Proof. unfold source_match_id. rewrite !remove_spaces_space. split; reflexivity. Qed.

(** [parse_and_store_football_json]: only the league name's first word
    enters the [source_match_id]; whatever follows its first space is
    ignored. *)
Theorem source_match_id_league_first_word day t1 t2 league rest :
  source_match_id day t1 t2 (String.append (first_word league) (String " " rest)) =
    source_match_id day t1 t2 league.
Proof. unfold source_match_id. rewrite first_word_after_space. reflexivity. Qed.

(** ** The score block *)

(** [parse_and_store_football_json]: either the match is [FINISHED] with
    both scores and the winner they give, or it stores no score and no
    winner, with status [SCHEDULED] or [UNKNOWN_SCORE]. *)
Theorem ofj_score_finished sd future :
  let '(h, a, w, st) := ofj_score sd future in
  (st = "FINISHED"%string /\ is_Some h /\ is_Some a /\ is_Some w /\ w = Upsert.compute_winner h a) \/
  ((st = "SCHEDULED"%string \/ st = "UNKNOWN_SCORE"%string) /\ h = None /\ a = None /\ w = None).
Proof.
  destruct sd as [|[|c1 [|c2 [|c3 l]]]|]; try destruct c1 as [x|]; try destruct c2 as [y|]; simpl;
    try (destruct future; auto 10; fail).
  left. repeat split; try (eexists; reflexivity).
  unfold Upsert.compute_winner. destruct (Z.gtb x y), (Z.gtb y x); eexists; reflexivity.
Qed.

(** [parse_and_store_football_json]: giving the score list in the other
    order swaps the stored scores, swaps [HOME_TEAM] and [AWAY_TEAM] in
    the winner, and keeps the status. *)
Theorem ofj_score_swap c1 c2 future :
  let '(h, a, w, st) := ofj_score (FtList [c1; c2]) future in
  let '(h', a', w', st') := ofj_score (FtList [c2; c1]) future in
  h' = a /\ a' = h /\ st' = st /\
  (w' = Some Upsert.HOME_TEAM <-> w = Some Upsert.AWAY_TEAM) /\
  (w' = Some Upsert.AWAY_TEAM <-> w = Some Upsert.HOME_TEAM) /\
  (w' = Some Upsert.DRAW <-> w = Some Upsert.DRAW) /\ (w' = None <-> w = None).
Proof.
  destruct c1 as [x|], c2 as [y|]; simpl; [|repeat split; auto; intros H; discriminate H..].
  unfold Upsert.compute_winner.
  destruct (Z.gtb x y) eqn:E1, (Z.gtb y x) eqn:E2;
    rewrite Z.gtb_ltb in E1, E2;
    try (apply Z.ltb_lt in E1); try (apply Z.ltb_lt in E2);
    try (apply Z.ltb_ge in E1); try (apply Z.ltb_ge in E2);
    try lia; repeat split; auto; intros H; discriminate H.
Qed.

End OpenFootballProofs.
